(** * Patient report generator: coordinate model, overlay compositor, batch driver

    A shallow embedding of the Python sources

    - [src/utils.py]            ([slugify_filename], [to_pdf_y]),
    - [src/template_coords.py]  ([mosabbir_default_coords],
                                 [get_field_display_names]),
    - [src/report_generator.py] ([ReportGenerator]),
    - [src/draggable_field.py]  ([DraggableField]: the position of a marker),
    - [src/template_editor.py]  ([TemplateFieldEditor]: the positions it keeps),
    - [src/app.py]              ([SimplePatientReportGenerator]: the handlers
                                 of the window and [generate_reports]),

    followed by the properties of the specification that these functions
    decide (Part II) and by further properties of the code (Part III).

    Conventions of the embedding.

    - A Python [float] is an IEEE-754 binary64 number.  Finite binary64
      values are rationals, and every arithmetic operation is the exact
      rational operation followed by round-to-nearest-even to a 53-bit
      significand ([binary64.rnd53]).  Gradual underflow is modelled;
      overflow to infinity and NaN are not (no quantity of the program
      comes near 2^1024).
    - A Python [str] is a list of Unicode code points ([pystr.str]).
    - A Python [dict] is a finite map; a [dict] that is shared between
      objects lives in a store of mapping objects and is named by its
      address ([report_generator.World]).
    - Exceptions are values of an error type; a function that can raise
      returns a sum.  The file system, the clock and the operating-system
      path functions are explicit. *)

From Stdlib Require Import ZArith NArith QArith Qround Qpower Qabs Qreduction Lia Lqa.
From Stdlib Require Import Ascii String DecimalN SpecFloat.
From stdpp Require Import gmap strings.

(** * Part I: the program *)

(** ** Python floats *)

Module binary64.
Local Open Scope Q_scope.

(** Nearest integer, ties to the even one.  This is also what Python's
    built-in [round(x)] returns for a float [x]. *)
Definition round_half_even (q : Q) : Z :=
  let f := Qfloor q in
  match Qcompare (q - inject_Z f) (1 # 2) with
  | Lt => f
  | Gt => (f + 1)%Z
  | Eq => if Z.even f then f else (f + 1)%Z
  end.

(** [z] is the integer nearest to [q], the even one of the two when [q]
    lies half-way. *)
Definition nearest_even (q : Q) (z : Z) : Prop :=
  - (1 # 2) < inject_Z z - q < 1 # 2
  \/ ((inject_Z z - q == 1 # 2 \/ inject_Z z - q == - (1 # 2)) /\ Z.even z = true).

(** [ilog2 x] is the integer [k] with [2^k <= x < 2^(k+1)], for [0 < x]. *)
Definition ilog2 (x : Q) : Z :=
  let k := (Z.log2 (Qnum x) - Z.log2 (Zpos (Qden x)))%Z in
  if Qle_bool (2 ^ k)%Q x then k else (k - 1)%Z.

(** The smallest exponent of binary64: subnormal numbers are multiples
    of [2^-1074]. *)
Definition emin : Z := -1074.

(** Exponent of the unit in the last place of the binade of [x]. *)
Definition fexp (x : Q) : Z := Z.max (ilog2 (Qabs x) - 52) emin.

(** Round-to-nearest-even onto binary64.  The result is kept in lowest
    terms, so that equal floats are equal terms. *)
Definition rnd53 (x : Q) : Q :=
  if Qeq_bool x 0 then 0
  else Qred (inject_Z (round_half_even (x / 2 ^ fexp x)) * 2 ^ fexp x).

(** A rational is a binary64 value when it is [m * 2^e] for a
    significand [m] below [2^53] in magnitude and an exponent [e] no
    smaller than [emin]. *)
Definition representable (x : Q) : Prop :=
  exists m e : Z,
    (emin <= e)%Z /\ (Z.abs m < 2 ^ 53)%Z /\ x == inject_Z m * 2 ^ e.

(** A decimal literal of the source text, e.g. [1.8] or [0.390070922]. *)
Definition float_lit (q : Q) : Q := rnd53 q.

(** [float(n)] for a Python [int]. *)
Definition float_of_int (n : Z) : Q := rnd53 (inject_Z n).

Definition fsub (x y : Q) : Q := rnd53 (x - y).
Definition fmul (x y : Q) : Q := rnd53 (x * y).

(** [a / b] for Python [int]s: the correctly rounded quotient.  A zero
    divisor raises [ZeroDivisionError] ([None]). *)
Definition int_truediv (a b : Z) : option Q :=
  if (b =? 0)%Z then None else Some (rnd53 (inject_Z a / inject_Z b)).

(** [max(a, b)] and [min(a, b)] of two numbers: Python returns the first
    argument unless the second is strictly larger (smaller). *)
Definition pymax (a b : Q) : Q := if Qle_bool b a then a else b.
Definition pymin (a b : Q) : Q := if Qle_bool a b then a else b.

(** The same operations in the Standard Library's specification of
    IEEE-754 arithmetic, at the parameters of binary64; used to test
    [rnd53] against it. *)
Definition ieee_of_Z (z : Z) : spec_float := binary_normalize 53 1024 z 0 false.

Definition ieee_value (x : spec_float) : option Q :=
  match x with
  | S754_zero _ => Some 0
  | S754_finite s m e =>
      Some (Qred ((if s then -1 else 1) * inject_Z (Zpos m) * 2 ^ e))
  | _ => None
  end.

Definition ieee_div (a b : spec_float) : spec_float := SFdiv 53 1024 a b.
Definition ieee_mul (a b : spec_float) : spec_float := SFmul 53 1024 a b.
Definition ieee_sub (a b : spec_float) : spec_float := SFsub 53 1024 a b.

Definition fadd (x y : Q) : Q := rnd53 (x + y).

(** [a / b] for floats.  A zero divisor raises [ZeroDivisionError]
    ([None]). *)
Definition float_truediv (a b : Q) : option Q :=
  if Qeq_bool b 0 then None else Some (rnd53 (a / b)).

(** [int(x)] for a float: the fraction is dropped, towards zero. *)
Definition int_of_float (q : Q) : Z := Z.quot (Qnum q) (Zpos (Qden q)).
End binary64.

(** ** Python strings *)

Module pystr.
(** A string is the list of its code points. *)
Abbreviation str := (list N).

(** An ASCII literal of the source text. *)
Definition lit (s : string) : str := map N_of_ascii (list_ascii_of_string s).

(** [c.isspace()]: the white-space code points of CPython
    (U+0009..U+000D, U+001C..U+0020, U+0085, U+00A0, U+1680,
    U+2000..U+200A, U+2028, U+2029, U+202F, U+205F, U+3000). *)
Definition isspace (c : N) : bool :=
  ((9 <=? c) && (c <=? 13) || (28 <=? c) && (c <=? 32) || (c =? 133)
   || (c =? 160) || (c =? 5760) || (8192 <=? c) && (c <=? 8202)
   || (c =? 8232) || (c =? 8233) || (c =? 8239) || (c =? 8287)
   || (c =? 12288))%N.

Fixpoint lstrip (s : str) : str :=
  match s with
  | [] => []
  | c :: t => if isspace c then lstrip t else s
  end.

Fixpoint rstrip (s : str) : str :=
  match s with
  | [] => []
  | c :: t =>
      match rstrip t with
      | [] => if isspace c then [] else [c]
      | t' => c :: t'
      end
  end.

(** [s.strip()] *)
Definition strip (s : str) : str := rstrip (lstrip s).

(** [s.replace(a, b)] for one-character [a] and [b]. *)
Definition replace_char (a b : N) (s : str) : str :=
  map (fun c => if (c =? a)%N then b else c) s.

(** Truth value of a string: [not s] holds exactly for the empty one. *)
Definition is_empty (s : str) : bool :=
  match s with [] => true | _ => false end.

(** [s or t] *)
Definition or_else (s t : str) : str := if is_empty s then t else s.

(** Decimal digits, most significant first. *)
Fixpoint uint_chars (u : Decimal.uint) : str :=
  match u with
  | Decimal.Nil => []
  | Decimal.D0 u => 48%N :: uint_chars u
  | Decimal.D1 u => 49%N :: uint_chars u
  | Decimal.D2 u => 50%N :: uint_chars u
  | Decimal.D3 u => 51%N :: uint_chars u
  | Decimal.D4 u => 52%N :: uint_chars u
  | Decimal.D5 u => 53%N :: uint_chars u
  | Decimal.D6 u => 54%N :: uint_chars u
  | Decimal.D7 u => 55%N :: uint_chars u
  | Decimal.D8 u => 56%N :: uint_chars u
  | Decimal.D9 u => 57%N :: uint_chars u
  end.

(** [str(n)] for a natural number. *)
Definition decimal (n : N) : str := uint_chars (N.to_uint n).

(** Left padding with [0] up to [width] characters. *)
Definition zfill (width : nat) (s : str) : str :=
  replicate (width - length s) 48%N ++ s.

(** [f"{n:02d}"]: sign-aware zero padding to a minimum width of two. *)
Definition format_02d (n : Z) : str :=
  match n with
  | Zneg p => 45%N :: zfill 1 (decimal (Npos p))
  | _ => zfill 2 (decimal (Z.to_N n))
  end.



End pystr.

(** ** [src/utils.py] *)

Module utils.
Import binary64 pystr.

(** The character class [[A-Za-z0-9_\-]] of the regular expression. *)
Definition safe_char (c : N) : bool :=
  ((65 <=? c) && (c <=? 90) || (97 <=? c) && (c <=? 122)
   || (48 <=? c) && (c <=? 57) || (c =? 95) || (c =? 45))%N.

(** [re.sub] of the characters outside the class by the empty string. *)
Definition remove_unsafe (s : str) : str := filter (fun c => safe_char c = true) s.

Definition default_fallback : str := lit "report".

Definition slugify_filename (s : str) (fallback : str) : str :=
  if is_empty (strip s) then fallback
  else
    let s := replace_char 32 95 (strip s) in
    let s := remove_unsafe s in
    or_else s fallback.

Definition to_pdf_y (y_from_top page_height : Q) : Q :=
  pymax 0 (pymin page_height (fsub page_height y_from_top)).
End utils.

(** ** [src/template_coords.py] *)

Module template_coords.
Import binary64.
Local Open Scope Q_scope.

(** The ratio table, in the order of the source. *)
Definition ratios : list (string * (Q * Q)) :=
  [ ("bed_id"%string,            (float_lit (390070922 # 1000000000), float_lit (119798235 # 1000000000)));
    ("name"%string,              (float_lit (407801418 # 1000000000), float_lit (233291299 # 1000000000)));
    ("age"%string,               (float_lit (407801418 # 1000000000), float_lit (271122320 # 1000000000)));
    ("gender"%string,            (float_lit (407801418 # 1000000000), float_lit (308953342 # 1000000000)));
    ("attendees"%string,         (float_lit (407801418 # 1000000000), float_lit (346784363 # 1000000000)));
    ("image"%string,             (float_lit (664893617 # 1000000000), float_lit (208070618 # 1000000000)));
    ("date_of_diagnosis"%string, (float_lit (425531915 # 1000000000), float_lit (706179067 # 1000000000)));
    ("cancer_type"%string,       (float_lit (425531915 # 1000000000), float_lit (744010088 # 1000000000)));
    ("cancer_stage"%string,      (float_lit (425531915 # 1000000000), float_lit (781841110 # 1000000000)));
    ("cancer_grade"%string,      (float_lit (425531915 # 1000000000), float_lit (819672131 # 1000000000))) ].

(** [int(round(r * size))] *)
Definition ratio_to_point (r size : Q) : Z := round_half_even (fmul r size).

(** The dict comprehension, as the list of its items in insertion order. *)
Definition default_items (page_width page_height : Q) : list (string * (Z * Z)) :=
  map (fun '(k, (rx, ry)) =>
         (k, (ratio_to_point rx page_width, ratio_to_point ry page_height)))
      ratios.

Definition mosabbir_default_coords (page_width page_height : Q)
  : gmap string (Z * Z) :=
  list_to_map (default_items page_width page_height).

Definition get_field_display_names : gmap string string :=
  list_to_map
    [ ("bed_id"%string, "Bed ID"%string);
      ("name"%string, "Name"%string);
      ("age"%string, "Age"%string);
      ("gender"%string, "Gender"%string);
      ("attendees"%string, "Attendees"%string);
      ("date_of_diagnosis"%string, "Date of Diagnosis"%string);
      ("cancer_type"%string, "Cancer Type"%string);
      ("cancer_stage"%string, "Cancer Stage"%string);
      ("cancer_grade"%string, "Cancer Grade"%string);
      ("image"%string, "Patient Image"%string) ].
End template_coords.

(** ** [src/report_generator.py] *)

Module report_generator.
Import binary64 pystr utils.
Local Open Scope Q_scope.

(** *** The canvas and the documents *)

Record Font := { font_name : string; font_size : Z }.

Definition Helvetica (size : Z) : Font :=
  {| font_name := "Helvetica"; font_size := size |}.

(** What ReportLab was asked to paint; a text operation records the font
    that was current when it was issued. *)
Inductive DrawOp :=
| DrawString (f : Font) (x y : Q) (text : str)
| DrawRightString (f : Font) (x y : Q) (text : str)
| DrawImage (path : str) (x y width height : Q).

(** Whether an operation paints an image. *)
Definition is_image (op : DrawOp) : bool :=
  match op with
  | DrawImage _ _ _ _ _ => true
  | _ => false
  end.

Record Canvas := { pagesize : Q * Q; font : Font; drawn : list DrawOp }.

Definition new_canvas (size : Q * Q) : Canvas :=
  {| pagesize := size; font := Helvetica 12; drawn := [] |}.

Definition setFont (f : Font) (c : Canvas) : Canvas :=
  {| pagesize := pagesize c; font := f; drawn := drawn c |}.

Definition emit (op : DrawOp) (c : Canvas) : Canvas :=
  {| pagesize := pagesize c; font := font c; drawn := drawn c ++ [op] |}.

Definition drawString (x y : Q) (text : str) (c : Canvas) : Canvas :=
  emit (DrawString (font c) x y text) c.

Definition drawRightString (x y : Q) (text : str) (c : Canvas) : Canvas :=
  emit (DrawRightString (font c) x y text) c.

(** A page of a PDF document: its media box as written in the file
    ([None] when it cannot be read) and its painted content. *)
Record Page := { mediabox : option (Q * Q); content : list DrawOp }.

(** One row of the data frame: the text of each cell by column name. *)
Abbreviation Row := (gmap string str).

(** A mapping of field names to positions, as [dict]. *)
Abbreviation Coords := (gmap string (Z * Z)).

(** What a path of the file system holds.  An [ImageFile] is a file that
    Pillow opens and ReportLab draws; a [PdfFile] is one that PyPDF2
    opens; a [CsvFile] is one that pandas reads. *)
Inductive File :=
| PdfFile (pages : list Page)
| ImageFile (width height : Z)
| CsvFile (rows : list Row)
| OtherFile.

Inductive Exn :=
| PdfReadError (path : str)
| IndexError
| MediaBoxError
| ImageOpenError (path : str)
| ZeroDivisionError
| WriteError (path : str)
| WriteInterrupted (path : str)
| CsvReadError (path : str).

(** Library functions whose results the program only passes on. *)
Class OS := {
  path_join : str -> str -> str;
  normpath : str -> str;
  dirname : str -> str;
  strftime : nat -> str;
  exn_text : Exn -> str }.

(** What happens when the program writes a document to a path:
    [open(path, "wb")] raises and nothing changes ([Denied]); the file is
    opened, which creates or empties it, and [writer.write] raises before
    the document is complete ([Interrupted]); or the document is written
    ([Written]). *)
Inductive Writing := Denied | Interrupted | Written.

(** The state outside the program text: files, what writing to a path
    leads to, the clock, and the store of mapping objects. *)
Record World := {
  fs : gmap str File;
  writable : str -> Writing;
  clock : nat;
  store : gmap positive Coords }.

Definition set_fs (f : gmap str File) (w : World) : World :=
  {| fs := f; writable := writable w; clock := clock w; store := store w |}.

Definition set_clock (n : nat) (w : World) : World :=
  {| fs := fs w; writable := writable w; clock := n; store := store w |}.

Definition set_store (s : gmap positive Coords) (w : World) : World :=
  {| fs := fs w; writable := writable w; clock := clock w; store := s |}.

(** [c'] is [c] with more operations, none of which paints an image. *)
Definition more_text (c c' : Canvas) : Prop :=
  exists rest,
    drawn c' = drawn c ++ rest /\ Forall (fun op => is_image op = false) rest.

(** *** Computations that read and change the world and may raise *)

Definition M (A : Type) : Type := World -> (Exn + A) * World.

#[global] Instance M_ret : MRet M := fun A a w => (inr a, w).

#[global] Instance M_bind : MBind M := fun A B k c w =>
  match c w with
  | (inl e, w') => (inl e, w')
  | (inr a, w') => k a w'
  end.

Definition raise {A} (e : Exn) : M A := fun w => (inl e, w).

Definition ask : M World := fun w => (inr w, w).

Definition modify (f : World -> World) : M unit := fun w => (inr tt, f w).

(** [PdfReader(path)] *)
Definition PdfReader (path : str) : M (list Page) :=
  w ← ask;
  match fs w !! path with
  | Some (PdfFile pages) => mret pages
  | _ => raise (PdfReadError path)
  end.

(** [reader.pages[0]] *)
Definition first_page (pages : list Page) : M Page :=
  match pages with
  | p :: _ => mret p
  | [] => raise IndexError
  end.

(** [float(page.mediabox.width), float(page.mediabox.height)] *)
Definition page_size (p : Page) : M (Q * Q) :=
  match mediabox p with
  | Some (w, h) => mret (rnd53 w, rnd53 h)
  | None => raise MediaBoxError
  end.

(** [open(path, "wb")]: the file is created, or emptied when it exists;
    until a document is written it holds none. *)
Definition open_wb (path : str) : M unit :=
  w ← ask;
  match writable w path with
  | Denied => raise (WriteError path)
  | _ => modify (set_fs (<[path := OtherFile]> (fs w)))
  end.

(** [writer.write(f_out)] on the file opened at [path]. *)
Definition writer_write (path : str) (pages : list Page) : M unit :=
  w ← ask;
  match writable w path with
  | Written => modify (set_fs (<[path := PdfFile pages]> (fs w)))
  | _ => raise (WriteInterrupted path)
  end.

(** [with open(path, "wb") as f_out: writer.write(f_out)] *)
Definition write_pdf (path : str) (pages : list Page) : M unit :=
  _ ← open_wb path;
  writer_write path pages.

(** [datetime.datetime.now()] *)
Definition now : M nat :=
  w ← ask;
  _ ← modify (set_clock (S (clock w)));
  mret (clock w).

(** *** The class [ReportGenerator] *)

(** The object keeps the path and a reference to the caller's mapping
    object ([self.field_coordinates = field_coordinates]). *)
Record ReportGenerator := {
  template_path : str;
  field_coordinates : positive }.

Definition __init__ (template_path : str) (field_coordinates : positive)
  : ReportGenerator :=
  {| template_path := template_path; field_coordinates := field_coordinates |}.

(** The mapping object behind [self.field_coordinates], as it is now. *)
Definition coords_of (self : ReportGenerator) (w : World) : Coords :=
  default ∅ (store w !! field_coordinates self).

(** [patient_data.get(key, '')] followed by [str]. *)
Definition cell (patient_data : Row) (key : string) : str :=
  default [] (patient_data !! key).

(** [max(0, min(page_width, float(x_top)))] *)
Definition clamp_x (x_top : Z) (page_width : Q) : Q :=
  pymax 0 (pymin page_width (float_of_int x_top)).

Section methods.
Context {os : OS}.

Definition draw_text (coords : Coords) (page_width page_height : Q)
    (key : string) (txt : str) (canvas : Canvas) : Canvas :=
  match coords !! key with
  | Some (x_top, y_top) =>
      let x := clamp_x x_top page_width in
      let y := to_pdf_y (float_of_int y_top) page_height in
      drawString x y txt canvas
  | None => canvas
  end.

Definition _draw_text_fields (self : ReportGenerator) (w : World)
    (canvas : Canvas) (patient_data : Row) (bed_id : Z)
    (page_width page_height : Q) : Canvas :=
  let draw_text := draw_text (coords_of self w) page_width page_height in
  let canvas := draw_text "bed_id"%string (format_02d bed_id) canvas in
  let canvas := draw_text "name"%string (cell patient_data "name") canvas in
  let canvas := draw_text "age"%string (cell patient_data "age") canvas in
  let canvas := draw_text "gender"%string (cell patient_data "gender") canvas in
  let canvas := draw_text "attendees"%string (cell patient_data "attendees") canvas in
  let canvas := draw_text "date_of_diagnosis"%string
                  (cell patient_data "date_of_diagnosis") canvas in
  let canvas := draw_text "cancer_type"%string (cell patient_data "cancer_type") canvas in
  let canvas := draw_text "cancer_stage"%string (cell patient_data "cancer_stage") canvas in
  draw_text "cancer_grade"%string (cell patient_data "cancer_grade") canvas.

Definition _draw_image_placeholder (canvas : Canvas) (x y : Q) (message : str)
  : Canvas :=
  let canvas := setFont (Helvetica 9) canvas in
  let canvas := drawString x y message canvas in
  setFont (Helvetica 12) canvas.

(** [1.8 * 72.0] *)
Definition max_side : Q := fmul (float_lit (18 # 10)) (float_lit 72).

(** The width and height computed from the size of the image. *)
Definition image_box (iw ih : Z) : Exn + (Q * Q) :=
  if (iw >=? ih)%Z
  then match int_truediv ih iw with
       | Some r => inr (max_side, fmul r max_side)
       | None => inl ZeroDivisionError
       end
  else match int_truediv iw ih with
       | Some r => inr (fmul r max_side, max_side)
       | None => inl ZeroDivisionError
       end.

(** The body of the [try] block. *)
Definition try_draw_image (w : World) (canvas : Canvas) (img_path : str)
    (img_x img_y : Q) : Exn + Canvas :=
  match fs w !! img_path with
  | Some (ImageFile iw ih) =>
      match image_box iw ih with
      | inr (new_w, new_h) =>
          inr (emit (DrawImage img_path img_x (fsub img_y new_h) new_w new_h) canvas)
      | inl e => inl e
      end
  | _ => inl (ImageOpenError img_path)
  end.

Definition _draw_patient_image (self : ReportGenerator) (w : World)
    (canvas : Canvas) (patient_data : Row) (csv_dir : str)
    (page_width page_height : Q) : Canvas :=
  match coords_of self w !! "image"%string with
  | None => canvas
  | Some (img_x_top, img_y_top) =>
      let img_x := clamp_x img_x_top page_width in
      let img_y := to_pdf_y (float_of_int img_y_top) page_height in
      let rel := strip (cell patient_data "image_path") in
      if is_empty rel
      then _draw_image_placeholder canvas img_x img_y (lit "No image path")
      else
        let img_path := normpath (path_join csv_dir rel) in
        match fs w !! img_path with
        | None => _draw_image_placeholder canvas img_x img_y (lit "Image not found")
        | Some _ =>
            match try_draw_image w canvas img_path img_x img_y with
            | inr canvas => canvas
            | inl e =>
                _draw_image_placeholder canvas img_x img_y
                  (lit "Image Error: " ++ exn_text e)
            end
        end
  end.

Definition _add_timestamp (canvas : Canvas) (page_width : Q) : M Canvas :=
  let canvas := setFont (Helvetica 8) canvas in
  t ← now;
  mret (drawRightString (fsub page_width 20) 15
          (lit "Generated: " ++ strftime t) canvas).

(** [base_page.merge_page(overlay)]: the overlay is painted over the
    content of the template page, in the same page box. *)
Definition merge_page (base_page : Page) (overlay : Canvas) : Page :=
  {| mediabox := mediabox base_page;
     content := content base_page ++ drawn overlay |}.

Definition create_patient_report (self : ReportGenerator) (patient_data : Row)
    (csv_dir : str) (bed_id : Z) (output_dir : str) : M str :=
  let base_name := slugify_filename (cell patient_data "name") default_fallback in
  let output_path := path_join output_dir (base_name ++ lit "_report.pdf") in
  template_reader ← PdfReader (template_path self);
  template_page ← first_page template_reader;
  '(page_width, page_height) ← page_size template_page;
  let can := new_canvas (page_width, page_height) in
  let can := setFont (Helvetica 12) can in
  w ← ask;
  let can := _draw_text_fields self w can patient_data bed_id page_width page_height in
  let can := _draw_patient_image self w can patient_data csv_dir page_width page_height in
  can ← _add_timestamp can page_width;
  let base_page := merge_page template_page can in
  _ ← write_pdf output_path [base_page];
  mret output_path.

(** *** Summaries of [create_patient_report], used to state its properties *)

(** The first three steps: the template is opened, its first page is
    taken and the size of its media box is read. *)
Definition template_geometry (path : str) (w : World) : Exn + (Page * (Q * Q)) :=
  match fs w !! path with
  | Some (PdfFile (page :: _)) =>
      match mediabox page with
      | Some (mw, mh) => inr (page, (rnd53 mw, rnd53 mh))
      | None => inl MediaBoxError
      end
  | Some (PdfFile []) => inl IndexError
  | _ => inl (PdfReadError path)
  end.

(** The canvas when [can.save()] is reached, for a page of the given size. *)
Definition overlay (self : ReportGenerator) (w : World) (patient_data : Row)
    (csv_dir : str) (bed_id : Z) (size : Q * Q) : Canvas :=
  let can := setFont (Helvetica 12) (new_canvas size) in
  let can := _draw_text_fields self w can patient_data bed_id size.1 size.2 in
  let can := _draw_patient_image self w can patient_data csv_dir size.1 size.2 in
  drawRightString (fsub size.1 20) 15 (lit "Generated: " ++ strftime (clock w))
    (setFont (Helvetica 8) can).

(** The value of [output_path]. *)
Definition output_path_of (patient_data : Row) (output_dir : str) : str :=
  path_join output_dir
    (slugify_filename (cell patient_data "name") default_fallback ++ lit "_report.pdf").
End methods.
End report_generator.

(** ** [src/template_editor.py] *)

Module template_editor.
Import pystr report_generator.
Local Open Scope Q_scope.

(** [TemplateFieldEditor._read_template_size]: the [try] block, and the
    US-Letter size returned by the [except] clause. *)
Definition _read_template_size (template_path : str) (w : World) : Q * Q :=
  match (r ← PdfReader template_path; page ← first_page r; page_size page) w with
  | (inr size, _) => size
  | (inl _, _) => (612, 792)
  end.
End template_editor.

(** ** [src/app.py] *)

Module app.
Import binary64 pystr utils template_coords report_generator.

(** The attributes of [SimplePatientReportGenerator] that the batch driver
    reads.  [field_coordinates] names a mapping object of the store. *)
Record App := {
  csv_path : option str;
  template_path : option str;
  field_coordinates : positive }.

Definition set_field_coordinates (l : positive) (self : App) : App :=
  {| csv_path := csv_path self; template_path := template_path self;
     field_coordinates := l |}.

Definition set_template_path (p : str) (self : App) : App :=
  {| csv_path := csv_path self; template_path := Some p;
     field_coordinates := field_coordinates self |}.

(** A new mapping object. *)
Definition alloc (d : Coords) (w : World) : positive * World :=
  let l := fresh (dom (store w)) in
  (l, set_store (<[l := d]> (store w)) w).

(** What the handlers of the window do to the mappings while the event
    loop runs:
    - [SelectTemplate path] is [select_template] with the chosen [path];
    - [NewMapping d] creates a mapping object, as the editor does for its
      own positions;
    - [AdoptMapping l] is the assignment
      [self.field_coordinates = editor.field_coordinates] of
      [edit_template];
    - [SetItem l k v] is the item assignment [d[k] = v] on the mapping
      object at [l], as in [TemplateFieldEditor.save_coordinates]. *)
Inductive Action :=
| SelectTemplate (path : str)
| NewMapping (d : Coords)
| AdoptMapping (l : positive)
| SetItem (l : positive) (k : string) (v : Z * Z).

Definition select_template (path : str) (st : App * World) : App * World :=
  let '(self, w) := st in
  let self := set_template_path path self in
  match (r ← PdfReader path; p ← first_page r; page_size p) w with
  | (inr (pw, ph), _) =>
      let '(l, w) := alloc (mosabbir_default_coords pw ph) w in
      (set_field_coordinates l self, w)
  | (inl _, _) => (self, w)
  end.

Definition run_action (st : App * World) (a : Action) : App * World :=
  match a with
  | SelectTemplate path => select_template path st
  | NewMapping d => (st.1, (alloc d st.2).2)
  | AdoptMapping l => (set_field_coordinates l st.1, st.2)
  | SetItem l k v =>
      (st.1, set_store (alter (fun d => <[k := v]> d) l (store st.2)) st.2)
  end.

(** [self.root.update()]: the pending events are handled. *)
Definition root_update (events : list Action) (st : App * World) : App * World :=
  foldl run_action st events.

(** What the driver shows: message boxes and the status line. *)
Inductive Ui :=
| ErrorSelectCsv
| ErrorSelectTemplate
| StatusReadingCsv
| StatusGenerating (n total : nat) (who : str)
| WarningRecord (name : str) (e : Exn)
| InfoAll (ok : nat)
| WarningPartial (ok total : nat)
| StatusDone (ok total : nat)
| ErrorOccurred (e : Exn)
| StatusErrorDuring.

(** The variables of the loop, the per-record outcomes in input order, and
    what was shown so far. *)
Record Loop := {
  ok : nat;
  outcomes : list (Exn + str);
  trace : list Ui;
  gui : App;
  world : World }.

(** How a run of [generate_reports] ends. *)
Inductive Result :=
| Refused
| Failed (e : Exn)
| Finished (ok total : nat) (outcomes : list (Exn + str)).

Section driver.
Context {os : OS}.

(** [pending n] are the events handled by the [n]-th call of
    [self.root.update()]. *)
Variable pending : nat -> list Action.

(** The body of the [for] loop, for the row with index label [i]. *)
Definition report_step (generator : ReportGenerator) (csv_dir : str)
    (total : nat) (i : nat) (row : Row) (s : Loop) : Loop :=
  let who := or_else (strip (cell row "name"))
               (lit "Patient_" ++ decimal (N.of_nat (i + 1))) in
  let trace := trace s ++ [StatusGenerating (i + 1) total who] in
  let '(self, w) := root_update (pending (S i)) (gui s, world s) in
  match create_patient_report generator row csv_dir (Z.of_nat i + 1) (lit "reports") w with
  | (inr path, w) =>
      {| ok := S (ok s); outcomes := outcomes s ++ [inr path]; trace := trace;
         gui := self; world := w |}
  | (inl e, w) =>
      {| ok := ok s; outcomes := outcomes s ++ [inl e];
         trace := trace ++ [WarningRecord (default (lit "Unknown") (row !! "name"%string)) e];
         gui := self; world := w |}
  end.

(** [for i, row in df.iterrows()], from index label [i] on. *)
Fixpoint report_loop (generator : ReportGenerator) (csv_dir : str)
    (total : nat) (i : nat) (rows : list Row) (s : Loop) : Loop :=
  match rows with
  | [] => s
  | row :: rest =>
      report_loop generator csv_dir total (S i) rest
        (report_step generator csv_dir total i row s)
  end.

(** [pd.read_csv(path)], blanks filled with the empty string. *)
Definition read_csv (path : option str) (w : World) : Exn + list Row :=
  match path with
  | Some p => match fs w !! p with
              | Some (CsvFile rows) => inr rows
              | _ => inl (CsvReadError p)
              end
  | None => inl (CsvReadError [])
  end.

Definition generate_reports (self : App) (w : World) : Result * Loop :=
  let s := {| ok := 0; outcomes := []; trace := []; gui := self; world := w |} in
  let say (u : list Ui) (s : Loop) : Loop :=
    {| ok := ok s; outcomes := outcomes s; trace := trace s ++ u;
       gui := gui s; world := world s |} in
  match csv_path self, template_path self with
  | None, _ => (Refused, say [ErrorSelectCsv] s)
  | Some _, None => (Refused, say [ErrorSelectTemplate] s)
  | Some _, Some _ =>
      let s := say [StatusReadingCsv] s in
      let '(self, w) := root_update (pending 0) (self, w) in
      match read_csv (csv_path self) w with
      | inl e => (Failed e, say [ErrorOccurred e; StatusErrorDuring]
                              {| ok := 0; outcomes := []; trace := trace s;
                                 gui := self; world := w |})
      | inr df =>
          let csv_dir := dirname (default [] (csv_path self)) in
          let generator := __init__ (default [] (template_path self))
                             (field_coordinates self) in
          let total := length df in
          let s := report_loop generator csv_dir total 0 df
                     {| ok := 0; outcomes := []; trace := trace s;
                        gui := self; world := w |} in
          let s := if (ok s =? total)%nat
                   then say [InfoAll (ok s)] s
                   else say [WarningPartial (ok s) total] s in
          (Finished (ok s) total (outcomes s), say [StatusDone (ok s) total] s)
      end
  end.

(** *** Summaries of [generate_reports], used to state its properties *)

(** The state in which the generator is constructed: after the first
    [self.root.update()]. *)
Definition state_at_construction (self : App) (w : World) : App * World :=
  root_update (pending 0) (self, w).

(** The generator that [generate_reports] constructs. *)
Definition generator_of (self : App) (w : World) : ReportGenerator :=
  let self := (state_at_construction self w).1 in
  __init__ (default [] (template_path self)) (field_coordinates self).

(** The text [who] of the status line for the row with index label [i]. *)
Definition who_of (i : nat) (row : Row) : str :=
  or_else (strip (cell row "name")) (lit "Patient_" ++ decimal (N.of_nat (i + 1))).

(** The name shown in the warning for a failed row. *)
Definition shown_name (row : Row) : str := default (lit "Unknown") (row !! "name"%string).
End driver.

(** What is shown for rows that all fail with [e], from index label [i] on. *)
Fixpoint failure_trace (total : nat) (e : Exn) (i : nat) (rows : list Row) : list Ui :=
  match rows with
  | [] => []
  | row :: rest =>
      StatusGenerating (i + 1) total (who_of i row)
        :: WarningRecord (shown_name row) e
        :: failure_trace total e (S i) rest
  end.

(** What is shown for rows that all succeed. *)
Fixpoint success_trace (total : nat) (i : nat) (rows : list Row) : list Ui :=
  match rows with
  | [] => []
  | row :: rest =>
      StatusGenerating (i + 1) total (who_of i row) :: success_trace total (S i) rest
  end.

(** Two worlds that a generator holding the mapping object at [l] cannot
    tell apart. *)
Definition same_view (l : positive) (w1 w2 : World) : Prop :=
  fs w1 = fs w2 /\ writable w1 = writable w2 /\ clock w1 = clock w2
  /\ store w1 !! l = store w2 !! l.

(** The action leaves the mapping object at [l] as it is: it is not an
    item assignment on that object. *)
Definition spares (l : positive) (a : Action) : Prop :=
  match a with
  | SetItem l' _ _ => l' <> l
  | _ => True
  end.

(** Two states of the loop that agree on everything a generator holding
    the mapping object at [l] can observe, and on what was produced. *)
Definition same_pass (l : positive) (s1 s2 : Loop) : Prop :=
  ok s1 = ok s2 /\ outcomes s1 = outcomes s2 /\ trace s1 = trace s2
  /\ same_view l (world s1) (world s2)
  /\ is_Some (store (world s1) !! l) /\ is_Some (store (world s2) !! l).

(** *** The other handlers of the window *)

(** The positions that [__init__] gives the window before a template is
    selected. *)
Definition initial_field_coordinates : Coords :=
  list_to_map
    [ ("bed_id"%string, (182, 74)%Z);
      ("name"%string, (197, 170)%Z);
      ("age"%string, (197, 207)%Z);
      ("gender"%string, (197, 244)%Z);
      ("attendees"%string, (197, 289)%Z);
      ("date_of_diagnosis"%string, (317, 581)%Z);
      ("cancer_type"%string, (317, 618)%Z);
      ("cancer_stage"%string, (317, 653)%Z);
      ("cancer_grade"%string, (317, 683)%Z);
      ("image"%string, (386, 150)%Z) ].

(** [update_coordinates_display]: the label and the position shown for
    each field of the mapping.  The look-up [labels[k]] raises [KeyError]
    for a field without a label ([None]).  The order of the lines is not
    modelled. *)
Definition update_coordinates_display (coords : Coords)
  : option (gmap string (string * (Z * Z))) :=
  let labels := get_field_display_names in
  if bool_decide (dom coords ⊆ dom labels)
  then Some (map_imap (fun k pos => (fun label => (label, pos)) <$> labels !! k) coords)
  else None.

(** What [pd.read_csv] returns: the column names and the rows. *)
Record DataFrame := { columns : list string; table : list Row }.

Definition required : list string :=
  [ "name"; "age"; "gender"; "attendees"; "date_of_diagnosis";
    "cancer_type"; "cancer_stage"; "cancer_grade"; "image_path" ]%string.

(** What [select_csv] shows. *)
Inductive CsvDialog :=
| CsvCancelled
| CsvMissingColumns (missing : list string)
| CsvReadFailed (e : Exn)
| CsvSelected (patients : nat).

(** [select_csv] for the [path] chosen in the dialog ([None] when the
    dialog was cancelled) and the result [read] of [pd.read_csv(path)]. *)
Definition select_csv (path : option str) (read : Exn + DataFrame) (self : App)
  : App * CsvDialog :=
  match path with
  | None => (self, CsvCancelled)
  | Some path =>
      match read with
      | inl e => (self, CsvReadFailed e)
      | inr df =>
          let missing := filter (fun c => c ∉ columns df) required in
          match missing with
          | [] => ({| csv_path := Some path; template_path := template_path self;
                      field_coordinates := field_coordinates self |},
                   CsvSelected (length (table df)))
          | _ => (self, CsvMissingColumns missing)
          end
      end
  end.
End app.

(** ** [src/draggable_field.py] *)

Module draggable_field.
Import binary64.

(** A marker of the editor.  Its position is kept in PDF points, top-left
    origin; [drag_data] is where the pointer was at the last event.  The
    attributes that only serve the drawing on the screen are left out. *)
Record DraggableField := {
  x : Q;
  y : Q;
  page_width : Q;
  page_height : Q;
  drag_data : Z * Z }.

Definition __init__ (x y : Z) (page_width page_height : Q) : DraggableField :=
  {| x := float_of_int x; y := float_of_int y;
     page_width := page_width; page_height := page_height;
     drag_data := (0, 0)%Z |}.

(** [_px_to_pt_delta], for the scales that [get_scales()] returns. *)
Definition _px_to_pt_delta (scales : Q * Q) (dx_px dy_px : Z) : option (Q * Q) :=
  let '(sx, sy) := scales in
  let sx := if Qeq_bool sx 0 then 1%Q else sx in
  let sy := if Qeq_bool sy 0 then 1%Q else sy in
  dx ← float_truediv (float_of_int dx_px) sx;
  dy ← float_truediv (float_of_int dy_px) sy;
  Some (dx, dy).

Definition on_press (event : Z * Z) (self : DraggableField) : DraggableField :=
  {| x := x self; y := y self;
     page_width := page_width self; page_height := page_height self;
     drag_data := event |}.

Definition on_drag (scales : Q * Q) (event : Z * Z) (self : DraggableField)
  : option DraggableField :=
  let dx_px := (event.1 - (drag_data self).1)%Z in
  let dy_px := (event.2 - (drag_data self).2)%Z in
  '(dx_pt, dy_pt) ← _px_to_pt_delta scales dx_px dy_px;
  Some {| x := pymin (pymax 0 (fadd (x self) dx_pt)) (page_width self);
          y := pymin (pymax 0 (fadd (y self) dy_pt)) (page_height self);
          page_width := page_width self; page_height := page_height self;
          drag_data := event |}.

Definition get_coordinates (self : DraggableField) : Z * Z :=
  (round_half_even (x self), round_half_even (y self)).
End draggable_field.

(** ** [src/template_editor.py]: the positions of the editor *)

Module field_editor.
Import binary64 pystr template_coords report_generator template_editor app.
Import draggable_field.

(** The attributes of [TemplateFieldEditor] that bear on the positions.
    [base_image] is the size of the rasterised page when a preview could
    be made; [field_coordinates] names the mapping object of the editor. *)
Record Editor := {
  page_size : Q * Q;
  base_image : option (Z * Z);
  zoom : Q;
  field_coordinates : positive;
  draggable_fields : gmap string DraggableField;
  saved : bool }.

Definition _current_display_size (self : Editor) : Z * Z :=
  let z := zoom self in
  match base_image self with
  | Some (w_img, h_img) =>
      (int_of_float (fmul (float_of_int w_img) z),
       int_of_float (fmul (float_of_int h_img) z))
  | None =>
      (int_of_float (fmul (page_size self).1 z),
       int_of_float (fmul (page_size self).2 z))
  end.

(** [get_scales]: pixels per point; [1.0] for a page of size zero. *)
Definition get_scales (self : Editor) : option (Q * Q) :=
  let '(disp_w, disp_h) := _current_display_size self in
  sx ← (if Qeq_bool (page_size self).1 0 then Some 1%Q
        else float_truediv (float_of_int disp_w) (page_size self).1);
  sy ← (if Qeq_bool (page_size self).2 0 then Some 1%Q
        else float_truediv (float_of_int disp_h) (page_size self).2);
  Some (sx, sy).

(** The loop [for fname, field in self.draggable_fields.items():
    self.field_coordinates[fname] = field.get_coordinates()] on a mapping. *)
Definition store_positions (fields : gmap string DraggableField) (d : Coords) : Coords :=
  map_fold (fun fname field d => <[fname := get_coordinates field]> d) d fields.

(** [update_coordinates_display]: the positions of the markers are written
    into the mapping object of the editor. *)
Definition update_coordinates_display (st : Editor * World) : Editor * World :=
  let '(self, w) := st in
  (self, set_store (alter (store_positions (draggable_fields self))
                      (field_coordinates self) (store w)) w).

Definition create_draggable_fields (st : Editor * World) : Editor * World :=
  let '(self, w) := st in
  let coords := default ∅ (store w !! field_coordinates self) in
  let fields := (fun '(x, y) =>
                   draggable_field.__init__ x y (page_size self).1 (page_size self).2)
                <$> coords in
  ({| page_size := page_size self; base_image := base_image self; zoom := zoom self;
      field_coordinates := field_coordinates self;
      draggable_fields := fields; saved := saved self |}, w).

Definition initialize_field_coordinates (st : Editor * World) : Editor * World :=
  let '(self, w) := st in
  let '(l, w) := alloc (mosabbir_default_coords (page_size self).1 (page_size self).2) w in
  let self := {| page_size := page_size self; base_image := base_image self;
                 zoom := zoom self; field_coordinates := l;
                 draggable_fields := draggable_fields self; saved := saved self |} in
  update_coordinates_display (create_draggable_fields (self, w)).

(** [TemplateFieldEditor(parent, template_path)]; [preview] is what
    [load_template_preview] obtains from the rasteriser. *)
Definition __init__ (template_path : str) (preview : option (Z * Z)) (w : World)
  : Editor * World :=
  let '(l, w) := alloc ∅ w in
  let self := {| page_size := _read_template_size template_path w;
                 base_image := preview; zoom := float_lit (5 # 10);
                 field_coordinates := l; draggable_fields := ∅; saved := false |} in
  initialize_field_coordinates (self, w).

Definition save_coordinates (st : Editor * World) : Editor * World :=
  let '(self, w) := update_coordinates_display st in
  ({| page_size := page_size self; base_image := base_image self; zoom := zoom self;
      field_coordinates := field_coordinates self;
      draggable_fields := draggable_fields self; saved := true |}, w).

Definition reset_coordinates (st : Editor * World) : Editor * World :=
  initialize_field_coordinates st.

Definition on_zoom_change (value : Q) (st : Editor * World) : Editor * World :=
  let '(self, w) := st in
  update_coordinates_display
    ({| page_size := page_size self; base_image := base_image self; zoom := value;
        field_coordinates := field_coordinates self;
        draggable_fields := draggable_fields self; saved := saved self |}, w).

Definition set_field (fname : string) (field : DraggableField) (self : Editor) : Editor :=
  {| page_size := page_size self; base_image := base_image self; zoom := zoom self;
     field_coordinates := field_coordinates self;
     draggable_fields := <[fname := field]> (draggable_fields self);
     saved := saved self |}.

(** What happens in the window of the editor. *)
Inductive Event :=
| Press (fname : string) (at_ : Z * Z)
| Drag (fname : string) (at_ : Z * Z)
| Release (fname : string)
| Zoom (value : Q)
| Reset
| Save
| Close.

(** The handler of an event other than [Save] and [Close].  A handler
    that raises leaves the state as it was. *)
Definition handle (e : Event) (st : Editor * World) : Editor * World :=
  let '(self, w) := st in
  match e with
  | Press fname at_ =>
      match draggable_fields self !! fname with
      | Some field => (set_field fname (on_press at_ field) self, w)
      | None => st
      end
  | Drag fname at_ =>
      match draggable_fields self !! fname with
      | Some field =>
          match scales ← get_scales self; on_drag scales at_ field with
          | Some field => update_coordinates_display (set_field fname field self, w)
          | None => st
          end
      | None => st
      end
  | Release fname => update_coordinates_display st
  | Zoom value => on_zoom_change value st
  | Reset => reset_coordinates st
  | Save | Close => st
  end.

(** The events of the window until it is destroyed: [Save] stores the
    positions and closes the window, [Close] only closes it. *)
Fixpoint run_session (events : list Event) (st : Editor * World) : Editor * World :=
  match events with
  | [] => st
  | Save :: _ => save_coordinates st
  | Close :: _ => st
  | e :: rest => run_session rest (handle e st)
  end.

(** [SimplePatientReportGenerator.edit_template], for the events of the
    editor's window. *)
Definition edit_template (preview : option (Z * Z)) (session : list Event)
    (st : App * World) : App * World :=
  let '(self, w) := st in
  match app.template_path self with
  | None => st
  | Some template_path =>
      let '(editor, w) := run_session session (__init__ template_path preview w) in
      if saved editor
      then (set_field_coordinates (field_coordinates editor) self, w)
      else (self, w)
  end.
End field_editor.

(** ** Summaries used to state the properties of the editor and of the overlay *)

Module editor_state.
Import binary64 pystr template_coords report_generator template_editor app.
Import draggable_field field_editor.
Local Open Scope Q_scope.

(** The markers of an editor for a page of the given size are the ten
    fields, none left of or above the page and none beyond its far
    edges after rounding, and the mapping object of the editor holds
    their positions. *)
Definition placed (size : Q * Q) (st : Editor * World) : Prop :=
  let '(self, w) := st in
  page_size self = size
  /\ dom (draggable_fields self) = dom get_field_display_names
  /\ store w !! field_editor.field_coordinates self
     = Some (get_coordinates <$> draggable_fields self)
  /\ forall k f, draggable_fields self !! k = Some f ->
       page_width f = size.1 /\ page_height f = size.2
       /\ 0 <= x f /\ 0 <= y f
       /\ (round_half_even (x f) <= round_half_even size.1)%Z
       /\ (round_half_even (y f) <= round_half_even size.2)%Z.

(** The editor has touched nothing that existed in [w0]: files, clock and
    the mapping objects of [w0] are as they were, and the mapping object
    of the editor is not one of them. *)
Definition apart (w0 : World) (st : Editor * World) : Prop :=
  let '(self, w) := st in
  fs w = fs w0 /\ writable w = writable w0 /\ clock w = clock w0
  /\ (forall l d, store w0 !! l = Some d -> store w !! l = Some d)
  /\ store w0 !! field_editor.field_coordinates self = None.
End editor_state.

Module layout.
Import binary64 pystr utils report_generator.
Local Open Scope Q_scope.

(** The calls [draw_text(key, txt)] of [_draw_text_fields], in the order
    of the source. *)
Definition text_fields (patient_data : Row) (bed_id : Z) : list (string * str) :=
  [ ("bed_id"%string, format_02d bed_id);
    ("name"%string, cell patient_data "name");
    ("age"%string, cell patient_data "age");
    ("gender"%string, cell patient_data "gender");
    ("attendees"%string, cell patient_data "attendees");
    ("date_of_diagnosis"%string, cell patient_data "date_of_diagnosis");
    ("cancer_type"%string, cell patient_data "cancer_type");
    ("cancer_stage"%string, cell patient_data "cancer_stage");
    ("cancer_grade"%string, cell patient_data "cancer_grade") ].

(** What one call paints in the font [f]: nothing for a key that the
    mapping does not have. *)
Definition text_op (coords : Coords) (size : Q * Q) (f : Font)
    (field : string * str) : option DrawOp :=
  (fun '(x, y) =>
     DrawString f (clamp_x x size.1) (to_pdf_y (float_of_int y) size.2) field.2)
  <$> coords !! field.1.

(** The anchor of a text lies on the page; so does the left edge of an
    image. *)
Definition anchored (size : Q * Q) (op : DrawOp) : Prop :=
  match op with
  | DrawString _ x y _ => 0 <= x <= size.1 /\ 0 <= y <= size.2
  | DrawImage _ x _ _ _ => 0 <= x <= size.1
  | DrawRightString _ _ _ _ => False
  end.
End layout.

(** ** A concrete platform and small worlds, for the examples *)

Module example.
Import binary64 pystr utils template_coords report_generator app.

Fixpoint posix_dirname (p : str) : str :=
  match p with
  | [] => []
  | c :: t => if existsb (N.eqb 47) t then c :: posix_dirname t else []
  end.

#[global] Instance posix : OS := {|
  path_join a b := a ++ 47%N :: b;
  normpath p := p;
  dirname := posix_dirname;
  strftime n := lit "2024-01-01 00:00:00";
  exn_text e := lit "error" |}.

Definition patient (name image_path : string) : Row :=
  list_to_map [("name"%string, lit name); ("age"%string, lit "41");
               ("image_path"%string, lit image_path)].

Definition letter_page : Page := {| mediabox := Some (612, 792)%Q; content := [] |}.

Definition no_box_page : Page := {| mediabox := None; content := [] |}.

Definition six_rows : list Row :=
  [patient "Ann Lee" "ann.png"; patient "Bo Chen" "bo.png";
   patient "Cy Diaz" "missing.png"; patient "Di Evans" "di.png";
   patient "Ed Fox" "ed.png"; patient "Flo Gray" "flo.png"].

(** A folder [data] with the table and five of the six pictures, and the
    template [t.pdf].  The mapping object of the window is at address 1. *)
Definition world_of (template : option File) (rows : list Row) : World := {|
  fs := list_to_map
          ([(lit "data/p.csv", CsvFile rows);
            (lit "data/ann.png", ImageFile 400 200);
            (lit "data/bo.png", ImageFile 200 400);
            (lit "data/di.png", ImageFile 300 300);
            (lit "data/ed.png", ImageFile 640 480);
            (lit "data/flo.png", ImageFile 480 640)]
           ++ match template with
              | Some f => [(lit "t.pdf", f)]
              | None => []
              end);
  writable p := Written;
  clock := 0;
  store := {[ 1%positive := mosabbir_default_coords 612 792 ]} |}.

Definition window : App := {|
  csv_path := Some (lit "data/p.csv");
  template_path := Some (lit "t.pdf");
  field_coordinates := 1 |}.

(** No event arrives while the batch runs. *)
Definition idle : nat -> list Action := fun _ => [].

(** The editor moves the [name] field while the second report is due. *)
Definition move_name : nat -> list Action :=
  fun n => if (n =? 2)%nat then [SetItem 1 "name" (50, 50)%Z] else [].

Definition two_rows : list Row :=
  [patient "Ann Lee" "ann.png"; patient "Bo Chen" "bo.png"].

(** The variables of the loop before the first row. *)
Definition start (w : World) : Loop :=
  {| ok := 0; outcomes := []; trace := []; gui := window; world := w |}.

(** What is painted on the single page of the report at [path]. *)
Definition report_content (w : World) (path : string) : list DrawOp :=
  match fs w !! lit path with
  | Some (PdfFile [page]) => content page
  | _ => []
  end.

(** While the second report is due, the window gets a new mapping object
    and the [name] field is moved in the new object. *)
Definition swap_mapping : nat -> list Action :=
  fun n => if (n =? 2)%nat
           then [NewMapping ∅; AdoptMapping 2; SetItem 2 "name" (50, 50)%Z]
           else [].
End example.

(** * Part II: properties *)

(** ** Rounding to binary64 *)

Section binary64_facts.
Import binary64.
Local Open Scope Q_scope.

Lemma round_half_even_compat (p q : Q) :
  p == q -> round_half_even p = round_half_even q.
Proof.
  intros E. unfold round_half_even.
  rewrite (Qfloor_comp _ _ E).
  assert (C : Qcompare (p - inject_Z (Qfloor q)) (1 # 2)
              = Qcompare (q - inject_Z (Qfloor q)) (1 # 2)).
  { apply Qcompare_comp; [rewrite E|]; reflexivity. }
  rewrite C. reflexivity.
Qed.

Lemma Qfrac_range (q : Q) : 0 <= q - inject_Z (Qfloor q) < 1.
Proof.
  pose proof (Qfloor_le q) as L. pose proof (Qlt_floor q) as U.
  rewrite inject_Z_plus in U. change (inject_Z 1) with 1 in U. split; lra.
Qed.

Lemma round_half_even_floor (q : Q) :
  round_half_even q = Qfloor q \/ round_half_even q = (Qfloor q + 1)%Z.
Proof.
  unfold round_half_even.
  destruct (Qcompare _ _); [destruct (Z.even _)|..]; auto.
Qed.

Lemma round_half_even_Z (z : Z) : round_half_even (inject_Z z) = z.
Proof.
  unfold round_half_even. rewrite Qfloor_Z.
  assert (C : Qcompare (inject_Z z - inject_Z z) (1 # 2) = Lt).
  { rewrite <- Qlt_alt. lra. }
  rewrite C. reflexivity.
Qed.

Lemma round_half_even_error (q : Q) :
  - (1 # 2) <= inject_Z (round_half_even q) - q <= 1 # 2.
Proof.
  pose proof (Qfrac_range q) as [L U]. unfold round_half_even.
  destruct (Qcompare (q - inject_Z (Qfloor q)) (1 # 2)) eqn:C.
  - rewrite <- Qeq_alt in C.
    destruct (Z.even _); [|rewrite inject_Z_plus; change (inject_Z 1) with 1];
      split; lra.
  - rewrite <- Qlt_alt in C. split; lra.
  - rewrite <- Qgt_alt in C. rewrite inject_Z_plus.
    change (inject_Z 1) with 1. split; lra.
Qed.

Lemma round_half_even_mono (p q : Q) :
  p <= q -> (round_half_even p <= round_half_even q)%Z.
Proof.
  intros Le. pose proof (Qfloor_resp_le _ _ Le) as Fl.
  destruct (Z.eq_dec (Qfloor p) (Qfloor q)) as [E|N].
  - unfold round_half_even. rewrite E.
    destruct (Qcompare (p - inject_Z (Qfloor q)) (1 # 2)) eqn:Cp;
      destruct (Qcompare (q - inject_Z (Qfloor q)) (1 # 2)) eqn:Cq;
      try rewrite <- Qeq_alt in *; try rewrite <- Qlt_alt in *;
      try rewrite <- Qgt_alt in *;
      try destruct (Z.even (Qfloor q)); try lia; exfalso; lra.
  - destruct (round_half_even_floor p) as [-> | ->];
      destruct (round_half_even_floor q) as [-> | ->]; lia.
Qed.

Lemma pow2_pos (e : Z) : 0 < 2 ^ e.
Proof. apply Qpower_0_lt. reflexivity. Qed.

Lemma pow2_add (a b : Z) : 2 ^ (a + b) == 2 ^ a * 2 ^ b.
Proof. apply Qpower_plus. discriminate. Qed.

Lemma pow2_succ (a : Z) : 2 ^ (a + 1) == 2 * 2 ^ a.
Proof. rewrite pow2_add. change (2 ^ 1) with 2. ring. Qed.

Lemma pow2_sub (a b : Z) : 2 ^ (a - b) == 2 ^ a / 2 ^ b.
Proof. apply Qpower_minus. discriminate. Qed.

Lemma pow2_le (a b : Z) : (a <= b)%Z -> 2 ^ a <= 2 ^ b.
Proof. intros H. apply Qpower_le_compat_l; [exact H | discriminate]. Qed.

Lemma pow2_lt_inv (a b : Z) : 2 ^ a < 2 ^ b -> (a < b)%Z.
Proof. intros H. apply (Qpower_lt_compat_l_inv 2); [exact H | reflexivity]. Qed.

Lemma pow2_inject (n : Z) : (0 <= n)%Z -> inject_Z (2 ^ n) == 2 ^ n.
Proof. intros H. rewrite Zpower_Qpower by exact H. reflexivity. Qed.

Lemma Zlog2_bracket (n : Z) :
  (0 < n)%Z -> 2 ^ Z.log2 n <= inject_Z n < 2 * 2 ^ Z.log2 n.
Proof.
  intros P. destruct (Z.log2_spec n P) as [L U].
  pose proof (Z.log2_nonneg n) as NN.
  rewrite <- pow2_succ, <- !pow2_inject by lia.
  rewrite <- Zle_Qle, <- Zlt_Qlt. replace (Z.log2 n + 1)%Z with (Z.succ (Z.log2 n)) by lia.
  split; assumption.
Qed.

Lemma ilog2_spec (x : Q) : 0 < x -> 2 ^ ilog2 x <= x < 2 ^ (ilog2 x + 1).
Proof.
  intros P. unfold ilog2.
  set (k := (Z.log2 (Qnum x) - Z.log2 (Z.pos (Qden x)))%Z).
  assert (Pn : (0 < Qnum x)%Z).
  { destruct x as [n d]. unfold Qlt in P. simpl in *. lia. }
  destruct (Zlog2_bracket _ Pn) as [Ln Un].
  destruct (Zlog2_bracket (Z.pos (Qden x)) eq_refl) as [Ld Ud].
  pose proof (pow2_pos (Z.log2 (Qnum x))) as PA.
  pose proof (pow2_pos (Z.log2 (Z.pos (Qden x)))) as PB.
  assert (Ex : x * inject_Z (Z.pos (Qden x)) == inject_Z (Qnum x)).
  { destruct x as [n d]. simpl. rewrite (Qmake_Qdiv n d). field.
    intros H. unfold Qeq in H. simpl in H. lia. }
  assert (Ek : 2 ^ k * 2 ^ Z.log2 (Z.pos (Qden x)) == 2 ^ Z.log2 (Qnum x)).
  { rewrite <- pow2_add. unfold k.
    replace (Z.log2 (Qnum x) - Z.log2 (Z.pos (Qden x)) + Z.log2 (Z.pos (Qden x)))%Z
      with (Z.log2 (Qnum x)) by lia. reflexivity. }
  pose proof (pow2_pos k) as PK.
  set (A := 2 ^ Z.log2 (Qnum x)) in *. set (B := 2 ^ Z.log2 (Z.pos (Qden x))) in *.
  set (N := inject_Z (Qnum x)) in *. set (D := inject_Z (Z.pos (Qden x))) in *.
  set (K := 2 ^ k) in *.
  destruct (Qle_bool K x) eqn:T.
  - apply Qle_bool_iff in T. split; [exact T|].
    rewrite pow2_succ. fold K. nra.
  - assert (T' : x < K).
    { apply Qnot_le_lt. intros C. apply Qle_bool_iff in C. congruence. }
    split.
    + assert (E2 : 2 * 2 ^ (k - 1) == K).
      { rewrite <- pow2_succ. replace (k - 1 + 1)%Z with k by lia. reflexivity. }
      pose proof (pow2_pos (k - 1)) as PK1. set (K1 := 2 ^ (k - 1)) in *. nra.
    + replace (k - 1 + 1)%Z with k by lia. exact T'.
Qed.

Lemma pow2_bracket_unique (a b : Z) (x : Q) :
  2 ^ a <= x < 2 ^ (a + 1) -> 2 ^ b <= x < 2 ^ (b + 1) -> a = b.
Proof.
  intros [La Ua] [Lb Ub].
  pose proof (pow2_lt_inv a (b + 1) (Qle_lt_trans _ _ _ La Ub)).
  pose proof (pow2_lt_inv b (a + 1) (Qle_lt_trans _ _ _ Lb Ua)).
  lia.
Qed.

Lemma ilog2_unique (a : Z) (x : Q) : 2 ^ a <= x < 2 ^ (a + 1) -> ilog2 x = a.
Proof.
  intros H. apply (pow2_bracket_unique _ _ x); [|exact H].
  apply ilog2_spec. destruct H as [L _].
  exact (Qlt_le_trans _ _ _ (pow2_pos a) L).
Qed.

Lemma ilog2_compat (x y : Q) : 0 < x -> x == y -> ilog2 x = ilog2 y.
Proof.
  intros P E. apply ilog2_unique. rewrite E. apply ilog2_spec. rewrite <- E. exact P.
Qed.

Lemma ilog2_mono (x y : Q) : 0 < x -> x <= y -> (ilog2 x <= ilog2 y)%Z.
Proof.
  intros P L. destruct (ilog2_spec x P) as [Lx _].
  destruct (ilog2_spec y (Qlt_le_trans _ _ _ P L)) as [_ Uy].
  pose proof (pow2_lt_inv (ilog2 x) (ilog2 y + 1)
                (Qle_lt_trans _ _ _ (Qle_trans _ _ _ Lx L) Uy)). lia.
Qed.

Lemma inject_Z_succ (z : Z) : inject_Z (z + 1) == inject_Z z + 1.
Proof. rewrite inject_Z_plus. reflexivity. Qed.

Lemma inject_Z_pred (z : Z) : inject_Z (z - 1) == inject_Z z - 1.
Proof. unfold Z.sub. rewrite inject_Z_plus, inject_Z_opp. reflexivity. Qed.

Lemma inject_Z_near (a b : Z) :
  inject_Z a - inject_Z b < 1 -> inject_Z b - inject_Z a < 1 -> a = b.
Proof.
  intros H1 H2.
  assert (A : inject_Z a < inject_Z (b + 1)) by (rewrite inject_Z_plus; change (inject_Z 1) with 1; lra).
  assert (B : inject_Z b < inject_Z (a + 1)) by (rewrite inject_Z_plus; change (inject_Z 1) with 1; lra).
  rewrite <- Zlt_Qlt in A, B. lia.
Qed.

Lemma Qfloor_unique (q : Q) (f : Z) :
  inject_Z f <= q < inject_Z f + 1 -> Qfloor q = f.
Proof.
  intros [L U]. pose proof (Qfrac_range q) as [L' U'].
  apply inject_Z_near; lra.
Qed.

Lemma round_half_even_nearest (q : Q) : nearest_even q (round_half_even q).
Proof.
  pose proof (Qfrac_range q) as [L U]. unfold nearest_even, round_half_even.
  destruct (Qcompare (q - inject_Z (Qfloor q)) (1 # 2)) eqn:C.
  - rewrite <- Qeq_alt in C. right.
    destruct (Z.even (Qfloor q)) eqn:Ev.
    + split; [right; lra | exact Ev].
    + split.
      * left. rewrite inject_Z_plus. change (inject_Z 1) with 1. lra.
      * rewrite Z.even_add, Ev. reflexivity.
  - rewrite <- Qlt_alt in C. left. split; lra.
  - rewrite <- Qgt_alt in C. left. rewrite inject_Z_plus.
    change (inject_Z 1) with 1. split; lra.
Qed.

Lemma round_half_even_unique (q : Q) (z : Z) :
  nearest_even q z -> round_half_even q = z.
Proof.
  intros [[L U] | [T Ev]].
  - pose proof (round_half_even_error q) as [L' U']. apply inject_Z_near; lra.
  - unfold round_half_even. destruct T as [T | T].
    + assert (F : Qfloor q = (z - 1)%Z).
      { apply Qfloor_unique. rewrite inject_Z_pred. split; lra. }
      rewrite F.
      assert (C : Qcompare (q - inject_Z (z - 1)) (1 # 2) = Eq).
      { rewrite <- Qeq_alt, inject_Z_pred. lra. }
      rewrite C. replace (Z.even (z - 1)) with false; [lia|].
      replace z with (Z.succ (z - 1)) in Ev by lia. rewrite Z.even_succ in Ev.
      rewrite <- Z.negb_even in Ev. destruct (Z.even (z - 1)); [discriminate | reflexivity].
    + assert (F : Qfloor q = z) by (apply Qfloor_unique; split; lra).
      rewrite F.
      assert (C : Qcompare (q - inject_Z z) (1 # 2) = Eq) by (rewrite <- Qeq_alt; lra).
      rewrite C, Ev. reflexivity.
Qed.

Lemma round_half_even_opp (q : Q) : round_half_even (- q) = (- round_half_even q)%Z.
Proof.
  apply round_half_even_unique.
  destruct (round_half_even_nearest q) as [[L U] | [T Ev]].
  - left. rewrite inject_Z_opp. split; lra.
  - right. rewrite inject_Z_opp, Z.even_opp. split; [|exact Ev].
    destruct T; [right | left]; lra.
Qed.

Lemma Qabs_pos_lt (x : Q) : ~ x == 0 -> 0 < Qabs x.
Proof.
  intros N. destruct (Qlt_le_dec 0 (Qabs x)) as [P | Z]; [exact P|].
  exfalso. apply N. pose proof (Qabs_nonneg x).
  apply Qabs_Qle_condition in Z. lra.
Qed.

Lemma fexp_compat (x y : Q) : ~ x == 0 -> x == y -> fexp x = fexp y.
Proof.
  intros N E. unfold fexp. f_equal. f_equal.
  apply ilog2_compat; [apply Qabs_pos_lt, N | rewrite E; reflexivity].
Qed.

Lemma rnd53_compat (x y : Q) : x == y -> rnd53 x = rnd53 y.
Proof.
  intros E. unfold rnd53.
  destruct (Qeq_bool x 0) eqn:Zx.
  - apply Qeq_bool_iff in Zx. rewrite E in Zx. apply Qeq_bool_iff in Zx.
    rewrite Zx. reflexivity.
  - apply Qeq_bool_neq in Zx.
    assert (Zy : Qeq_bool y 0 = false).
    { destruct (Qeq_bool y 0) eqn:T; [|reflexivity].
      apply Qeq_bool_iff in T. exfalso. apply Zx. rewrite E. exact T. }
    rewrite Zy, <- (fexp_compat x y Zx E).
    apply Qred_complete.
    rewrite (round_half_even_compat (x / 2 ^ fexp x) (y / 2 ^ fexp x)); [reflexivity|].
    generalize (fexp x). intros e. rewrite E. reflexivity.
Qed.

Lemma rnd53_0 : rnd53 0 = 0.
Proof. reflexivity. Qed.

Lemma rnd53_val (x : Q) :
  ~ x == 0 -> rnd53 x == inject_Z (round_half_even (x / 2 ^ fexp x)) * 2 ^ fexp x.
Proof.
  intros N. unfold rnd53.
  destruct (Qeq_bool x 0) eqn:T; [apply Qeq_bool_iff in T; contradiction|].
  apply Qred_correct.
Qed.

Lemma rnd53_opp (x : Q) : rnd53 (- x) == - rnd53 x.
Proof.
  destruct (Qeq_dec x 0) as [Z | N].
  - rewrite (rnd53_compat x 0 Z), (rnd53_compat (- x) 0) by (rewrite Z; reflexivity).
    reflexivity.
  - assert (N' : ~ - x == 0) by (intros C; apply N; lra).
    rewrite !rnd53_val by assumption.
    assert (F : fexp (- x) = fexp x).
    { unfold fexp. f_equal. f_equal.
      apply ilog2_compat; [apply Qabs_pos_lt, N' | apply Qabs_opp]. }
    rewrite F.
    rewrite (round_half_even_compat (- x / 2 ^ fexp x) (- (x / 2 ^ fexp x))).
    + rewrite round_half_even_opp, inject_Z_opp. ring.
    + pose proof (pow2_pos (fexp x)). field. lra.
Qed.

Lemma fexp_pos (x : Q) : 0 < x -> fexp x = Z.max (ilog2 x - 52) emin.
Proof.
  intros P. unfold fexp. f_equal. f_equal.
  apply ilog2_compat; [apply Qabs_pos_lt; lra | apply Qabs_pos; lra].
Qed.

Lemma scaled_upper (x : Q) : 0 < x -> x / 2 ^ fexp x < 2 ^ 53.
Proof.
  intros P. destruct (ilog2_spec x P) as [_ U].
  apply Qlt_shift_div_r; [apply pow2_pos|].
  rewrite <- pow2_add. eapply Qlt_le_trans; [exact U|].
  apply pow2_le. rewrite (fexp_pos x P). lia.
Qed.

Lemma scaled_lower (x : Q) : 0 < x -> (emin < fexp x)%Z -> 2 ^ 52 <= x / 2 ^ fexp x.
Proof.
  intros P N. destruct (ilog2_spec x P) as [L _].
  apply Qle_shift_div_l; [apply pow2_pos|].
  rewrite <- pow2_add. eapply Qle_trans; [|exact L].
  apply pow2_le. rewrite (fexp_pos x P) in *. lia.
Qed.

Lemma scaled_le (x y : Q) (e : Z) : x <= y -> x / 2 ^ e <= y / 2 ^ e.
Proof.
  intros L. pose proof (pow2_pos e) as P. unfold Qdiv.
  apply Qmult_le_compat_r; [exact L|].
  apply Qlt_le_weak, Qinv_lt_0_compat, P.
Qed.

Lemma rnd53_nonneg (x : Q) : 0 <= x -> 0 <= rnd53 x.
Proof.
  intros P. destruct (Qeq_dec x 0) as [Z | N].
  - rewrite (rnd53_compat x 0 Z). apply Qle_refl.
  - rewrite (rnd53_val x N). apply Qmult_le_0_compat.
    + change 0 with (inject_Z 0). rewrite <- Zle_Qle.
      rewrite <- (round_half_even_Z 0). apply round_half_even_mono.
      apply Qle_shift_div_l; [apply pow2_pos|].
      change (inject_Z 0) with 0. lra.
    + apply Qlt_le_weak, pow2_pos.
Qed.

Lemma rnd53_mono_pos (x y : Q) : 0 < x -> x <= y -> rnd53 x <= rnd53 y.
Proof.
  intros P L. assert (Py : 0 < y) by lra.
  rewrite (rnd53_val x), (rnd53_val y) by lra.
  assert (Le : (fexp x <= fexp y)%Z).
  { rewrite (fexp_pos x P), (fexp_pos y Py).
    pose proof (ilog2_mono x y P L). lia. }
  destruct (Z.eq_dec (fexp x) (fexp y)) as [E | N].
  - rewrite E. apply Qmult_le_compat_r; [|apply Qlt_le_weak, pow2_pos].
    rewrite <- Zle_Qle. apply round_half_even_mono, scaled_le, L.
  - assert (Ux : inject_Z (round_half_even (x / 2 ^ fexp x)) <= 2 ^ 53).
    { rewrite <- (pow2_inject 53) by lia. rewrite <- Zle_Qle.
      rewrite <- (round_half_even_Z (2 ^ 53)). apply round_half_even_mono.
      rewrite pow2_inject by lia. apply Qlt_le_weak, scaled_upper, P. }
    assert (Ly : 2 ^ 52 <= inject_Z (round_half_even (y / 2 ^ fexp y))).
    { rewrite <- (pow2_inject 52) by lia. rewrite <- Zle_Qle.
      rewrite <- (round_half_even_Z (2 ^ 52)) at 1. apply round_half_even_mono.
      rewrite pow2_inject by lia. apply scaled_lower; [exact Py|].
      pose proof (Z.le_max_r (ilog2 (Qabs x) - 52) emin). fold (fexp x) in *. lia. }
    pose proof (pow2_pos (fexp x)) as Px. pose proof (pow2_pos (fexp y)) as Pyy.
    apply Qle_trans with (2 ^ 53 * 2 ^ fexp x).
    { apply Qmult_le_compat_r; [exact Ux | lra]. }
    apply Qle_trans with (2 ^ 52 * 2 ^ fexp y).
    { rewrite <- !pow2_add. apply pow2_le. lia. }
    apply Qmult_le_compat_r; [exact Ly | lra].
Qed.

Lemma rnd53_mono (x y : Q) : x <= y -> rnd53 x <= rnd53 y.
Proof.
  intros L. destruct (Qlt_le_dec 0 x) as [P | NP].
  - apply rnd53_mono_pos; assumption.
  - assert (Nx : rnd53 x <= 0).
    { pose proof (rnd53_nonneg (- x)) as H. rewrite rnd53_opp in H. lra. }
    destruct (Qlt_le_dec y 0) as [Ny | Py].
    + pose proof (rnd53_mono_pos (- y) (- x)) as H.
      rewrite !rnd53_opp in H. lra.
    + pose proof (rnd53_nonneg y Py). lra.
Qed.

Lemma rnd53_exact_pos (m e : Z) :
  (emin <= e)%Z -> (0 < m < 2 ^ 53)%Z -> rnd53 (inject_Z m * 2 ^ e) == inject_Z m * 2 ^ e.
Proof.
  intros He [Pm Um]. set (x := inject_Z m * 2 ^ e).
  pose proof (pow2_pos e) as Pe.
  assert (Pm' : 0 < inject_Z m) by (change 0 with (inject_Z 0); rewrite <- Zlt_Qlt; exact Pm).
  assert (Px : 0 < x) by (unfold x; nra).
  assert (Fe : (fexp x <= e)%Z).
  { rewrite (fexp_pos x Px). destruct (ilog2_spec x Px) as [L _].
    assert (U : x < 2 ^ (53 + e)).
    { rewrite pow2_add. unfold x. apply Qmult_lt_compat_r; [exact Pe|].
      rewrite <- (pow2_inject 53) by lia. rewrite <- Zlt_Qlt. exact Um. }
    pose proof (pow2_lt_inv _ _ (Qle_lt_trans _ _ _ L U)). lia. }
  rewrite rnd53_val by lra.
  remember (fexp x) as f eqn:Hf. pose proof (pow2_pos f) as Pf.
  assert (Sc : x / 2 ^ f == inject_Z (m * 2 ^ (e - f))).
  { rewrite inject_Z_mult, pow2_inject by lia. rewrite pow2_sub. unfold x.
    field. lra. }
  rewrite (round_half_even_compat _ _ Sc), round_half_even_Z.
  rewrite inject_Z_mult, pow2_inject by lia. rewrite pow2_sub. unfold x.
  field. lra.
Qed.

Lemma rnd53_exact (x : Q) : representable x -> rnd53 x == x.
Proof.
  intros (m & e & He & Hm & Ex). rewrite (rnd53_compat _ _ Ex), Ex.
  destruct (Z.lt_trichotomy m 0) as [Neg | [Zero | Pos]].
  - assert (E : inject_Z m * 2 ^ e == - (inject_Z (- m) * 2 ^ e))
      by (rewrite inject_Z_opp; ring).
    rewrite (rnd53_compat _ _ E), rnd53_opp, E.
    rewrite rnd53_exact_pos; [reflexivity | exact He | lia].
  - subst m. change (inject_Z 0) with 0.
    rewrite (rnd53_compat (0 * 2 ^ e) 0) by ring. rewrite rnd53_0. ring.
  - apply rnd53_exact_pos; [exact He | lia].
Qed.

Lemma representable_Z (z : Z) : (Z.abs z < 2 ^ 53)%Z -> representable (inject_Z z).
Proof. intros H. exists z, 0%Z. split; [unfold emin; lia|]. split; [exact H|]. simpl. ring. Qed.

(** [rnd53] agrees with the Standard Library's IEEE-754 operations on the
    numbers used in the examples of this file: the literals [0.1] and
    [1.8], the subtractions of a flip of [0.1] on a page of height 792,
    the products [1.8 * 72.0] and [0.819672131 * 0.75], and the scaled
    side of a 640 by 480 image. *)
Lemma rnd53_agrees_with_ieee :
  let tenth := ieee_div (ieee_of_Z 1) (ieee_of_Z 10) in
  let side := ieee_mul (ieee_div (ieee_of_Z 18) (ieee_of_Z 10)) (ieee_of_Z 72) in
  ieee_value tenth = Some (float_lit (1 # 10))
  /\ ieee_value (ieee_sub (ieee_of_Z 792) (ieee_sub (ieee_of_Z 792) tenth))
     = Some (fsub 792 (fsub 792 (float_lit (1 # 10))))
  /\ ieee_value side = Some (fmul (float_lit (18 # 10)) (float_lit 72))
  /\ ieee_value (ieee_mul (ieee_div (ieee_of_Z 819672131) (ieee_of_Z 1000000000))
                   (ieee_div (ieee_of_Z 3) (ieee_of_Z 4)))
     = Some (fmul (float_lit (819672131 # 1000000000)) (3 # 4))
  /\ ieee_value (ieee_mul (ieee_div (ieee_of_Z 480) (ieee_of_Z 640)) side)
     = Some (fmul (rnd53 (480 / 640)) (fmul (float_lit (18 # 10)) (float_lit 72))).
Proof. repeat split; vm_compute; reflexivity. Qed.
End binary64_facts.

(** ** The coordinate model *)

Section coordinate_model.
Import binary64 pystr utils template_coords.
Local Open Scope Q_scope.

Lemma clamp_inside (v hi : Q) : 0 <= v <= hi -> pymax 0 (pymin hi v) == v.
Proof.
  intros [L U]. unfold pymax, pymin.
  destruct (Qle_bool hi v) eqn:T1.
  - apply Qle_bool_iff in T1.
    destruct (Qle_bool hi 0) eqn:T2; [apply Qle_bool_iff in T2|]; lra.
  - destruct (Qle_bool v 0) eqn:T2; [apply Qle_bool_iff in T2|]; lra.
Qed.

Lemma clamp_range (v hi : Q) : 0 <= hi -> 0 <= pymax 0 (pymin hi v) <= hi.
Proof.
  intros P. unfold pymax, pymin.
  destruct (Qle_bool hi v) eqn:T1.
  - destruct (Qle_bool hi 0) eqn:T2; [apply Qle_bool_iff in T2|]; lra.
  - assert (v < hi).
    { apply Qnot_le_lt. intros C. apply Qle_bool_iff in C. congruence. }
    destruct (Qle_bool v 0) eqn:T2; [lra|].
    assert (0 < v).
    { apply Qnot_le_lt. intros C. apply Qle_bool_iff in C. congruence. }
    lra.
Qed.

Lemma to_pdf_y_exact (y H : Q) :
  0 <= y <= H -> representable (H - y) -> to_pdf_y y H == H - y.
Proof.
  intros R E. unfold to_pdf_y, fsub.
  rewrite clamp_inside; rewrite (rnd53_exact _ E); [reflexivity | lra].
Qed.

Lemma to_pdf_y_compat (y y' H : Q) : y == y' -> to_pdf_y y H = to_pdf_y y' H.
Proof.
  intros E. unfold to_pdf_y, fsub.
  rewrite (rnd53_compat (H - y) (H - y')); [reflexivity | rewrite E; reflexivity].
Qed.

Lemma flip_twice_exact (y H : Q) :
  0 < H -> 0 <= y <= H -> representable y -> representable (H - y) ->
  to_pdf_y (to_pdf_y y H) H == y.
Proof.
  intros PH R Ry Rd.
  rewrite (to_pdf_y_compat _ (H - y) H (to_pdf_y_exact y H R Rd)).
  rewrite to_pdf_y_exact.
  - ring.
  - lra.
  - destruct Ry as (m & e & He & Hm & Ey). exists m, e.
    split; [exact He|]. split; [exact Hm|]. rewrite <- Ey. ring.
Qed.

(** Whole-number positions are subtracted from a page height without
    rounding. *)
Lemma representable_sub_int (H : Q) (y : Z) :
  representable H -> H < 2 ^ 53 -> 0 <= inject_Z y <= H ->
  representable (H - inject_Z y).
Proof.
  intros (m & e & He & Hm & EH) U [Ly Uy].
  rewrite <- (pow2_inject 53) in U by lia.
  assert (Py : (0 <= y)%Z) by (rewrite Zle_Qle; exact Ly).
  pose proof (pow2_pos e) as Pe.
  assert (Pm : (0 <= m)%Z).
  { destruct (Z.lt_ge_cases m 0) as [N|]; [exfalso | assumption].
    assert (inject_Z m < 0) by (change 0 with (inject_Z 0); rewrite <- Zlt_Qlt; exact N).
    nra. }
  destruct (Z.lt_ge_cases e 0) as [Neg | Pos].
  - exists (m - y * 2 ^ (- e))%Z, e. split; [exact He|].
    assert (Ey : inject_Z y == inject_Z (y * 2 ^ (- e)) * 2 ^ e).
    { rewrite inject_Z_mult, pow2_inject by lia. rewrite <- Qmult_assoc, <- pow2_add.
      replace (- e + e)%Z with 0%Z by lia. change (2 ^ 0) with 1. ring. }
    split.
    + assert (Q1 : inject_Z (y * 2 ^ (- e)) <= inject_Z m).
      { apply (Qmult_le_r _ _ (2 ^ e) Pe). rewrite <- Ey, <- EH. exact Uy. }
      rewrite <- Zle_Qle in Q1.
      assert (0 <= y * 2 ^ (- e))%Z by (apply Z.mul_nonneg_nonneg; lia). lia.
    + unfold Z.sub. rewrite inject_Z_plus, inject_Z_opp, EH, Ey at 1. ring.
  - assert (EH' : H == inject_Z (m * 2 ^ e)).
    { rewrite inject_Z_mult, pow2_inject by lia. exact EH. }
    assert (Rz : representable (inject_Z (m * 2 ^ e - y))).
    { apply representable_Z. rewrite EH' in U, Uy.
      rewrite <- Zlt_Qlt in U. rewrite <- Zle_Qle in Uy. lia. }
    destruct Rz as (m' & e' & He' & Hm' & E'). exists m', e'.
    split; [exact He'|]. split; [exact Hm'|].
    rewrite <- E', EH'. unfold Z.sub. rewrite inject_Z_plus, inject_Z_opp. ring.
Qed.

Lemma flip_twice_whole (H : Q) (y : Z) :
  representable H -> 0 < H < 2 ^ 53 -> 0 <= inject_Z y <= H ->
  to_pdf_y (to_pdf_y (float_of_int y) H) H == inject_Z y.
Proof.
  intros RH [PH UH] [Ly Uy].
  assert (Ry : representable (inject_Z y)).
  { apply representable_Z. rewrite <- (pow2_inject 53) in UH by lia.
    assert (inject_Z y < inject_Z (2 ^ 53)) by lra.
    assert (0 <= y)%Z by (rewrite Zle_Qle; exact Ly).
    rewrite <- Zlt_Qlt in *. lia. }
  unfold float_of_int.
  rewrite (to_pdf_y_compat _ _ H (rnd53_exact _ Ry)).
  apply flip_twice_exact; try assumption; [split; assumption|].
  apply representable_sub_int; try assumption. split; assumption.
Qed.

(** C6 (as amended).  For a page height [H > 0] and [y] in [[0, H]] such
    that [y] and [H - y] are binary64 values, flipping [y] twice with
    [to_pdf_y] returns [y]: the subtraction [H - y] is then exact.  This
    is the case of every whole-number position on a page whose height is
    a binary64 value below [2^53]. *)
Theorem to_pdf_y_round_trip (H : Q) :
  0 < H ->
  (forall y : Q, 0 <= y <= H -> representable y -> representable (H - y) ->
     to_pdf_y (to_pdf_y y H) H == y)
  /\ (representable H -> H < 2 ^ 53 ->
      forall n : Z, 0 <= inject_Z n <= H ->
        to_pdf_y (to_pdf_y (float_of_int n) H) H == inject_Z n).
Proof.
  intros PH. split.
  - intros y Ry Fy Fd. apply flip_twice_exact; assumption.
  - intros RH UH n Rn. apply flip_twice_whole; try assumption. split; assumption.
Qed.

(** The round trip on a US-Letter page, for [y = 100] and for the default
    position [165] of the image field. *)
Lemma to_pdf_y_round_trip_witness :
  0 < 792
  /\ to_pdf_y (to_pdf_y 100 792) 792 == 100
  /\ to_pdf_y (to_pdf_y (float_of_int 165) 792) 792 == inject_Z 165.
Proof.
  split; [reflexivity|].
  destruct (to_pdf_y_round_trip 792 eq_refl) as [Exact Whole]. split.
  - apply (Exact 100).
    + split; discriminate.
    + apply (representable_Z 100). reflexivity.
    + apply (representable_Z 692). reflexivity.
  - apply (Whole (representable_Z 792 eq_refl) eq_refl 165%Z). split; discriminate.
Defined.

(** C6 (counterexample).  With [H = 792.0] and [y = 0.1] the inner
    subtraction rounds to [791.9], and the second flip returns
    [0.10000000000002274], which is not the float [0.1]. *)
Lemma to_pdf_y_round_trip_inexact :
  0 < 792 /\ 0 <= float_lit (1 # 10) <= 792
  /\ to_pdf_y (to_pdf_y (float_lit (1 # 10)) 792) 792 = 879609302221 # 8796093022208
  /\ ~ to_pdf_y (to_pdf_y (float_lit (1 # 10)) 792) 792 == float_lit (1 # 10).
Proof.
  split; [reflexivity|]. split; [split; vm_compute; discriminate|].
  split; [vm_compute; reflexivity|].
  vm_compute. discriminate.
Qed.

Lemma ratio_to_point_bounds (r size : Q) :
  0 <= r <= 1 -> 0 < size -> representable size ->
  (0 <= ratio_to_point r size <= round_half_even size)%Z.
Proof.
  intros [L U] P R. unfold ratio_to_point, fmul. split.
  - rewrite <- (round_half_even_Z 0) at 1. apply round_half_even_mono.
    change (inject_Z 0) with 0. apply rnd53_nonneg. nra.
  - apply round_half_even_mono. rewrite <- (rnd53_exact size R) at 2.
    apply rnd53_mono. nra.
Qed.

Lemma ratios_in_unit_square :
  Forall (fun '(_, (rx, ry)) => 0 <= rx <= 1 /\ 0 <= ry <= 1) ratios.
Proof. repeat constructor; vm_compute; discriminate. Qed.

Lemma default_items_bounds (W H : Q) (k : string) (x y : Z) :
  0 < W -> 0 < H -> representable W -> representable H ->
  In (k, (x, y)) (default_items W H) ->
  (0 <= x <= round_half_even W)%Z /\ (0 <= y <= round_half_even H)%Z.
Proof.
  intros PW PH RW RH I. unfold default_items in I.
  apply in_map_iff in I. destruct I as ([k' [rx ry]] & E & I).
  injection E as <- <- <-.
  pose proof ratios_in_unit_square as F. rewrite Forall_forall in F.
  rewrite <- list_elem_of_In in I. specialize (F _ I). simpl in F. destruct F as [Fx Fy].
  split; apply ratio_to_point_bounds; assumption.
Qed.

(** C3 (as amended).  For ratios in [[0,1]] and a page of positive
    binary64 size [W] by [H], the point computed for a ratio pair satisfies
    [0 <= x <= round(W)] and [0 <= y <= round(H)]; so it lies on the page
    whenever [W] and [H] are whole numbers of points. *)
Theorem ratios_to_points_bounds (rx ry W H : Q) :
  0 <= rx <= 1 -> 0 <= ry <= 1 -> 0 < W -> 0 < H ->
  representable W -> representable H ->
  let x := ratio_to_point rx W in
  let y := ratio_to_point ry H in
  (0 <= x <= round_half_even W)%Z /\ (0 <= y <= round_half_even H)%Z
  /\ (forall n : Z, W == inject_Z n -> (x <= n)%Z)
  /\ (forall n : Z, H == inject_Z n -> (y <= n)%Z).
Proof.
  intros Rx Ry PW PH RW RH x y.
  pose proof (ratio_to_point_bounds rx W Rx PW RW) as Bx.
  pose proof (ratio_to_point_bounds ry H Ry PH RH) as By.
  split; [exact Bx|]. split; [exact By|].
  split; intros n E.
  - rewrite (round_half_even_compat _ _ E), round_half_even_Z in Bx. apply Bx.
  - rewrite (round_half_even_compat _ _ E), round_half_even_Z in By. apply By.
Qed.

(** The centre of a US-Letter page. *)
Lemma ratios_to_points_bounds_witness :
  (0 <= ratio_to_point (1 # 2) 612 <= round_half_even 612)%Z
  /\ (0 <= ratio_to_point (1 # 2) 792 <= round_half_even 792)%Z
  /\ (forall n : Z, 612 == inject_Z n -> (ratio_to_point (1 # 2) 612 <= n)%Z)
  /\ (forall n : Z, 792 == inject_Z n -> (ratio_to_point (1 # 2) 792 <= n)%Z).
Proof.
  apply (ratios_to_points_bounds (1 # 2) (1 # 2) 612 792).
  - split; discriminate.
  - split; discriminate.
  - reflexivity.
  - reflexivity.
  - apply (representable_Z 612). reflexivity.
  - apply (representable_Z 792). reflexivity.
Defined.

(** C3 (counterexample).  On a page of height [0.75] the ratio [1] gives
    [round(0.75) = 1 > 0.75]; with the ratio table of the source, a page
    of [0.875] by [0.75] points puts [cancer_grade] at [y = 1] and [image]
    at [x = 1], both off the page. *)
Lemma ratios_to_points_outside_page :
  (0 <= 1 <= 1 /\ 0 < 3 # 4)
  /\ ratio_to_point 1 (3 # 4) = 1%Z
  /\ ~ inject_Z (ratio_to_point 1 (3 # 4)) <= 3 # 4
  /\ mosabbir_default_coords (7 # 8) (3 # 4) !! "cancer_grade"%string = Some (0%Z, 1%Z)
  /\ mosabbir_default_coords (7 # 8) (3 # 4) !! "image"%string = Some (1%Z, 0%Z)
  /\ ~ inject_Z 1 <= 7 # 8.
Proof.
  split; [split; [split; discriminate | reflexivity]|].
  split; [vm_compute; reflexivity|].
  split; [vm_compute; intros C; apply C; reflexivity|].
  split; [vm_compute; reflexivity|].
  split; [vm_compute; reflexivity|].
  vm_compute. intros C; apply C; reflexivity.
Qed.
End coordinate_model.

(** ** Image scaling *)

Section image_scaling.
Import binary64 pystr utils report_generator.
Local Open Scope Q_scope.

Lemma max_side_value : max_side = float_lit (1296 # 10).
Proof. vm_compute. reflexivity. Qed.

Lemma max_side_is_float : rnd53 max_side = max_side.
Proof. vm_compute. reflexivity. Qed.

Lemma rnd53_1 : rnd53 1 = 1.
Proof. vm_compute. reflexivity. Qed.

(** A side scaled by a ratio of at most one is at most [max_side]. *)
Lemma scaled_side_le (a b : Z) :
  (0 < a <= b)%Z -> fmul (rnd53 (inject_Z a / inject_Z b)) max_side <= max_side.
Proof.
  intros [Pa Le]. unfold fmul.
  assert (Pb : 0 < inject_Z b).
  { change 0 with (inject_Z 0). rewrite <- Zlt_Qlt. lia. }
  assert (R1 : rnd53 (inject_Z a / inject_Z b) <= 1).
  { rewrite <- rnd53_1. apply rnd53_mono.
    apply Qle_shift_div_r; [exact Pb|]. rewrite Qmult_1_l, <- Zle_Qle. exact Le. }
  assert (PM : 0 < max_side) by (vm_compute; reflexivity).
  rewrite <- max_side_is_float at 2. apply rnd53_mono. nra.
Qed.

(** In the normal range, rounding moves a number by at most [2^-53] of
    its size. *)
Lemma rnd53_relative_error (x : Q) :
  2 ^ (-1022) <= x -> - (x * 2 ^ (-53)) <= rnd53 x - x <= x * 2 ^ (-53).
Proof.
  intros N. assert (P : 0 < x) by (pose proof (pow2_pos (-1022)); lra).
  destruct (ilog2_spec x P) as [L U].
  assert (E : fexp x = (ilog2 x - 52)%Z).
  { rewrite (fexp_pos x P). apply Z.max_l. unfold emin.
    pose proof (pow2_lt_inv _ _ (Qle_lt_trans _ _ _ N U)). lia. }
  rewrite rnd53_val by lra. rewrite E.
  set (e := (ilog2 x - 52)%Z) in *.
  pose proof (round_half_even_error (x / 2 ^ e)) as [Lo Hi].
  pose proof (pow2_pos e) as Pe.
  set (M := inject_Z (round_half_even (x / 2 ^ e))) in *.
  assert (S : x == x / 2 ^ e * 2 ^ e) by (field; lra).
  assert (Half : 2 ^ e * (1 # 2) <= x * 2 ^ (-53)).
  { apply Qle_trans with (2 ^ ilog2 x * 2 ^ (-53)).
    - rewrite <- pow2_add. replace (ilog2 x + -53)%Z with (e - 1)%Z by (unfold e; lia).
      rewrite pow2_sub. change (2 ^ 1) with 2. apply Qle_lteq. right. field.
    - apply Qmult_le_compat_r; [exact L | apply Qlt_le_weak, pow2_pos]. }
  set (t := x / 2 ^ e) in *. set (p := 2 ^ e) in *. set (b := x * 2 ^ (-53)) in *.
  split; nra.
Qed.

Lemma max_side_range : 128 <= max_side <= 130.
Proof. split; vm_compute; discriminate. Qed.

(** The scaled side keeps the ratio of the sides up to three roundings'
    worth of relative error. *)
Lemma scaled_side_error (a b : Z) :
  (0 < a <= b)%Z -> (b < 2 ^ 53)%Z ->
  let h := fmul (rnd53 (inject_Z a / inject_Z b)) max_side in
  - (3 * 2 ^ (-53) * (max_side * inject_Z a))
  <= h * inject_Z b - max_side * inject_Z a
  <= 3 * 2 ^ (-53) * (max_side * inject_Z a).
Proof.
  intros [Pa Le] Ub h. unfold h, fmul. clear h.
  pose proof max_side_range as [L1 L2].
  assert (PA : 1 <= inject_Z a).
  { change 1 with (inject_Z 1). rewrite <- Zle_Qle. lia. }
  assert (PB : inject_Z a <= inject_Z b) by (rewrite <- Zle_Qle; exact Le).
  assert (UB : inject_Z b <= 2 ^ 53).
  { rewrite <- (pow2_inject 53) by lia. rewrite <- Zle_Qle. lia. }
  set (A := inject_Z a) in *. set (B := inject_Z b) in *. set (L := max_side) in *.
  assert (U0 : 0 < 2 ^ (-53)) by apply pow2_pos.
  assert (U1 : 2 ^ (-53) <= 1 # 2) by (vm_compute; discriminate).
  assert (U2 : 2 ^ 53 * 2 ^ (-53) == 1) by (rewrite <- pow2_add; reflexivity).
  assert (Small : 2 ^ (-1022) <= 2 ^ (-53)) by (apply pow2_le; lia).
  assert (Small' : 2 ^ (-1022) <= 2 ^ (-53) * 64).
  { apply Qle_trans with (2 ^ (-53)); [exact Small | lra]. }
  set (u := 2 ^ (-53)) in *. set (T := 2 ^ 53) in *.
  assert (ER : A / B * B == A) by (field; lra).
  assert (PR : u <= A / B).
  { apply Qle_shift_div_l; [lra|]. nra. }
  set (r := A / B) in *.
  pose proof (rnd53_relative_error r ltac:(fold u; lra)) as [Q1 Q2]. fold u in Q1, Q2.
  set (q := rnd53 r) in *.
  assert (Pq : r * (1 # 2) <= q) by nra.
  assert (PP : 2 ^ (-1022) <= q * L) by nra.
  pose proof (rnd53_relative_error (q * L) PP) as [H1 H2]. fold u in H1, H2.
  set (h := rnd53 (q * L)) in *.
  assert (PB0 : 0 <= B) by lra.
  assert (D1 : - (q * L * u) * B <= (h - q * L) * B <= q * L * u * B).
  { split; apply Qmult_le_compat_r; lra. }
  assert (D2 : - (r * u * L) * B <= (q - r) * L * B <= r * u * L * B).
  { assert (- (r * u * L) <= (q - r) * L <= r * u * L) by (split; nra).
    split; apply Qmult_le_compat_r; lra. }
  assert (D3 : q * L * u * B <= 2 * (r * L * u * B)).
  { assert (q <= 2 * r) by nra. assert (0 <= L * u * B) by nra. nra. }
  assert (ERL : r * L * u * B == u * (L * A)) by (rewrite <- ER; ring).
  assert (G : h * B - L * A == (h - q * L) * B + (q - r) * L * B) by (rewrite <- ER; ring).
  rewrite G. split; lra.
Qed.

(** The box computed for an image of positive size [iw] by [ih]: its
    longer side is [129.6] points ([1.8 * 72.0]) and the other side is
    scaled by the ratio of the sides, [(129.6, (ih/iw)*129.6)] when
    [iw >= ih] and [((iw/ih)*129.6, 129.6)] otherwise.  The scaled side is
    at most [129.6], and the ratio of the sides of the box is the ratio of
    the sides of the image up to a relative error of [3 * 2^-53] (the
    roundings of the division and of the product). *)
Lemma image_box_sides (iw ih : Z) :
  (0 < iw)%Z -> (0 < ih)%Z ->
  let side := float_lit (1296 # 10) in
  ((ih <= iw)%Z ->
   exists h,
     image_box iw ih = inr (side, h)
     /\ h = fmul (rnd53 (inject_Z ih / inject_Z iw)) side
     /\ h <= side
     /\ ((iw < 2 ^ 53)%Z ->
         Qabs (h * inject_Z iw - side * inject_Z ih)
         <= 3 * 2 ^ (-53) * (side * inject_Z ih)))
  /\ ((iw < ih)%Z ->
      exists w,
        image_box iw ih = inr (w, side)
        /\ w = fmul (rnd53 (inject_Z iw / inject_Z ih)) side
        /\ w <= side
        /\ ((ih < 2 ^ 53)%Z ->
            Qabs (w * inject_Z ih - side * inject_Z iw)
            <= 3 * 2 ^ (-53) * (side * inject_Z iw)))
  /\ image_box 400 200 = inr (float_lit (1296 # 10), float_lit (648 # 10))
  /\ image_box 200 400 = inr (float_lit (648 # 10), float_lit (1296 # 10)).
Proof.
  intros Pw Ph side. unfold side. rewrite <- max_side_value.
  split; [|split; [|split; vm_compute; reflexivity]].
  - intros Le. eexists. split; [|split; [reflexivity|split]].
    + unfold image_box, int_truediv.
      destruct (Z.geb_spec iw ih) as [_ | Lt]; [|lia].
      destruct (Z.eqb_spec iw 0) as [-> | _]; [lia | reflexivity].
    + apply scaled_side_le. lia.
    + intros U. apply Qabs_Qle_condition. apply scaled_side_error; lia.
  - intros Lt. eexists. split; [|split; [reflexivity|split]].
    + unfold image_box, int_truediv.
      destruct (Z.geb_spec iw ih) as [Ge | _]; [lia|].
      destruct (Z.eqb_spec ih 0) as [-> | _]; [lia | reflexivity].
    + apply scaled_side_le. lia.
    + intros U. apply Qabs_Qle_condition. apply scaled_side_error; lia.
Qed.

End image_scaling.

(** ** File names *)

Section slugs.
Import pystr utils.

Lemma safe_char_not_space (c : N) : safe_char c = true -> isspace c = false.
Proof.
  intros S. apply not_true_iff_false. intros W. unfold safe_char, isspace in *.
  rewrite !orb_true_iff, !andb_true_iff, !N.leb_le, !N.eqb_eq in S.
  rewrite !orb_true_iff, !andb_true_iff, !N.leb_le, !N.eqb_eq in W. lia.
Qed.

Lemma safe_char_not_blank (c : N) : safe_char c = true -> (c =? 32)%N = false.
Proof.
  intros S. apply N.eqb_neq. intros ->. discriminate.
Qed.

Lemma lstrip_safe (s : str) : Forall (fun c => safe_char c = true) s -> lstrip s = s.
Proof.
  intros F. destruct F as [|c t Hc Ht]; [reflexivity|].
  simpl. rewrite (safe_char_not_space c Hc). reflexivity.
Qed.

Lemma rstrip_safe (s : str) : Forall (fun c => safe_char c = true) s -> rstrip s = s.
Proof.
  induction 1 as [|c t Hc Ht IH]; [reflexivity|].
  simpl. rewrite IH. destruct t; [|reflexivity].
  rewrite (safe_char_not_space c Hc). reflexivity.
Qed.

Lemma replace_char_safe (s : str) :
  Forall (fun c => safe_char c = true) s -> replace_char 32 95 s = s.
Proof.
  induction 1 as [|c t Hc Ht IH]; [reflexivity|].
  unfold replace_char in *. simpl. rewrite IH, (safe_char_not_blank c Hc). reflexivity.
Qed.

Lemma remove_unsafe_safe (s : str) : Forall (fun c => safe_char c = true) (remove_unsafe s).
Proof. unfold remove_unsafe. apply Forall_forall. intros c I. apply list_elem_of_filter in I. tauto. Qed.

Lemma remove_unsafe_fixed (s : str) :
  Forall (fun c => safe_char c = true) s -> remove_unsafe s = s.
Proof.
  induction 1 as [|c t Hc Ht IH]; [reflexivity|].
  unfold remove_unsafe in *. rewrite filter_cons_True by exact Hc. rewrite IH. reflexivity.
Qed.

(** A non-empty string over the safe alphabet is its own slug. *)
Lemma slugify_filename_fixed (s fallback : str) :
  s <> [] -> Forall (fun c => safe_char c = true) s -> slugify_filename s fallback = s.
Proof.
  intros NE F. unfold slugify_filename, strip.
  rewrite (lstrip_safe s F), (rstrip_safe s F), (replace_char_safe s F),
    (remove_unsafe_fixed s F).
  destruct s; [contradiction | reflexivity].
Qed.

Lemma slugify_filename_shape (s : str) :
  let r := slugify_filename s default_fallback in
  r <> [] /\ Forall (fun c => safe_char c = true) r.
Proof.
  assert (D : default_fallback <> [] /\ Forall (fun c => safe_char c = true) default_fallback).
  { split; [discriminate | repeat constructor]. }
  unfold slugify_filename. destruct (is_empty (strip s)); [exact D|].
  unfold or_else.
  destruct (remove_unsafe (replace_char 32 95 (strip s))) as [|c t] eqn:E; [exact D|].
  simpl. split; [discriminate|]. rewrite <- E. apply remove_unsafe_safe.
Qed.

(** C10.  Slugifying twice is the same as slugifying once: a slug is
    either the fallback [report] or a non-empty string over
    [[A-Za-z0-9_-]], and both are left unchanged. *)
Theorem slugify_filename_idempotent (s : str) :
  slugify_filename (slugify_filename s default_fallback) default_fallback
  = slugify_filename s default_fallback.
Proof.
  destruct (slugify_filename_shape s) as [NE F].
  apply slugify_filename_fixed; assumption.
Qed.

(** C8.  The vectors of the specification: [John Doe] becomes
    [John_Doe]; the empty string [[]] and [***] (which is not blank but loses
    every character) give the fallback [report]; [a/b\c] becomes [abc],
    with one backslash or with two. *)
Theorem slugify_filename_vectors :
  slugify_filename (lit "John Doe") default_fallback = lit "John_Doe"
  /\ slugify_filename [] default_fallback = lit "report"
  /\ slugify_filename (lit "***") default_fallback = lit "report"
  /\ (strip (lit "***") = lit "***" /\ remove_unsafe (lit "***") = [])
  /\ slugify_filename (lit "a/b\c") default_fallback = lit "abc"
  /\ slugify_filename (lit "a/b\\c") default_fallback = lit "abc".
Proof. repeat split; reflexivity. Qed.
End slugs.

(** ** Decimal numerals *)

Section numerals.
Import pystr.






End numerals.

(** ** The overlay compositor *)

Section compositor.
Import binary64 pystr utils report_generator.
Context {os : OS}.

Lemma create_patient_report_run self row csv_dir bed_id output_dir w :
  create_patient_report self row csv_dir bed_id output_dir w =
  match template_geometry (template_path self) w with
  | inr (page, size) =>
      let p := output_path_of row output_dir in
      let w1 := set_clock (S (clock w)) w in
      match writable w p with
      | Written =>
          (inr p, set_fs (<[p := PdfFile [merge_page page
                                   (overlay self w row csv_dir bed_id size)]]> (fs w)) w1)
      | Interrupted => (inl (WriteInterrupted p), set_fs (<[p := OtherFile]> (fs w)) w1)
      | Denied => (inl (WriteError p), w1)
      end
  | inl e => (inl e, w)
  end.
Proof.
  unfold create_patient_report, template_geometry, PdfReader, first_page, page_size,
    write_pdf, open_wb, writer_write, _add_timestamp, now, ask, modify, raise,
    mbind, M_bind, mret, M_ret.
  destruct (fs w !! template_path self) as [[[|page pages]| | |]|]; try reflexivity.
  destruct (mediabox page) as [[mw mh]|]; [|reflexivity].
  unfold output_path_of.
  set (p := path_join output_dir
              (slugify_filename (cell row "name") default_fallback ++ lit "_report.pdf")).
  unfold set_clock, set_fs. cbn [writable fs clock store].
  destruct (writable w p) eqn:Wr; cbn [writable fs clock store];
    rewrite ?Wr; try reflexivity.
  cbn [writable fs clock store]. rewrite insert_insert_eq. reflexivity.
Qed.

Lemma template_geometry_fs path w1 w2 :
  fs w1 = fs w2 -> template_geometry path w1 = template_geometry path w2.
Proof. unfold template_geometry. intros ->. reflexivity. Qed.

(** A page read from the template has the media box that gave its size. *)
Lemma template_geometry_box path w page size :
  template_geometry path w = inr (page, size) ->
  exists mw mh, mediabox page = Some (mw, mh) /\ size = (rnd53 mw, rnd53 mh).
Proof.
  unfold template_geometry.
  destruct (fs w !! path) as [[[|p ps]| | |]|]; try discriminate.
  destruct (mediabox p) as [[mw mh]|] eqn:E; [|discriminate].
  intros [= <- <-]. eauto.
Qed.

(** Writing a report keeps the template usable, with the same page size,
    even when the report replaces the template file. *)
Lemma template_geometry_written path w page size p ov w1 :
  template_geometry path w = inr (page, size) ->
  fs w1 = <[p := PdfFile [merge_page page ov]]> (fs w) ->
  exists page', template_geometry path w1 = inr (page', size).
Proof.
  intros G F. destruct (template_geometry_box _ _ _ _ G) as (mw & mh & B & ->).
  unfold template_geometry in *. rewrite F.
  destruct (decide (p = path)) as [-> | N].
  - rewrite lookup_insert_eq. simpl. rewrite B. eauto.
  - rewrite lookup_insert_ne by exact N. eauto.
Qed.

(** *** What the drawing steps add to the canvas *)

Lemma draw_text_drawn coords pw ph key txt canvas :
  font (draw_text coords pw ph key txt canvas) = font canvas
  /\ drawn (draw_text coords pw ph key txt canvas)
     = drawn canvas
       ++ match coords !! key with
          | Some (x, y) =>
              [DrawString (font canvas) (clamp_x x pw) (to_pdf_y (float_of_int y) ph) txt]
          | None => []
          end.
Proof.
  unfold draw_text. destruct (coords !! key) as [[x y]|]; simpl; [auto|].
  rewrite app_nil_r. auto.
Qed.

Lemma more_text_refl c : more_text c c.
Proof. exists []. rewrite app_nil_r. auto. Qed.

Lemma more_text_trans c1 c2 c3 : more_text c1 c2 -> more_text c2 c3 -> more_text c1 c3.
Proof.
  intros (r1 & E1 & F1) (r2 & E2 & F2). exists (r1 ++ r2).
  rewrite E2, E1, app_assoc. split; [reflexivity | apply Forall_app; auto].
Qed.

Lemma draw_text_more coords pw ph key txt canvas :
  more_text canvas (draw_text coords pw ph key txt canvas).
Proof.
  destruct (draw_text_drawn coords pw ph key txt canvas) as [_ D].
  eexists. split; [exact D|]. destruct (coords !! key) as [[x y]|]; repeat constructor.
Qed.


Lemma draw_text_fields_font self w canvas row bed_id pw ph :
  font (_draw_text_fields self w canvas row bed_id pw ph) = font canvas.
Proof.
  unfold _draw_text_fields.
  repeat match goal with |- context [draw_text ?c ?a ?b ?k ?t ?cv] =>
    rewrite (proj1 (draw_text_drawn c a b k t cv)) end.
  reflexivity.
Qed.

Lemma draw_text_fields_more self w canvas row bed_id pw ph :
  more_text canvas (_draw_text_fields self w canvas row bed_id pw ph).
Proof.
  unfold _draw_text_fields.
  repeat (eapply more_text_trans; [|apply draw_text_more]). apply more_text_refl.
Qed.

(** The image step for a row whose picture does not exist. *)
Lemma draw_patient_image_missing self w canvas row csv_dir pw ph x y :
  coords_of self w !! "image"%string = Some (x, y) ->
  strip (cell row "image_path") <> [] ->
  fs w !! normpath (path_join csv_dir (strip (cell row "image_path"))) = None ->
  _draw_patient_image self w canvas row csv_dir pw ph
  = _draw_image_placeholder canvas (clamp_x x pw) (to_pdf_y (float_of_int y) ph)
      (lit "Image not found").
Proof.
  intros I NB NF. unfold _draw_patient_image. rewrite I.
  destruct (strip (cell row "image_path")) as [|c t] eqn:E; [contradiction|].
  simpl is_empty. cbv iota. rewrite NF. reflexivity.
Qed.

Lemma overlay_missing_image self w row csv_dir bed_id size x y :
  coords_of self w !! "image"%string = Some (x, y) ->
  strip (cell row "image_path") <> [] ->
  fs w !! normpath (path_join csv_dir (strip (cell row "image_path"))) = None ->
  exists texts,
    drawn (overlay self w row csv_dir bed_id size)
    = texts
      ++ [DrawString (Helvetica 9) (clamp_x x size.1) (to_pdf_y (float_of_int y) size.2)
            (lit "Image not found");
          DrawRightString (Helvetica 8) (fsub size.1 20) 15
            (lit "Generated: " ++ strftime (clock w))]
    /\ Forall (fun op => is_image op = false) texts.
Proof.
  intros I NB NF. unfold overlay.
  rewrite (draw_patient_image_missing _ _ _ _ _ _ _ x y I NB NF).
  destruct (draw_text_fields_more self w (setFont (Helvetica 12) (new_canvas size))
              row bed_id size.1 size.2) as (texts & E & F).
  exists texts. simpl. rewrite E. simpl. rewrite <- app_assoc. auto.
Qed.
End compositor.

Section compositor2.
Import binary64 pystr utils report_generator template_editor.
Context {os : OS}.




Lemma read_template_size_geometry path w :
  _read_template_size path w
  = match template_geometry path w with
    | inr (_, size) => size
    | inl _ => (612, 792)%Q
    end.
Proof.
  unfold _read_template_size, template_geometry, PdfReader, first_page, page_size,
    ask, raise, mbind, M_bind, mret, M_ret.
  destruct (fs w !! path) as [[[|page pages]| | |]|]; try reflexivity.
  destruct (mediabox page) as [[mw mh]|]; reflexivity.
Qed.
End compositor2.

(** ** The batch driver *)

Section batch.
Import binary64 pystr utils template_coords report_generator app.
Context {os : OS}.
Variable pending : nat -> list Action.

(** Handlers touch neither the files nor the clock. *)
Lemma run_action_files st a :
  fs (run_action st a).2 = fs st.2
  /\ writable (run_action st a).2 = writable st.2
  /\ clock (run_action st a).2 = clock st.2
  /\ csv_path (run_action st a).1 = csv_path st.1.
Proof.
  destruct st as [self w]. destruct a as [path | d | l | l k v]; simpl; auto.
  unfold select_template.
  destruct ((r ← PdfReader path; p ← first_page r; page_size p) w) as [[e | [pw ph]] w'];
    simpl; auto.
Qed.

Lemma root_update_files events st :
  fs (root_update events st).2 = fs st.2
  /\ writable (root_update events st).2 = writable st.2
  /\ clock (root_update events st).2 = clock st.2
  /\ csv_path (root_update events st).1 = csv_path st.1.
Proof.
  unfold root_update. revert st. induction events as [|a events IH]; intros st; simpl; [auto|].
  destruct (IH (run_action st a)) as (-> & -> & -> & ->). apply run_action_files.
Qed.

(** The row with index label [i] when the template cannot be used. *)
Lemma report_step_failure generator csv_dir total i row s e :
  template_geometry (report_generator.template_path generator) (world s) = inl e ->
  let st := root_update (pending (S i)) (gui s, world s) in
  report_step pending generator csv_dir total i row s
  = {| ok := ok s; outcomes := outcomes s ++ [inl e];
       trace := trace s ++ [StatusGenerating (i + 1) total (who_of i row);
                            WarningRecord (shown_name row) e];
       gui := st.1; world := st.2 |}.
Proof.
  intros G st. unfold report_step. fold st. destruct st as [self w] eqn:E.
  rewrite create_patient_report_run.
  assert (F : fs w = fs (world s)).
  { pose proof (root_update_files (pending (S i)) (gui s, world s)) as (F & _).
    fold st in F. rewrite E in F. exact F. }
  rewrite (template_geometry_fs _ _ _ F), G. simpl.
  rewrite <- app_assoc. reflexivity.
Qed.

Lemma report_loop_failure generator csv_dir total e rows i s :
  template_geometry (report_generator.template_path generator) (world s) = inl e ->
  let s' := report_loop pending generator csv_dir total i rows s in
  ok s' = ok s
  /\ outcomes s' = outcomes s ++ map (fun _ => inl e) rows
  /\ trace s' = trace s ++ failure_trace total e i rows
  /\ fs (world s') = fs (world s).
Proof.
  revert i s. induction rows as [|row rows IH]; intros i s G; simpl.
  - rewrite !app_nil_r. auto.
  - rewrite (report_step_failure _ _ _ _ _ _ e G).
    set (st := root_update (pending (S i)) (gui s, world s)).
    pose proof (root_update_files (pending (S i)) (gui s, world s)) as (F & _).
    fold st in F.
    match goal with |- context [report_loop _ _ _ _ _ _ ?s1] => specialize (IH (S i) s1) end.
    simpl in IH. rewrite (template_geometry_fs _ _ _ F) in IH. specialize (IH G).
    destruct IH as (-> & -> & -> & ->). simpl.
    rewrite <- !app_assoc. auto.
Qed.

(** The row with index label [i] when the template can be used and the
    report can be written. *)
Lemma report_step_success generator csv_dir total i row s page size :
  let st := root_update (pending (S i)) (gui s, world s) in
  let p := output_path_of row (lit "reports") in
  template_geometry (report_generator.template_path generator) (world s) = inr (page, size) ->
  writable (world s) p = Written ->
  report_step pending generator csv_dir total i row s
  = {| ok := S (ok s); outcomes := outcomes s ++ [inr p];
       trace := trace s ++ [StatusGenerating (i + 1) total (who_of i row)];
       gui := st.1;
       world := set_fs (<[p := PdfFile [merge_page page
                                  (overlay generator st.2 row csv_dir (Z.of_nat i + 1) size)]]>
                          (fs st.2))
                  (set_clock (S (clock st.2)) st.2) |}.
Proof.
  intros st p G Wr. unfold report_step. fold st.
  pose proof (root_update_files (pending (S i)) (gui s, world s)) as (F & Wq & _).
  fold st in F, Wq. destruct st as [self w] eqn:E. simpl in *.
  rewrite create_patient_report_run.
  rewrite (template_geometry_fs _ _ _ F), G. simpl. fold p. rewrite Wq, Wr. reflexivity.
Qed.

Lemma report_loop_success generator csv_dir total rows i s page size :
  template_geometry (report_generator.template_path generator) (world s) = inr (page, size) ->
  (forall row, row ∈ rows -> writable (world s) (output_path_of row (lit "reports")) = Written) ->
  let s' := report_loop pending generator csv_dir total i rows s in
  ok s' = (ok s + length rows)%nat
  /\ outcomes s' = outcomes s ++ map (fun row => inr (output_path_of row (lit "reports"))) rows
  /\ trace s' = trace s ++ success_trace total i rows.
Proof.
  revert i s page. induction rows as [|row rows IH]; intros i s page G Wr; simpl.
  - rewrite !app_nil_r. auto.
  - rewrite (report_step_success _ _ _ _ _ _ page size G) by (apply Wr; left).
    set (st := root_update (pending (S i)) (gui s, world s)).
    pose proof (root_update_files (pending (S i)) (gui s, world s)) as (F & Wq & _).
    fold st in F, Wq.
    match goal with |- context [report_loop _ _ _ _ _ _ ?x] => set (s1 := x) end.
    assert (G1 : exists page', template_geometry (report_generator.template_path generator)
                                 (world s1) = inr (page', size)).
    { eapply (template_geometry_written _ st.2); [|reflexivity].
      rewrite (template_geometry_fs _ _ _ F). exact G. }
    destruct G1 as (page' & G1).
    destruct (IH (S i) s1 page' G1) as (-> & -> & ->).
    { intros r I. simpl. rewrite Wq. apply Wr. right. exact I. }
    simpl. rewrite <- !app_assoc. simpl. repeat split; try reflexivity. lia.
Qed.

(** [generate_reports] once the table has been read. *)
Lemma generate_reports_run self w csv tpl rows :
  csv_path self = Some csv -> app.template_path self = Some tpl ->
  fs w !! csv = Some (CsvFile rows) ->
  let st := state_at_construction pending self w in
  let total := length rows in
  let s := report_loop pending (generator_of pending self w) (dirname csv) total 0 rows
             {| ok := 0; outcomes := []; trace := [StatusReadingCsv];
                gui := st.1; world := st.2 |} in
  generate_reports pending self w
  = (Finished (ok s) total (outcomes s),
     {| ok := ok s; outcomes := outcomes s;
        trace := (trace s ++ [if (ok s =? total)%nat then InfoAll (ok s)
                              else WarningPartial (ok s) total])
                 ++ [StatusDone (ok s) total];
        gui := gui s; world := world s |}).
Proof.
  intros C T R st total s. unfold generate_reports. rewrite C, T.
  pose proof (root_update_files (pending 0) (self, w)) as (F & _ & _ & Cs).
  fold (state_at_construction pending self w) in *. fold st in F, Cs |- *.
  unfold generator_of in s. fold st in s. destruct st as [self' w'] eqn:E.
  simpl in *. unfold read_csv. rewrite Cs, C, F, R. simpl.
  fold total. fold s. destruct (ok s =? total)%nat; reflexivity.
Qed.
End batch.

Section claims.
Import binary64 pystr utils template_coords report_generator template_editor app.
Context {os : OS}.
Variable pending : nat -> list Action.

Lemma generate_reports_failure self w csv tpl rows e :
  csv_path self = Some csv -> app.template_path self = Some tpl ->
  fs w !! csv = Some (CsvFile rows) ->
  template_geometry (report_generator.template_path (generator_of pending self w)) w = inl e ->
  exists s,
    generate_reports pending self w
    = (Finished 0 (length rows) (map (fun _ => inl e) rows), s)
    /\ trace s = StatusReadingCsv :: failure_trace (length rows) e 0 rows
                 ++ [if (length rows =? 0)%nat then InfoAll 0
                     else WarningPartial 0 (length rows);
                     StatusDone 0 (length rows)]
    /\ fs (world s) = fs w.
Proof.
  intros C T R G. rewrite (generate_reports_run pending self w csv tpl rows C T R).
  pose proof (root_update_files (pending 0) (self, w)) as (F & _).
  fold (state_at_construction pending self w) in F.
  match goal with |- context [report_loop _ ?g ?d ?t ?i ?r ?s0] =>
    destruct (report_loop_failure pending g d t e r i s0) as (Ok & Out & Tr & Fs)
  end.
  { simpl. rewrite (template_geometry_fs _ _ _ F). exact G. }
  simpl in Ok, Out, Tr, Fs. rewrite Ok, Out, Tr.
  eexists. split; [reflexivity|]. simpl. split.
  - rewrite <- app_assoc. simpl. destruct (length rows); reflexivity.
  - rewrite Fs. exact F.
Qed.

(** C1 (as amended).  When the shared template cannot be opened, the
    batch driver raises no error of its own: every record is attempted in
    input order, each attempt fails when the template is opened and is
    shown as a warning for that record, the run ends with 0 successes out
    of all the records, and no file is written. *)
Theorem unopenable_template_fails_each_record self w csv tpl rows :
  csv_path self = Some csv -> app.template_path self = Some tpl ->
  fs w !! csv = Some (CsvFile rows) ->
  let path := report_generator.template_path (generator_of pending self w) in
  (forall pages, fs w !! path <> Some (PdfFile pages)) ->
  exists s,
    generate_reports pending self w
    = (Finished 0 (length rows) (map (fun _ => inl (PdfReadError path)) rows), s)
    /\ trace s = StatusReadingCsv :: failure_trace (length rows) (PdfReadError path) 0 rows
                 ++ [if (length rows =? 0)%nat then InfoAll 0
                     else WarningPartial 0 (length rows);
                     StatusDone 0 (length rows)]
    /\ fs (world s) = fs w.
Proof.
  intros C T R path N. apply (generate_reports_failure self w csv tpl rows _ C T R).
  fold path. unfold template_geometry.
  destruct (fs w !! path) as [[pages| | |]|] eqn:E; try reflexivity.
  destruct (N pages). reflexivity.
Qed.

(** C4 (as amended).  The US-Letter size (612 by 792 points) is what the
    editor's [_read_template_size] returns when the media box of the
    template cannot be read, and also when the document cannot be opened.
    The compositor has no such fallback: when the media box cannot be
    read, [create_patient_report] raises, nothing is drawn or written, and
    the batch counts every record as failed. *)
Theorem unreadable_geometry_fails_the_record self w csv tpl rows page pages :
  csv_path self = Some csv -> app.template_path self = Some tpl ->
  fs w !! csv = Some (CsvFile rows) ->
  let generator := generator_of pending self w in
  let path := report_generator.template_path generator in
  fs w !! path = Some (PdfFile (page :: pages)) -> mediabox page = None ->
  _read_template_size path w = (612, 792)%Q
  /\ (forall other, (forall ps, fs w !! other <> Some (PdfFile ps)) ->
        _read_template_size other w = (612, 792)%Q)
  /\ (forall row csv_dir bed_id output_dir,
        create_patient_report generator row csv_dir bed_id output_dir w
        = (inl MediaBoxError, w))
  /\ exists s,
       generate_reports pending self w
       = (Finished 0 (length rows) (map (fun _ => inl MediaBoxError) rows), s)
       /\ fs (world s) = fs w.
Proof.
  intros C T R generator path P B.
  assert (G : template_geometry path w = inl MediaBoxError).
  { unfold template_geometry. rewrite P, B. reflexivity. }
  split; [rewrite read_template_size_geometry, G; reflexivity|].
  split.
  { intros other N. rewrite read_template_size_geometry. unfold template_geometry.
    destruct (fs w !! other) as [[[|p ps]| | |]|] eqn:E; try reflexivity.
    destruct (N (p :: ps)). reflexivity. }
  split.
  { intros row csv_dir bed_id output_dir. rewrite create_patient_report_run.
    fold path. rewrite G. reflexivity. }
  destruct (generate_reports_failure self w csv tpl rows _ C T R G) as (s & E & _ & F).
  eauto.
Qed.

End claims.

(** ** The shared mapping of field positions *)

Section sharing.
Import binary64 pystr utils template_coords report_generator app.
Context {os : OS}.

Lemma same_view_refl l w : same_view l w w.
Proof. repeat split. Qed.

Lemma same_view_sym l w1 w2 : same_view l w1 w2 -> same_view l w2 w1.
Proof. intros (? & ? & ? & ?). repeat split; congruence. Qed.

Lemma same_view_trans l w1 w2 w3 :
  same_view l w1 w2 -> same_view l w2 w3 -> same_view l w1 w3.
Proof. intros (? & ? & ? & ?) (? & ? & ? & ?). repeat split; congruence. Qed.

Lemma coords_of_view self w1 w2 :
  same_view (report_generator.field_coordinates self) w1 w2 ->
  coords_of self w1 = coords_of self w2.
Proof. intros (_ & _ & _ & S). unfold coords_of. rewrite S. reflexivity. Qed.

(** The canvas of a report depends on the world only through what the
    generator can observe. *)
Lemma overlay_view self w1 w2 row csv_dir bed_id size :
  same_view (report_generator.field_coordinates self) w1 w2 ->
  overlay self w1 row csv_dir bed_id size = overlay self w2 row csv_dir bed_id size.
Proof.
  intros V. pose proof (coords_of_view self w1 w2 V) as C.
  destruct V as (F & _ & K & _).
  unfold overlay, _draw_text_fields, _draw_patient_image, try_draw_image.
  rewrite C, F, K. reflexivity.
Qed.

Lemma create_patient_report_view self row csv_dir bed_id output_dir w1 w2 :
  let l := report_generator.field_coordinates self in
  same_view l w1 w2 ->
  (create_patient_report self row csv_dir bed_id output_dir w1).1
  = (create_patient_report self row csv_dir bed_id output_dir w2).1
  /\ same_view l (create_patient_report self row csv_dir bed_id output_dir w1).2
       (create_patient_report self row csv_dir bed_id output_dir w2).2
  /\ store (create_patient_report self row csv_dir bed_id output_dir w1).2 = store w1.
Proof.
  intros l V. rewrite !create_patient_report_run.
  pose proof (overlay_view self w1 w2 row csv_dir bed_id) as O.
  destruct V as (F & Wq & K & S).
  rewrite (template_geometry_fs _ w1 w2 F), Wq, K, F.
  destruct (template_geometry (report_generator.template_path self) w2) as [e | [page size]];
    [repeat split; assumption|].
  rewrite (O size) by (repeat split; assumption).
  simpl. destruct (writable w2 _); simpl; repeat split; assumption.
Qed.

(** An action that is not an item assignment on the object at [l] leaves
    the view of a generator holding [l] as it is. *)
Lemma run_action_view l st a :
  is_Some (store st.2 !! l) -> spares l a ->
  same_view l (run_action st a).2 st.2 /\ is_Some (store (run_action st a).2 !! l).
Proof.
  intros A Sp. destruct (run_action_files st a) as (F & Wq & K & _).
  assert (Fresh : forall d, store (alloc d st.2).2 !! l = store st.2 !! l).
  { intros d. unfold alloc. simpl. apply lookup_insert_ne. intros E.
    pose proof (is_fresh (dom (store st.2))) as N. rewrite E in N.
    apply N, elem_of_dom, A. }
  assert (S : store (run_action st a).2 !! l = store st.2 !! l).
  { destruct st as [self w]. destruct a as [path | d | l' | l' k v]; simpl in *.
    - unfold select_template.
      destruct ((r ← PdfReader path; p ← first_page r; page_size p) w)
        as [[e | [pw ph]] w']; [reflexivity|].
      apply (Fresh (mosabbir_default_coords pw ph)).
    - apply Fresh.
    - reflexivity.
    - apply lookup_alter_ne. exact Sp. }
  split; [repeat split; assumption | rewrite S; exact A].
Qed.

Lemma root_update_view l events st :
  is_Some (store st.2 !! l) -> Forall (spares l) events ->
  same_view l (root_update events st).2 st.2
  /\ is_Some (store (root_update events st).2 !! l).
Proof.
  unfold root_update. intros A F. revert st A.
  induction F as [|a events Sp F IH]; intros st A; simpl.
  - split; [apply same_view_refl | exact A].
  - destruct (run_action_view l st a A Sp) as (V & A').
    destruct (IH (run_action st a) A') as (V' & A'').
    split; [eapply same_view_trans; eassumption | exact A''].
Qed.

(** An item assignment on the object itself is what the generator reads
    from then on. *)
Lemma set_item_seen self st k v :
  is_Some (store st.2 !! report_generator.field_coordinates self) ->
  coords_of self (run_action st (SetItem (report_generator.field_coordinates self) k v)).2 !! k
  = Some v.
Proof.
  intros [d D]. unfold coords_of. simpl. rewrite lookup_alter_eq, D. simpl.
  apply lookup_insert_eq.
Qed.

Lemma report_step_view pending1 pending2 generator csv_dir total i row s1 s2 :
  let l := report_generator.field_coordinates generator in
  same_pass l s1 s2 ->
  Forall (spares l) (pending1 (S i)) -> Forall (spares l) (pending2 (S i)) ->
  same_pass l (report_step pending1 generator csv_dir total i row s1)
    (report_step pending2 generator csv_dir total i row s2).
Proof.
  intros l (Ok & Out & Tr & V & A1 & A2) Q1 Q2. unfold report_step.
  destruct (root_update_view l (pending1 (S i)) (gui s1, world s1) A1 Q1) as (V1 & B1).
  destruct (root_update_view l (pending2 (S i)) (gui s2, world s2) A2 Q2) as (V2 & B2).
  destruct (root_update (pending1 (S i)) (gui s1, world s1)) as [g1 w1].
  destruct (root_update (pending2 (S i)) (gui s2, world s2)) as [g2 w2].
  simpl in *.
  assert (W : same_view l w1 w2).
  { eapply same_view_trans; [exact V1|]. eapply same_view_trans; [exact V|].
    apply same_view_sym, V2. }
  destruct (create_patient_report_view generator row csv_dir (Z.of_nat i + 1)
              (lit "reports") w1 w2 W) as (R & V' & S1).
  destruct (create_patient_report_view generator row csv_dir (Z.of_nat i + 1)
              (lit "reports") w2 w2 (same_view_refl l w2)) as (_ & _ & S2).
  destruct (create_patient_report generator row csv_dir (Z.of_nat i + 1) (lit "reports") w1)
    as [r1 w1'].
  destruct (create_patient_report generator row csv_dir (Z.of_nat i + 1) (lit "reports") w2)
    as [r2 w2'].
  simpl in *. subst r2.
  destruct r1 as [e | path]; unfold same_pass; simpl;
    rewrite Ok, Out, Tr, S1, S2;
    (split; [reflexivity|]; split; [reflexivity|]; split; [reflexivity|];
     split; [exact V'|]; split; assumption).
Qed.
End sharing.

Section sharing2.
Import binary64 pystr utils template_coords report_generator app.
Context {os : OS}.

(** C2 (as amended).  The generator keeps a reference to the mapping
    object it was constructed with; no copy is taken.  Events handled
    during the pass that are not item assignments on that object
    (replacing the window's mapping by another object, creating mapping
    objects, editing other objects) do not change what the pass produces:
    from states the generator cannot tell apart, two runs of the loop under
    two such schedules end with the same successes, outcomes, messages and
    files.  An item assignment on the object itself is what the generator
    reads from then on. *)
Theorem pass_reads_mapping_by_reference pending1 pending2 generator csv_dir total rows i s1 s2 :
  let l := report_generator.field_coordinates generator in
  same_pass l s1 s2 ->
  (forall n, Forall (spares l) (pending1 n)) ->
  (forall n, Forall (spares l) (pending2 n)) ->
  same_pass l (report_loop pending1 generator csv_dir total i rows s1)
    (report_loop pending2 generator csv_dir total i rows s2)
  /\ (forall st k v,
        is_Some (store st.2 !! l) ->
        coords_of generator (run_action st (SetItem l k v)).2 !! k = Some v).
Proof.
  intros l P Q1 Q2. split; [|intros st k v A; apply set_item_seen, A].
  revert i s1 s2 P. induction rows as [|row rows IH]; intros i s1 s2 P; simpl.
  - exact P.
  - apply IH. apply report_step_view; [exact P | apply Q1 | apply Q2].
Qed.
End sharing2.

(** ** The numeral of the bed id *)

Section numerals2.
Import pystr.





End numerals2.

(** ** The reports that a batch leaves *)

Section written_reports.
Import binary64 pystr utils template_coords report_generator template_editor app.
Context {os : OS}.
Variable pending : nat -> list Action.

(** A report that replaces the template file keeps its media box; any
    other report leaves the template page as it is. *)
Lemma template_geometry_kept path w page size p ov w1 :
  template_geometry path w = inr (page, size) ->
  fs w1 = <[p := PdfFile [merge_page page ov]]> (fs w) ->
  exists page',
    template_geometry path w1 = inr (page', size)
    /\ mediabox page' = mediabox page
    /\ (p <> path -> page' = page).
Proof.
  intros G F. destruct (template_geometry_box _ _ _ _ G) as (mw & mh & B & ->).
  unfold template_geometry in *. rewrite F.
  destruct (decide (p = path)) as [-> | N].
  - rewrite lookup_insert_eq. simpl. rewrite B.
    eexists. split; [reflexivity|]. split; [simpl; exact B|]. intros C. destruct C. reflexivity.
  - rewrite lookup_insert_ne by exact N. exists page. auto.
Qed.

(** The files after a pass in which the template can be used and every
    report can be written, under a schedule that leaves the mapping of the
    generator alone: a path that is not an output path is untouched, and
    the output path of a row that no later row shares holds the report of
    that row, made in the world [wk] in which the row was processed. *)
Lemma report_loop_files generator csv_dir total size rows :
  let l := report_generator.field_coordinates generator in
  let tp := report_generator.template_path generator in
  let out r := output_path_of r (lit "reports") in
  forall i s page,
  template_geometry tp (world s) = inr (page, size) ->
  (forall r, r ∈ rows -> writable (world s) (out r) = Written) ->
  (forall n, Forall (spares l) (pending n)) ->
  is_Some (store (world s) !! l) ->
  let s' := report_loop pending generator csv_dir total i rows s in
  (forall p, (forall r, r ∈ rows -> out r <> p) -> fs (world s') !! p = fs (world s) !! p)
  /\ (forall k row,
        rows !! k = Some row ->
        (forall j r, (k < j)%nat -> rows !! j = Some r -> out r <> out row) ->
        exists base wk,
          fs (world s') !! out row
          = Some (PdfFile [merge_page base
                             (overlay generator wk row csv_dir (Z.of_nat (i + k) + 1) size)])
          /\ mediabox base = mediabox page
          /\ ((forall j r, (j < k)%nat -> rows !! j = Some r -> out r <> tp) -> base = page)
          /\ store wk !! l = store (world s) !! l
          /\ clock wk = (clock (world s) + k)%nat
          /\ (forall q, (forall j r, (j < k)%nat -> rows !! j = Some r -> out r <> q) ->
                        fs wk !! q = fs (world s) !! q)).
Proof.
  intros l tp out. induction rows as [|row0 rows IH]; intros i s page G Wr Sp St; simpl.
  - split; [reflexivity|]. intros k row E. discriminate E.
  - set (st := root_update (pending (S i)) (gui s, world s)).
    pose proof (root_update_files (pending (S i)) (gui s, world s)) as (F & Wq & K & _).
    destruct (root_update_view l (pending (S i)) (gui s, world s) St (Sp (S i)))
      as ((_ & _ & _ & Sv) & _).
    fold st in F, Wq, K, Sv. simpl in F, Wq, K, Sv.
    pose proof (report_step_success pending generator csv_dir total i row0 s page size G
                  (Wr row0 ltac:(left))) as E1.
    fold st in E1. cbv zeta in E1.
    set (s1 := report_step pending generator csv_dir total i row0 s) in *.
    assert (F1 : fs (world s1)
                 = <[out row0 := PdfFile [merge_page page
                       (overlay generator st.2 row0 csv_dir (Z.of_nat i + 1) size)]]>
                     (fs (world s))).
    { rewrite E1. simpl. rewrite F. reflexivity. }
    assert (K1 : clock (world s1) = S (clock (world s))) by (rewrite E1; simpl; congruence).
    assert (W1 : writable (world s1) = writable (world s)) by (rewrite E1; exact Wq).
    assert (S1 : store (world s1) !! l = store (world s) !! l) by (rewrite E1; exact Sv).
    destruct (template_geometry_kept tp (world s) page size _ _ (world s1) G F1)
      as (page1 & G1 & M1 & P1).
    destruct (IH (S i) s1 page1 G1) as [Ia Ib].
    { intros r I. rewrite W1. apply Wr. right. exact I. }
    { exact Sp. }
    { rewrite S1. exact St. }
    split.
    + intros p N. rewrite Ia by (intros r I; apply N; right; exact I).
      rewrite F1. apply lookup_insert_ne. apply N. left.
    + intros [|k] row E L.
      * simpl in E. inversion E; subst row0; clear E.
        exists page, st.2. rewrite Ia.
        2:{ intros r I. apply list_elem_of_lookup in I. destruct I as [j I].
            apply (L (S j)); [lia | exact I]. }
        rewrite F1, lookup_insert_eq, Nat.add_0_r.
        split; [reflexivity|]. split; [reflexivity|]. split; [reflexivity|].
        split; [exact Sv|]. split; [lia|]. intros q _. rewrite F. reflexivity.
      * simpl in E. destruct (Ib k row E) as (base & wk & Ef & Mb & Pb & Sk & Kk & Fk).
        { intros j r Lj Ej. apply (L (S j)); [lia | exact Ej]. }
        exists base, wk. rewrite Ef.
        replace (Z.of_nat (S i + k)) with (Z.of_nat (i + S k)) by lia.
        split; [reflexivity|]. split; [congruence|]. split.
        { intros N. rewrite Pb.
          - apply P1. apply (N 0%nat row0); [lia | reflexivity].
          - intros j r Lj Ej. apply (N (S j) r); [lia | exact Ej]. }
        split; [congruence|]. split; [lia|].
        intros q N. rewrite Fk.
        { rewrite F1. apply lookup_insert_ne. apply (N 0%nat row0); [lia | reflexivity]. }
        intros j r Lj Ej. apply (N (S j) r); [lia | exact Ej].
Qed.

(** A batch in which every record can be written. *)
Lemma generate_reports_files self w csv tpl rows page size :
  csv_path self = Some csv -> app.template_path self = Some tpl ->
  fs w !! csv = Some (CsvFile rows) ->
  let generator := generator_of pending self w in
  let l := report_generator.field_coordinates generator in
  let tp := report_generator.template_path generator in
  let out r := output_path_of r (lit "reports") in
  template_geometry tp w = inr (page, size) ->
  (forall r, r ∈ rows -> writable w (out r) = Written) ->
  exists s,
    generate_reports pending self w
    = (Finished (length rows) (length rows) (map (fun r => inr (out r)) rows), s)
    /\ trace s = StatusReadingCsv :: success_trace (length rows) 0 rows
                 ++ [InfoAll (length rows); StatusDone (length rows) (length rows)]
    /\ ((forall n, Forall (spares l) (pending n)) ->
        is_Some (store (state_at_construction pending self w).2 !! l) ->
        forall k row,
          rows !! k = Some row ->
          (forall j r, (k < j)%nat -> rows !! j = Some r -> out r <> out row) ->
          exists base wk,
            fs (world s) !! out row
            = Some (PdfFile [merge_page base
                               (overlay generator wk row (dirname csv) (Z.of_nat k + 1) size)])
            /\ mediabox base = mediabox page
            /\ ((forall j r, (j < k)%nat -> rows !! j = Some r -> out r <> tp) -> base = page)
            /\ store wk !! l = store (state_at_construction pending self w).2 !! l
            /\ clock wk = (clock w + k)%nat
            /\ (forall q, (forall j r, (j < k)%nat -> rows !! j = Some r -> out r <> q) ->
                          fs wk !! q = fs w !! q)).
Proof.
  intros C T R generator l tp out G Wr.
  rewrite (generate_reports_run pending self w csv tpl rows C T R).
  pose proof (root_update_files (pending 0) (self, w)) as (F & Wq & K & _).
  fold (state_at_construction pending self w) in F, Wq, K.
  fold generator.
  set (s0 := {| ok := 0; outcomes := []; trace := [StatusReadingCsv];
                gui := (state_at_construction pending self w).1;
                world := (state_at_construction pending self w).2 |}).
  assert (G0 : template_geometry tp (world s0) = inr (page, size)).
  { simpl. rewrite (template_geometry_fs _ _ _ F). exact G. }
  assert (Wr0 : forall r, r ∈ rows -> writable (world s0) (out r) = Written).
  { intros r I. simpl. rewrite Wq. apply Wr. exact I. }
  destruct (report_loop_success pending generator (dirname csv) (length rows) rows 0 s0
              page size G0 Wr0) as (Ok & Out & Tr).
  simpl in Ok, Out, Tr. rewrite Ok, Out, Tr, Nat.eqb_refl.
  eexists. split; [reflexivity|]. split.
  { simpl. rewrite <- app_assoc. reflexivity. }
  intros Sp St k row E L. simpl.
  destruct (report_loop_files generator (dirname csv) (length rows) size rows 0 s0 page
              G0 Wr0 Sp St) as [_ Ib].
  destruct (Ib k row E L) as (base & wk & Ef & Mb & Pb & Sk & Kk & Fk).
  exists base, wk. split; [exact Ef|]. split; [exact Mb|]. split; [exact Pb|].
  split; [exact Sk|]. split; [rewrite Kk; simpl; rewrite K; reflexivity|].
  intros q N. rewrite (Fk q N). simpl. rewrite F. reflexivity.
Qed.
End written_reports.

Section claims2.
Import binary64 pystr utils template_coords report_generator template_editor app.
Context {os : OS}.
Variable pending : nat -> list Action.
Local Open Scope Q_scope.

Lemma coords_of_store self w k v :
  coords_of self w !! k = Some v ->
  is_Some (store w !! report_generator.field_coordinates self).
Proof.
  unfold coords_of. destruct (store w !! _); [eauto|].
  simpl. rewrite lookup_empty. discriminate.
Qed.

Lemma coords_of_same self w1 w2 :
  store w1 !! report_generator.field_coordinates self
  = store w2 !! report_generator.field_coordinates self ->
  coords_of self w1 = coords_of self w2.
Proof. unfold coords_of. intros ->. reflexivity. Qed.

(** C9.  In a batch of six records, with a usable template and output
    paths that can be written, all six records succeed and none fails,
    whatever the state of their pictures.  For a record whose picture
    path is not blank and names no file (nor the report of an earlier
    record), and whose file name no later record shares, the report that
    the batch leaves is the template page with, painted over it, texts
    that are no image, then [Image not found] at the position of the image
    field, then the time stamp.  This is so for the canvas of any report
    made while the picture does not exist. *)
Theorem missing_image_record_succeeds self w csv tpl rows page size k row x y :
  csv_path self = Some csv -> app.template_path self = Some tpl ->
  fs w !! csv = Some (CsvFile rows) ->
  let generator := generator_of pending self w in
  let l := report_generator.field_coordinates generator in
  let out r := output_path_of r (lit "reports") in
  let picture := normpath (path_join (dirname csv) (strip (cell row "image_path"))) in
  template_geometry (report_generator.template_path generator) w = inr (page, size) ->
  (forall r, r ∈ rows -> writable w (out r) = Written) ->
  length rows = 6%nat -> rows !! k = Some row ->
  strip (cell row "image_path") <> [] ->
  (exists s,
     generate_reports pending self w
     = (Finished 6 6 (map (fun r => inr (out r)) rows), s)
     /\ trace s = StatusReadingCsv :: success_trace 6 0 rows ++ [InfoAll 6; StatusDone 6 6]
     /\ (fs w !! picture = None ->
         (forall j r, (j < k)%nat -> rows !! j = Some r -> out r <> picture) ->
         (forall j r, (k < j)%nat -> rows !! j = Some r -> out r <> out row) ->
         (forall n, Forall (spares l) (pending n)) ->
         coords_of generator (state_at_construction pending self w).2 !! "image"%string
         = Some (x, y) ->
         exists base texts,
           mediabox base = mediabox page
           /\ ((forall j r, (j < k)%nat -> rows !! j = Some r ->
                            out r <> report_generator.template_path generator) ->
               base = page)
           /\ fs (world s) !! out row
              = Some (PdfFile
                        [{| mediabox := mediabox base;
                            content :=
                              content base ++ texts
                              ++ [DrawString (Helvetica 9) (clamp_x x size.1)
                                    (to_pdf_y (float_of_int y) size.2)
                                    (lit "Image not found");
                                  DrawRightString (Helvetica 8) (fsub size.1 20) 15
                                    (lit "Generated: " ++ strftime (clock w + k))] |}])
           /\ Forall (fun op => is_image op = false) texts))
  /\ (forall w' bed_id,
        coords_of generator w' !! "image"%string = Some (x, y) ->
        fs w' !! picture = None ->
        exists texts,
          drawn (overlay generator w' row (dirname csv) bed_id size)
          = texts
            ++ [DrawString (Helvetica 9) (clamp_x x size.1)
                  (to_pdf_y (float_of_int y) size.2) (lit "Image not found");
                DrawRightString (Helvetica 8) (fsub size.1 20) 15
                  (lit "Generated: " ++ strftime (clock w'))]
          /\ Forall (fun op => is_image op = false) texts).
Proof.
  intros C T R generator l out picture G Wr Len Hk NB. split.
  - destruct (generate_reports_files pending self w csv tpl rows page size C T R G Wr)
      as (s & E & Tr & Files).
    rewrite Len in E, Tr. exists s. split; [exact E|]. split; [exact Tr|].
    intros NF Earlier Later Sp I.
    destruct (Files Sp (coords_of_store _ _ _ _ I) k row Hk Later)
      as (base & wk & Ef & Mb & Pb & Sk & Kk & Fk).
    fold generator in Ef, Sk.
    assert (Ik : coords_of generator wk !! "image"%string = Some (x, y)).
    { rewrite (coords_of_same generator wk _ Sk). exact I. }
    assert (NFk : fs wk !! picture = None) by (rewrite (Fk picture Earlier); exact NF).
    destruct (overlay_missing_image generator wk row (dirname csv) (Z.of_nat k + 1) size
                x y Ik NB NFk) as (texts & D & NI).
    exists base, texts. split; [exact Mb|]. split; [exact Pb|]. split; [|exact NI].
    unfold out. rewrite Ef. unfold merge_page. rewrite D, Kk. reflexivity.
  - intros w' bed_id I NF. apply overlay_missing_image; assumption.
Qed.


(** C7.  For an image of positive size [iw] by [ih], the image that is
    drawn (the operation that the image step adds to the canvas, and with
    it the only image of the overlay of the report) has its longer side
    equal to [129.6] points ([1.8 * 72.0]) and the other side scaled by
    the ratio of the sides: [(129.6, (ih/iw)*129.6)] when [iw >= ih], and
    [((iw/ih)*129.6, 129.6)] otherwise.  The scaled side is at most
    [129.6], and the ratio of the sides drawn is the ratio of the sides of
    the image up to a relative error of [3 * 2^-53] (the roundings of the
    division and of the product).  A 400 by 200 image is drawn
    [(129.6, 64.8)] and a 200 by 400 image [(64.8, 129.6)]. *)
Theorem drawn_image_longer_side self w row csv_dir x0 y0 (iw ih : Z) :
  let rel := strip (cell row "image_path") in
  let path := normpath (path_join csv_dir rel) in
  coords_of self w !! "image"%string = Some (x0, y0) ->
  rel <> [] -> fs w !! path = Some (ImageFile iw ih) ->
  (0 < iw)%Z -> (0 < ih)%Z ->
  let side := float_lit (1296 # 10) in
  exists nw nh,
    (forall canvas pw ph,
       drawn (_draw_patient_image self w canvas row csv_dir pw ph)
       = drawn canvas
         ++ [DrawImage path (clamp_x x0 pw)
               (fsub (to_pdf_y (float_of_int y0) ph) nh) nw nh])
    /\ (forall bed_id size,
          exists texts,
            drawn (overlay self w row csv_dir bed_id size)
            = texts
              ++ [DrawImage path (clamp_x x0 size.1)
                    (fsub (to_pdf_y (float_of_int y0) size.2) nh) nw nh;
                  DrawRightString (Helvetica 8) (fsub size.1 20) 15
                    (lit "Generated: " ++ strftime (clock w))]
            /\ Forall (fun op => is_image op = false) texts)
    /\ ((ih <= iw)%Z ->
        nw = side
        /\ nh = fmul (rnd53 (inject_Z ih / inject_Z iw)) side
        /\ nh <= side
        /\ ((iw < 2 ^ 53)%Z ->
            Qabs (nh * inject_Z iw - side * inject_Z ih)
            <= 3 * 2 ^ (-53) * (side * inject_Z ih)))
    /\ ((iw < ih)%Z ->
        nh = side
        /\ nw = fmul (rnd53 (inject_Z iw / inject_Z ih)) side
        /\ nw <= side
        /\ ((ih < 2 ^ 53)%Z ->
            Qabs (nw * inject_Z ih - side * inject_Z iw)
            <= 3 * 2 ^ (-53) * (side * inject_Z iw)))
    /\ (iw = 400%Z -> ih = 200%Z ->
        nw = float_lit (1296 # 10) /\ nh = float_lit (648 # 10))
    /\ (iw = 200%Z -> ih = 400%Z ->
        nw = float_lit (648 # 10) /\ nh = float_lit (1296 # 10)).
Proof.
  intros rel path I NB F Pw Ph side.
  destruct (image_box_sides iw ih Pw Ph) as (Wide & Tall & V1 & V2). fold side in Wide, Tall.
  assert (Box : exists nw nh, image_box iw ih = inr (nw, nh)).
  { destruct (Z_le_gt_dec ih iw) as [Le | Gt].
    - destruct (Wide Le) as (h & E & _). eauto.
    - destruct (Tall ltac:(lia)) as (v & E & _). eauto. }
  destruct Box as (nw & nh & Box). exists nw, nh.
  assert (Step : forall canvas pw ph,
             drawn (_draw_patient_image self w canvas row csv_dir pw ph)
             = drawn canvas
               ++ [DrawImage path (clamp_x x0 pw)
                     (fsub (to_pdf_y (float_of_int y0) ph) nh) nw nh]).
  { intros canvas pw ph. unfold _draw_patient_image. rewrite I. fold rel.
    destruct rel as [|c t] eqn:Rl; [contradiction|].
    simpl is_empty. cbv iota. fold path. rewrite F.
    unfold try_draw_image. rewrite F, Box. reflexivity. }
  split; [exact Step|]. split.
  { intros bed_id size. unfold overlay.
    destruct (draw_text_fields_more self w (setFont (Helvetica 12) (new_canvas size))
                row bed_id size.1 size.2) as (texts & E & NI).
    exists texts. simpl. rewrite Step, E. simpl. rewrite <- app_assoc. auto. }
  split.
  { intros Le. destruct (Wide Le) as (h & E & Eh & Lh & Rh).
    rewrite Box in E. inversion E; subst nw h. auto. }
  split.
  { intros Lt. destruct (Tall Lt) as (v & E & Ev & Lv & Rv).
    rewrite Box in E. inversion E; subst nh v. auto. }
  split.
  - intros -> ->. rewrite Box in V1. inversion V1. auto.
  - intros -> ->. rewrite Box in V2. inversion V2. auto.
Qed.
End claims2.

(** ** Examples *)

Section examples.
Import binary64 pystr utils template_coords report_generator template_editor app example.

(** A batch of two records during which the window adopts a new mapping
    object and the new object is edited: the pass produces what it
    produces when nothing happens. *)
Lemma pass_reads_mapping_by_reference_witness :
  let generator := generator_of idle window (world_of (Some (PdfFile [letter_page])) two_rows) in
  let s := start (world_of (Some (PdfFile [letter_page])) two_rows) in
  same_pass 1 (report_loop swap_mapping generator (lit "data") 2 0 two_rows s)
    (report_loop idle generator (lit "data") 2 0 two_rows s).
Proof.
  intros generator s.
  apply (pass_reads_mapping_by_reference swap_mapping idle generator (lit "data") 2
           two_rows 0 s s).
  - repeat split; vm_compute; eauto.
  - intros n. unfold swap_mapping. destruct (n =? 2)%nat; repeat constructor. discriminate.
  - intros n. constructor.
Defined.

(** C2 (counterexample).  The same batch of two records is run twice;
    in the second run the [name] position of the mapping object held by
    the generator is assigned while the second report is due.  The first
    report is the same, the second report draws the name at [(50, 742)]
    instead of [(250, 607)]. *)
Lemma in_place_edit_changes_later_reports :
  let w := world_of (Some (PdfFile [letter_page])) two_rows in
  let undisturbed := world (generate_reports idle window w).2 in
  let edited := world (generate_reports move_name window w).2 in
  report_content undisturbed "reports/Ann_Lee_report.pdf"
  = report_content edited "reports/Ann_Lee_report.pdf"
  /\ report_content undisturbed "reports/Bo_Chen_report.pdf" !! 1%nat
     = Some (DrawString (Helvetica 12) 250 607 (lit "Bo Chen"))
  /\ report_content edited "reports/Bo_Chen_report.pdf" !! 1%nat
     = Some (DrawString (Helvetica 12) 50 742 (lit "Bo Chen"))
  /\ fs undisturbed !! lit "reports/Bo_Chen_report.pdf"
     <> fs edited !! lit "reports/Bo_Chen_report.pdf".
Proof.
  split; [vm_compute; reflexivity|]. split; [vm_compute; reflexivity|].
  split; [vm_compute; reflexivity|]. vm_compute. discriminate.
Qed.

(** Six records and no file at the template path. *)
Lemma unopenable_template_fails_each_record_witness :
  let w := world_of None six_rows in
  exists s,
    generate_reports idle window w
    = (Finished 0 6 (map (fun _ => inl (PdfReadError (lit "t.pdf"))) six_rows), s)
    /\ fs (world s) = fs w.
Proof.
  intros w.
  destruct (unopenable_template_fails_each_record idle window w (lit "data/p.csv")
              (lit "t.pdf") six_rows eq_refl eq_refl eq_refl) as (s & E & _ & F).
  - intros pages. vm_compute. discriminate.
  - exists s. split; [exact E | exact F].
Defined.

(** C1 (counterexample).  With a template path that holds no file and a
    table of one record, the run does not end in an error of the
    operation: the record is attempted, fails with the error of the PDF
    reader and is shown as a warning; the run ends with 0 of 1. *)
Lemma unopenable_template_attempts_records :
  let w := world_of None [patient "Ann Lee" "ann.png"] in
  fs w !! lit "t.pdf" = None
  /\ (generate_reports idle window w).1 = Finished 0 1 [inl (PdfReadError (lit "t.pdf"))]
  /\ trace (generate_reports idle window w).2
     = [StatusReadingCsv; StatusGenerating 1 1 (lit "Ann Lee");
        WarningRecord (lit "Ann Lee") (PdfReadError (lit "t.pdf"));
        WarningPartial 0 1; StatusDone 0 1].
Proof. repeat split; vm_compute; reflexivity. Qed.

(** Six records and a template whose first page has no readable media
    box. *)
Lemma unreadable_geometry_fails_the_record_witness :
  let w := world_of (Some (PdfFile [no_box_page])) six_rows in
  _read_template_size (lit "t.pdf") w = (612, 792)%Q
  /\ exists s,
       generate_reports idle window w
       = (Finished 0 6 (map (fun _ => inl MediaBoxError) six_rows), s)
       /\ fs (world s) = fs w.
Proof.
  intros w.
  destruct (unreadable_geometry_fails_the_record idle window w (lit "data/p.csv")
              (lit "t.pdf") six_rows no_box_page [] eq_refl eq_refl eq_refl eq_refl eq_refl)
    as (E & _ & _ & B).
  split; [exact E | exact B].
Defined.

(** C4 (counterexample).  The template opens and has a first page, but
    its media box cannot be read: compositing the record raises instead of
    continuing with the US-Letter size, and the batch ends with 0 of 1. *)
Lemma unreadable_geometry_aborts_compositing :
  let row := patient "Ann Lee" "ann.png" in
  let w := world_of (Some (PdfFile [no_box_page])) [row] in
  let generator := generator_of idle window w in
  create_patient_report generator row (lit "data") 1 (lit "reports") w
  = (inl MediaBoxError, w)
  /\ (generate_reports idle window w).1 = Finished 0 1 [inl MediaBoxError]
  /\ fs (world (generate_reports idle window w).2) = fs w.
Proof. repeat split; vm_compute; reflexivity. Qed.

(** Each row of the table is tried in turn. *)
Ltac each_row j E :=
  unfold six_rows in E;
  repeat (destruct j as [|j];
          [try lia; try (injection E as <-; vm_compute; discriminate)
          |try lia; try discriminate E]).

(** Six records, the third of which names a picture that does not exist. *)
Lemma missing_image_record_succeeds_witness :
  let w := world_of (Some (PdfFile [letter_page])) six_rows in
  fs w !! lit "data/missing.png" = None
  /\ exists s texts,
       generate_reports idle window w
       = (Finished 6 6 (map (fun r => inr (output_path_of r (lit "reports"))) six_rows), s)
       /\ trace s = StatusReadingCsv :: success_trace 6 0 six_rows ++ [InfoAll 6; StatusDone 6 6]
       /\ fs (world s) !! lit "reports/Cy_Diaz_report.pdf"
          = Some (PdfFile
                    [{| mediabox := Some (612, 792)%Q;
                        content :=
                          texts
                          ++ [DrawString (Helvetica 9) (clamp_x 407 612)
                                (to_pdf_y (float_of_int 165) 792) (lit "Image not found");
                              DrawRightString (Helvetica 8) (fsub 612 20) 15
                                (lit "Generated: " ++ strftime 2)] |}])
       /\ Forall (fun op => is_image op = false) texts.
Proof.
  intros w. split; [reflexivity|].
  destruct (missing_image_record_succeeds idle window w (lit "data/p.csv") (lit "t.pdf")
              six_rows letter_page (612, 792)%Q 2 (patient "Cy Diaz" "missing.png") 407 165)
    as [(s & E & Tr & File) _].
  - reflexivity.
  - reflexivity.
  - reflexivity.
  - vm_compute. reflexivity.
  - intros r _. reflexivity.
  - reflexivity.
  - reflexivity.
  - vm_compute. discriminate.
  - destruct File as (base & texts & _ & Pb & Ef & NI).
    + reflexivity.
    + intros j r L Ej. each_row j Ej.
    + intros j r L Ej. each_row j Ej.
    + intros n. constructor.
    + vm_compute. reflexivity.
    + rewrite Pb in Ef by (intros j r L Ej; each_row j Ej).
      exists s, texts. split; [exact E|]. split; [exact Tr|]. split; [exact Ef | exact NI].
Defined.


(** A 400 by 200 picture in the report of a record. *)
Lemma drawn_image_longer_side_witness :
  let w := world_of (Some (PdfFile [letter_page])) six_rows in
  let generator := generator_of idle window w in
  drawn (_draw_patient_image generator w (new_canvas (612, 792)%Q)
           (patient "Ann Lee" "ann.png") (lit "data") 612 792)
  = [DrawImage (lit "data/ann.png") (clamp_x 407 612)
       (fsub (to_pdf_y (float_of_int 165) 792) (float_lit (648 # 10)))
       (float_lit (1296 # 10)) (float_lit (648 # 10))].
Proof.
  intros w generator.
  destruct (drawn_image_longer_side generator w (patient "Ann Lee" "ann.png") (lit "data")
              407 165 400 200) as (nw & nh & Step & _ & _ & _ & V & _).
  - vm_compute. reflexivity.
  - vm_compute. discriminate.
  - reflexivity.
  - reflexivity.
  - reflexivity.
  - destruct (V eq_refl eq_refl) as [-> ->]. exact (Step (new_canvas (612, 792)%Q) 612%Q 792%Q).
Defined.
End examples.

(** * Part III: further properties of the code *)

(** ** Coordinates and positions *)

Section more_utils.
Import binary64 pystr utils report_generator.
Local Open Scope Q_scope.

(** Every rounded number is a binary64 value. *)
Lemma rnd53_representable_pos (x : Q) : 0 < x -> representable (rnd53 x).
Proof.
  intros P. set (M := round_half_even (x / 2 ^ fexp x)).
  assert (E : rnd53 x == inject_Z M * 2 ^ fexp x) by (apply rnd53_val; lra).
  assert (Lo : (0 <= M)%Z).
  { unfold M. rewrite <- (round_half_even_Z 0). apply round_half_even_mono.
    apply Qle_shift_div_l; [apply pow2_pos|]. change (inject_Z 0) with 0. lra. }
  assert (Hi : (M <= 2 ^ 53)%Z).
  { unfold M. rewrite <- (round_half_even_Z (2 ^ 53)). apply round_half_even_mono.
    rewrite pow2_inject by lia. apply Qlt_le_weak, scaled_upper, P. }
  assert (Em : (emin <= fexp x)%Z) by (unfold fexp; lia).
  destruct (Z.eq_dec M (2 ^ 53)%Z) as [Top | NotTop].
  - exists (2 ^ 52)%Z, (fexp x + 1)%Z. split; [lia|]. split; [lia|].
    rewrite E, Top, pow2_succ. change (inject_Z (2 ^ 53)) with (2 * inject_Z (2 ^ 52)).
    ring.
  - exists M, (fexp x). split; [exact Em|]. split; [lia | exact E].
Qed.

Lemma rnd53_representable (x : Q) : representable (rnd53 x).
Proof.
  destruct (Qlt_le_dec 0 x) as [P | NP]; [apply rnd53_representable_pos, P|].
  destruct (Qeq_dec x 0) as [Z | NZ].
  - rewrite (rnd53_compat x 0 Z). exists 0%Z, 0%Z.
    split; [unfold emin; lia|]. split; [reflexivity | reflexivity].
  - assert (P : 0 < - x) by lra.
    destruct (rnd53_representable_pos (- x) P) as (m & e & He & Hm & E).
    exists (- m)%Z, e. split; [exact He|]. split; [lia|].
    rewrite rnd53_opp in E. rewrite inject_Z_opp. lra.
Qed.

Lemma rnd53_idempotent (x : Q) : rnd53 (rnd53 x) == rnd53 x.
Proof. apply rnd53_exact, rnd53_representable. Qed.

(** *** [to_pdf_y] *)

Lemma clamp_below (v hi : Q) : v <= 0 -> 0 <= hi -> pymax 0 (pymin hi v) == 0.
Proof.
  intros N P. unfold pymax, pymin.
  destruct (Qle_bool hi v) eqn:T1.
  - apply Qle_bool_iff in T1.
    destruct (Qle_bool hi 0) eqn:T2; [reflexivity|].
    assert (0 < hi).
    { apply Qnot_le_lt. intros C. apply Qle_bool_iff in C. congruence. }
    lra.
  - destruct (Qle_bool v 0) eqn:T2; [reflexivity|].
    exfalso. apply Qle_bool_iff in N. congruence.
Qed.

Lemma clamp_mono (u v hi : Q) :
  u <= v -> 0 <= hi -> pymax 0 (pymin hi u) <= pymax 0 (pymin hi v).
Proof.
  intros L P.
  destruct (Qlt_le_dec u 0) as [Nu | Pu].
  - rewrite (clamp_below u hi) by lra. apply clamp_range, P.
  - destruct (Qlt_le_dec hi u) as [Bu | Iu].
    + assert (Eu : pymax 0 (pymin hi u) <= hi) by (apply clamp_range, P).
      assert (Ev : hi <= pymax 0 (pymin hi v)).
      { unfold pymax, pymin.
        assert (T : Qle_bool hi v = true) by (apply Qle_bool_iff; lra). rewrite T.
        destruct (Qle_bool hi 0) eqn:T2; [apply Qle_bool_iff in T2|]; lra. }
      lra.
    + rewrite (clamp_inside u hi) by lra.
      destruct (Qlt_le_dec hi v) as [Bv | Iv].
      * assert (Ev : hi <= pymax 0 (pymin hi v)).
        { unfold pymax, pymin.
          assert (T : Qle_bool hi v = true) by (apply Qle_bool_iff; lra). rewrite T.
          destruct (Qle_bool hi 0) eqn:T2; [apply Qle_bool_iff in T2|]; lra. }
        lra.
      * rewrite (clamp_inside v hi) by lra. exact L.
Qed.

(** X1.  [to_pdf_y] never leaves the page, whatever it is given; below the
    bottom edge it gives 0. *)
Theorem to_pdf_y_on_page (y H : Q) :
  0 <= H ->
  0 <= to_pdf_y y H <= H /\ (H <= y -> to_pdf_y y H == 0).
Proof.
  intros P. split; [apply clamp_range, P|].
  intros B. unfold to_pdf_y, fsub. apply clamp_below; [|exact P].
  rewrite <- rnd53_0. apply rnd53_mono. lra.
Qed.

Lemma to_pdf_y_on_page_witness :
  0 <= 792 /\ 0 <= to_pdf_y 1000 792 <= 792 /\ (792 <= 1000 -> to_pdf_y 1000 792 == 0).
Proof. split; [discriminate|]. apply (to_pdf_y_on_page 1000 792). discriminate. Defined.

(** X2.  A position further down the page in the editor is drawn lower. *)
Theorem to_pdf_y_antitone (y1 y2 H : Q) :
  0 <= H -> y1 <= y2 -> to_pdf_y y2 H <= to_pdf_y y1 H.
Proof.
  intros P L. unfold to_pdf_y, fsub. apply clamp_mono; [|exact P].
  apply rnd53_mono. lra.
Qed.

Lemma to_pdf_y_antitone_witness :
  0 <= 792 /\ 100 <= 250 /\ to_pdf_y 250 792 <= to_pdf_y 100 792.
Proof.
  split; [discriminate|]. split; [discriminate|].
  apply (to_pdf_y_antitone 100 250 792); discriminate.
Defined.

(** X3.  A whole-number position on the page is drawn exactly there. *)
Theorem draw_position_exact (x_top y_top : Z) (W H : Q) :
  representable H -> H < 2 ^ 53 -> W < 2 ^ 53 ->
  0 <= inject_Z x_top <= W -> 0 <= inject_Z y_top <= H ->
  clamp_x x_top W == inject_Z x_top
  /\ to_pdf_y (float_of_int y_top) H == H - inject_Z y_top.
Proof.
  intros RH UH UW [Lx Ux] [Ly Uy].
  assert (Rz : forall z : Z, 0 <= inject_Z z -> inject_Z z < 2 ^ 53 ->
                 rnd53 (inject_Z z) == inject_Z z).
  { intros z Lo Hi. apply rnd53_exact, representable_Z.
    rewrite <- (pow2_inject 53) in Hi by lia. rewrite <- Zlt_Qlt in Hi.
    assert (0 <= z)%Z by (rewrite Zle_Qle; exact Lo). lia. }
  split.
  - unfold clamp_x, float_of_int. rewrite clamp_inside; rewrite Rz; try lra.
  - unfold float_of_int.
    rewrite (to_pdf_y_compat _ _ H (Rz y_top Ly ltac:(lra))).
    apply to_pdf_y_exact; [split; assumption|].
    apply representable_sub_int; try assumption. split; assumption.
Qed.

Lemma draw_position_exact_witness :
  clamp_x 239 612 == inject_Z 239
  /\ to_pdf_y (float_of_int 95) 792 == 792 - inject_Z 95.
Proof.
  apply (draw_position_exact 239 95 612 792).
  - apply (representable_Z 792). reflexivity.
  - reflexivity.
  - reflexivity.
  - split; discriminate.
  - split; discriminate.
Defined.
End more_utils.

(** ** File names *)

Section more_slugs.
Import pystr utils.

Lemma lstrip_sublist (s : str) : lstrip s `sublist_of` s.
Proof.
  induction s as [|c t IH]; simpl; [constructor|].
  destruct (isspace c); [apply sublist_cons, IH | reflexivity].
Qed.

Lemma rstrip_sublist (s : str) : rstrip s `sublist_of` s.
Proof.
  induction s as [|c t IH]; simpl; [constructor|].
  destruct (rstrip t) as [|c' t'] eqn:E.
  - destruct (isspace c); [apply sublist_nil_l | apply sublist_skip, sublist_nil_l].
  - apply sublist_skip, IH.
Qed.

Lemma replace_char_sublist (a b : N) (s t : str) :
  s `sublist_of` t -> replace_char a b s `sublist_of` replace_char a b t.
Proof.
  unfold replace_char. induction 1; simpl; [constructor | apply sublist_skip | apply sublist_cons];
    assumption.
Qed.

Lemma remove_unsafe_sublist (s : str) : remove_unsafe s `sublist_of` s.
Proof. unfold remove_unsafe. apply sublist_filter. Qed.

(** X4.  A slug is the fallback or a safe file-name component made of
    characters of the input. *)
Theorem slugify_filename_safe (s fallback : str) :
  let slug := slugify_filename s fallback in
  slug = fallback
  \/ (slug <> []
      /\ Forall (fun c => safe_char c = true /\ c <> 47 /\ c <> 92 /\ c <> 46)%N slug
      /\ slug `sublist_of` replace_char 32 95 s).
Proof.
  unfold slugify_filename. destruct (is_empty (strip s)); [left; reflexivity|].
  unfold or_else.
  destruct (remove_unsafe (replace_char 32 95 (strip s))) as [|c t] eqn:E;
    [left; reflexivity | right].
  simpl. rewrite <- E. split; [rewrite E; discriminate|]. split.
  - eapply Forall_impl; [apply remove_unsafe_safe|].
    intros x Sx. split; [exact Sx|]. repeat split; intros ->; discriminate.
  - etransitivity; [apply remove_unsafe_sublist|].
    apply replace_char_sublist. unfold strip.
    etransitivity; [apply rstrip_sublist | apply lstrip_sublist].
Qed.

Lemma lstrip_spaces (pre s : str) :
  Forall (fun c => isspace c = true) pre -> lstrip (pre ++ s) = lstrip s.
Proof. induction 1 as [|c pre Hc _ IH]; simpl; [reflexivity|]. rewrite Hc. exact IH. Qed.

Lemma rstrip_all_spaces (post : str) :
  Forall (fun c => isspace c = true) post -> rstrip post = [].
Proof. induction 1 as [|c post Hc _ IH]; simpl; [reflexivity|]. rewrite IH, Hc. reflexivity. Qed.

Lemma rstrip_spaces (s post : str) :
  Forall (fun c => isspace c = true) post -> rstrip (s ++ post) = rstrip s.
Proof.
  intros F. induction s as [|c t IH]; simpl; [apply rstrip_all_spaces, F|].
  rewrite IH. reflexivity.
Qed.

Lemma lstrip_all_spaces (post : str) :
  Forall (fun c => isspace c = true) post -> lstrip post = [].
Proof. induction 1 as [|c post Hc _ IH]; simpl; [reflexivity|]. rewrite Hc. exact IH. Qed.

Lemma strip_spaces (pre s post : str) :
  Forall (fun c => isspace c = true) pre -> Forall (fun c => isspace c = true) post ->
  strip (pre ++ s ++ post) = strip s.
Proof.
  intros Fpre Fpost. unfold strip. rewrite (lstrip_spaces pre _ Fpre).
  induction s as [|c t IH]; simpl.
  - rewrite (lstrip_all_spaces post Fpost). reflexivity.
  - destruct (isspace c); [exact IH|].
    change (c :: t ++ post) with ((c :: t) ++ post). apply rstrip_spaces, Fpost.
Qed.

(** X5.  White space around the name never changes the file name. *)
Theorem slugify_filename_ignores_margins (pre s post fallback : str) :
  Forall (fun c => isspace c = true) pre -> Forall (fun c => isspace c = true) post ->
  slugify_filename (pre ++ s ++ post) fallback = slugify_filename s fallback.
Proof.
  intros Fpre Fpost. unfold slugify_filename.
  rewrite (strip_spaces pre s post Fpre Fpost). reflexivity.
Qed.

Lemma slugify_filename_ignores_margins_witness :
  slugify_filename (lit "  " ++ lit "John Doe" ++ [9; 10]%N) default_fallback
  = slugify_filename (lit "John Doe") default_fallback.
Proof.
  apply (slugify_filename_ignores_margins (lit "  ") (lit "John Doe") [9; 10]%N);
    repeat constructor.
Defined.
End more_slugs.

(** ** The default positions and their labels *)

Section more_coords.
Import binary64 pystr utils template_coords report_generator app.
Local Open Scope Q_scope.

Lemma default_items_keys (W H : Q) : (default_items W H).*1 = ratios.*1.
Proof.
  unfold default_items. generalize ratios. intros l.
  induction l as [|[k [rx ry]] l IH]; simpl; [reflexivity|]. f_equal. exact IH.
Qed.

Lemma default_coords_dom (W H : Q) :
  dom (mosabbir_default_coords W H) = dom get_field_display_names.
Proof.
  unfold mosabbir_default_coords. rewrite dom_list_to_map_L, default_items_keys.
  vm_compute. reflexivity.
Qed.

(** X6.  Every mapping the window starts from has a label for each of its
    fields, so that showing it never fails. *)
Theorem coordinates_have_labels (W H : Q) :
  dom (mosabbir_default_coords W H) = dom get_field_display_names
  /\ dom initial_field_coordinates = dom get_field_display_names
  /\ is_Some (update_coordinates_display (mosabbir_default_coords W H))
  /\ is_Some (update_coordinates_display initial_field_coordinates)
  /\ (forall coords,
        is_Some (update_coordinates_display coords) <->
        forall k, is_Some (coords !! k) -> is_Some (get_field_display_names !! k)).
Proof.
  split; [apply default_coords_dom|].
  split; [vm_compute; reflexivity|].
  split.
  { unfold update_coordinates_display. rewrite default_coords_dom.
    rewrite bool_decide_eq_true_2 by reflexivity. eauto. }
  split; [vm_compute; eauto|].
  intros coords. unfold update_coordinates_display.
  destruct (decide (dom coords ⊆ dom get_field_display_names)) as [S | N].
  - rewrite bool_decide_eq_true_2 by exact S. split; [|eauto].
    intros _ k I. apply elem_of_dom, S, elem_of_dom, I.
  - rewrite bool_decide_eq_false_2 by exact N. split; [intros [? ?]; discriminate|].
    intros A. exfalso. apply N. intros k I. apply elem_of_dom, A, elem_of_dom, I.
Qed.

Lemma ratios_bounded :
  Forall (fun '(_, (rx, ry)) => 0 <= rx <= 67 # 100 /\ 0 <= ry <= 82 # 100) ratios.
Proof. repeat constructor; vm_compute; discriminate. Qed.

(** A ratio of at most [c] of a size of at least [lo], where
    [lo * (1 - c * (1 + 2^-53)) >= 1/2], rounds to a point within the size. *)
Lemma ratio_to_point_within (r size c lo : Q) :
  0 <= r <= c -> 1 <= lo <= size -> 1 # 2 <= c -> c <= 1 ->
  1 # 2 <= lo * (1 - c * (1 + 2 ^ (-53))) ->
  (0 <= ratio_to_point r size)%Z /\ inject_Z (ratio_to_point r size) <= size.
Proof.
  intros [Lr Ur] [Ll Ls] Lc Uc B. unfold ratio_to_point, fmul. split.
  - rewrite <- (round_half_even_Z 0) at 1. apply round_half_even_mono.
    change (inject_Z 0) with 0. apply rnd53_nonneg. nra.
  - assert (M : rnd53 (r * size) <= rnd53 (c * size)) by (apply rnd53_mono; nra).
    assert (Small : 2 ^ (-1022) <= 1 # 2) by (vm_compute; discriminate).
    pose proof (rnd53_relative_error (c * size) ltac:(nra)) as [_ E].
    pose proof (round_half_even_error (rnd53 (r * size))) as [_ R].
    assert (U0 : 0 < 2 ^ (-53)) by apply pow2_pos.
    set (u := 2 ^ (-53)) in *. set (q := rnd53 (r * size)) in *.
    set (p := rnd53 (c * size)) in *.
    assert (T : size * (1 - c * (1 + u)) >= 1 # 2).
    { assert (0 <= 1 - c * (1 + u)) by nra. nra. }
    nra.
Qed.

(** X7.  On a page of at least 2 by 3 points every default position lies on
    the page. *)
Theorem default_coords_on_page (W H : Q) (k : string) (x y : Z) :
  2 <= W -> 3 <= H ->
  mosabbir_default_coords W H !! k = Some (x, y) ->
  0 <= inject_Z x <= W /\ 0 <= inject_Z y <= H.
Proof.
  intros LW LH I. unfold mosabbir_default_coords in I.
  apply elem_of_list_to_map_2 in I. unfold default_items in I.
  apply list_elem_of_In, in_map_iff in I. destruct I as ([k' [rx ry]] & E & I).
  injection E as <- <- <-.
  pose proof ratios_bounded as F. rewrite Forall_forall in F.
  rewrite <- list_elem_of_In in I. specialize (F _ I). simpl in F. destruct F as [Fx Fy].
  destruct (ratio_to_point_within rx W (67 # 100) 2 Fx) as [X0 X1];
    [lra | discriminate | discriminate | vm_compute; discriminate|].
  destruct (ratio_to_point_within ry H (82 # 100) 3 Fy) as [Y0 Y1];
    [lra | discriminate | discriminate | vm_compute; discriminate|].
  rewrite Zle_Qle in X0, Y0. change (inject_Z 0) with 0 in *. repeat split; assumption.
Qed.

Lemma default_coords_on_page_witness :
  0 <= inject_Z 396 <= float_lit (59528 # 100) /\ 0 <= inject_Z 175 <= float_lit (84189 # 100).
Proof.
  apply (default_coords_on_page (float_lit (59528 # 100)) (float_lit (84189 # 100)) "image").
  - vm_compute. discriminate.
  - vm_compute. discriminate.
  - vm_compute. reflexivity.
Defined.
End more_coords.

(** ** The markers of the editor *)

Section markers.
Import binary64 draggable_field.
Local Open Scope Q_scope.

Lemma Qle_bool_false (a b : Q) : Qle_bool a b = false -> b < a.
Proof.
  intros E. apply Qnot_le_lt. intros C. apply Qle_bool_iff in C. congruence.
Qed.

Lemma clamp_to_range (v hi : Q) : 0 <= hi -> 0 <= pymin (pymax 0 v) hi <= hi.
Proof.
  intros P. unfold pymin, pymax.
  destruct (Qle_bool v 0) eqn:T1.
  - assert (T : Qle_bool 0 hi = true) by (apply Qle_bool_iff, P). rewrite T. lra.
  - apply Qle_bool_false in T1.
    destruct (Qle_bool v hi) eqn:T2; [apply Qle_bool_iff in T2|]; lra.
Qed.

Lemma clamp_to_range_inside (v hi : Q) : 0 <= v <= hi -> pymin (pymax 0 v) hi == v.
Proof.
  intros [L U]. unfold pymin, pymax.
  destruct (Qle_bool v 0) eqn:T1.
  - apply Qle_bool_iff in T1.
    destruct (Qle_bool 0 hi) eqn:T2; [|apply Qle_bool_false in T2]; lra.
  - assert (T : Qle_bool v hi = true) by (apply Qle_bool_iff, U). rewrite T. reflexivity.
Qed.

Lemma px_to_pt_delta_total (scales : Q * Q) (dx_px dy_px : Z) :
  is_Some (_px_to_pt_delta scales dx_px dy_px).
Proof.
  destruct scales as [sx sy]. unfold _px_to_pt_delta, float_truediv.
  destruct (Qeq_bool sx 0) eqn:Ex; destruct (Qeq_bool sy 0) eqn:Ey;
    try rewrite Ex; try rewrite Ey; simpl; eauto.
Qed.

Lemma on_drag_run (scales : Q * Q) (event : Z * Z) (self : DraggableField) :
  exists dx_pt dy_pt,
    on_drag scales event self
    = Some {| x := pymin (pymax 0 (fadd (x self) dx_pt)) (page_width self);
              y := pymin (pymax 0 (fadd (y self) dy_pt)) (page_height self);
              page_width := page_width self; page_height := page_height self;
              drag_data := event |}.
Proof.
  unfold on_drag.
  destruct (px_to_pt_delta_total scales (event.1 - (drag_data self).1)
              (event.2 - (drag_data self).2)) as [[dx dy] ->].
  exists dx, dy. reflexivity.
Qed.

(** X8.  A drag never fails and never takes a marker off the page. *)
Theorem on_drag_stays_on_page (scales : Q * Q) (event : Z * Z) (self : DraggableField) :
  0 <= page_width self -> 0 <= page_height self ->
  exists moved,
    on_drag scales event self = Some moved
    /\ 0 <= x moved <= page_width self
    /\ 0 <= y moved <= page_height self
    /\ page_width moved = page_width self
    /\ page_height moved = page_height self
    /\ drag_data moved = event.
Proof.
  intros PW PH. destruct (on_drag_run scales event self) as (dx & dy & ->).
  eexists. split; [reflexivity|]. simpl.
  split; [apply clamp_to_range, PW|]. split; [apply clamp_to_range, PH|]. auto.
Qed.

Lemma on_drag_stays_on_page_witness :
  exists moved,
    on_drag (0, 1 # 2) (5000, -40)%Z (__init__ 239 95 612 792) = Some moved
    /\ 0 <= x moved <= 612 /\ 0 <= y moved <= 792.
Proof.
  destruct (on_drag_stays_on_page (0, 1 # 2) (5000, -40)%Z (__init__ 239 95 612 792))
    as (moved & E & X & Y & _); [discriminate | discriminate |].
  exists moved. split; [exact E|]. split; assumption.
Defined.

(** X9.  A marker that is not moved gives back the position it was made
    with. *)
Theorem get_coordinates_init (x0 y0 : Z) (W H : Q) :
  (Z.abs x0 < 2 ^ 53)%Z -> (Z.abs y0 < 2 ^ 53)%Z ->
  get_coordinates (__init__ x0 y0 W H) = (x0, y0).
Proof.
  intros Bx By. unfold get_coordinates, __init__, float_of_int. simpl.
  rewrite (round_half_even_compat _ _ (rnd53_exact _ (representable_Z x0 Bx))).
  rewrite (round_half_even_compat _ _ (rnd53_exact _ (representable_Z y0 By))).
  rewrite !round_half_even_Z. reflexivity.
Qed.

Lemma get_coordinates_init_witness :
  get_coordinates (__init__ 239 95 612 792) = (239, 95)%Z.
Proof. apply (get_coordinates_init 239 95 612 792); reflexivity. Defined.

(** X10.  A drag event at the point of the press does not move a marker that
    lies on the page. *)
Theorem on_drag_without_motion (scales : Q * Q) (point : Z * Z) (self : DraggableField) :
  representable (x self) -> representable (y self) ->
  0 <= x self <= page_width self -> 0 <= y self <= page_height self ->
  exists same,
    on_drag scales point (on_press point self) = Some same
    /\ x same == x self /\ y same == y self
    /\ get_coordinates same = get_coordinates self.
Proof.
  intros Rx Ry Ix Iy. unfold on_drag, on_press. simpl.
  rewrite !Z.sub_diag. destruct scales as [sx sy].
  unfold _px_to_pt_delta, float_truediv, float_of_int.
  assert (Z0 : forall s, rnd53 (rnd53 (inject_Z 0) / s) = 0).
  { intros s. change (rnd53 (inject_Z 0)) with 0. apply (rnd53_compat _ 0). unfold Qdiv. ring. }
  destruct (Qeq_bool sx 0) eqn:Ex; destruct (Qeq_bool sy 0) eqn:Ey;
    try rewrite Ex; try rewrite Ey; simpl; rewrite ?Z0;
    (eexists; split; [reflexivity|]; unfold fadd, get_coordinates; simpl;
     assert (Vx : pymin (pymax 0 (rnd53 (x self + 0))) (page_width self) == x self)
       by (rewrite (rnd53_compat (x self + 0) (x self)) by ring;
           rewrite clamp_to_range_inside; rewrite rnd53_exact; try assumption; reflexivity);
     assert (Vy : pymin (pymax 0 (rnd53 (y self + 0))) (page_height self) == y self)
       by (rewrite (rnd53_compat (y self + 0) (y self)) by ring;
           rewrite clamp_to_range_inside; rewrite rnd53_exact; try assumption; reflexivity);
     split; [exact Vx|]; split; [exact Vy|];
     rewrite (round_half_even_compat _ _ Vx), (round_half_even_compat _ _ Vy); reflexivity).
Qed.

Lemma on_drag_without_motion_witness :
  exists same,
    on_drag (1, 1) (10, 20)%Z (on_press (10, 20)%Z (__init__ 239 95 612 792)) = Some same
    /\ get_coordinates same = (239, 95)%Z.
Proof.
  destruct (on_drag_without_motion (1, 1) (10, 20)%Z (__init__ 239 95 612 792))
    as (same & E & _ & _ & G).
  - apply (representable_Z 239). reflexivity.
  - apply (representable_Z 95). reflexivity.
  - split; discriminate.
  - split; discriminate.
  - exists same. split; [exact E | exact G].
Defined.
End markers.

(** ** The editor *)

Section editor.
Import binary64 pystr template_coords report_generator template_editor app.
Import draggable_field field_editor editor_state.
Local Open Scope Q_scope.

Lemma representable_round (q : Q) :
  representable q -> representable (inject_Z (round_half_even q)).
Proof.
  intros (m & e & He & Hm & Ex). rewrite (round_half_even_compat _ _ Ex).
  destruct (Z_le_gt_dec 0 e) as [Pos | Neg].
  - assert (E : inject_Z m * 2 ^ e == inject_Z (m * 2 ^ e)).
    { rewrite inject_Z_mult, (pow2_inject e Pos). reflexivity. }
    rewrite (round_half_even_compat _ _ E), round_half_even_Z.
    exists m, e. split; [exact He|]. split; [exact Hm|]. symmetry. exact E.
  - apply representable_Z.
    assert (P : 0 < 2 ^ e) by apply pow2_pos.
    assert (U : 2 ^ e <= 2 ^ (-1)) by (apply pow2_le; lia).
    change (2 ^ (-1)) with (1 # 2) in U.
    assert (Bm : - inject_Z (2 ^ 53) <= inject_Z m <= inject_Z (2 ^ 53)).
    { rewrite <- inject_Z_opp. rewrite <- !Zle_Qle. lia. }
    change (inject_Z (2 ^ 53)) with (2 * inject_Z (2 ^ 52)) in Bm.
    assert (B : inject_Z (- 2 ^ 52) <= inject_Z m * 2 ^ e <= inject_Z (2 ^ 52)).
    { rewrite inject_Z_opp. set (M := inject_Z m) in *. set (p := 2 ^ e) in *.
      set (c := inject_Z (2 ^ 52)) in *.
      assert (0 < c) by (unfold c; reflexivity).
      split; nra. }
    destruct B as [Bl Bu].
    apply round_half_even_mono in Bl, Bu. rewrite round_half_even_Z in Bl, Bu.
    change (2 ^ 53)%Z with (2 * 2 ^ 52)%Z. lia.
Qed.

Lemma ratio_to_point_representable (r size : Q) :
  representable (inject_Z (ratio_to_point r size)).
Proof. apply representable_round, rnd53_representable. Qed.

Lemma round_float_of_int (z : Z) :
  representable (inject_Z z) -> round_half_even (float_of_int z) = z.
Proof.
  intros R. unfold float_of_int.
  rewrite (round_half_even_compat _ _ (rnd53_exact _ R)). apply round_half_even_Z.
Qed.

Lemma default_coords_lookup (W H : Q) (k : string) (p : Z * Z) :
  mosabbir_default_coords W H !! k = Some p ->
  exists rx ry, In (k, (rx, ry)) ratios
    /\ p = (ratio_to_point rx W, ratio_to_point ry H).
Proof.
  intros L. apply elem_of_list_to_map_2 in L. apply list_elem_of_In in L.
  unfold default_items in L. apply in_map_iff in L.
  destruct L as ([k' [rx ry]] & E & I). inversion E; subst. eauto.
Qed.

Lemma store_positions_lookup (fields : gmap string DraggableField) (d : Coords)
    (k : string) :
  store_positions fields d !! k
  = match fields !! k with
    | Some f => Some (get_coordinates f)
    | None => d !! k
    end.
Proof.
  unfold store_positions.
  apply (map_fold_weak_ind
           (fun r m => r !! k = match m !! k with
                                | Some f => Some (get_coordinates f)
                                | None => d !! k
                                end)).
  - rewrite lookup_empty. reflexivity.
  - intros i f m r Hi IH. rewrite !lookup_insert.
    destruct (decide (i = k)); [reflexivity | exact IH].
Qed.

Lemma store_positions_all (fields : gmap string DraggableField) (d : Coords) :
  dom d ⊆ dom fields -> store_positions fields d = get_coordinates <$> fields.
Proof.
  intros D. apply map_eq. intros k.
  rewrite store_positions_lookup, lookup_fmap.
  destruct (fields !! k) eqn:F; [reflexivity|]. simpl.
  apply not_elem_of_dom. intros I. apply D in I. apply elem_of_dom in I.
  rewrite F in I. destruct I; discriminate.
Qed.

(** *** The markers stay on the page *)

Lemma update_placed (size : Q * Q) (self : Editor) (w : World) (d : Coords) :
  page_size self = size ->
  dom (draggable_fields self) = dom get_field_display_names ->
  store w !! field_editor.field_coordinates self = Some d ->
  dom d ⊆ dom (draggable_fields self) ->
  (forall k f, draggable_fields self !! k = Some f ->
     page_width f = size.1 /\ page_height f = size.2
     /\ 0 <= x f /\ 0 <= y f
     /\ (round_half_even (x f) <= round_half_even size.1)%Z
     /\ (round_half_even (y f) <= round_half_even size.2)%Z) ->
  placed size (field_editor.update_coordinates_display (self, w)).
Proof.
  intros S D L Dd F. unfold placed, field_editor.update_coordinates_display. simpl.
  split; [exact S|]. split; [exact D|]. split; [|exact F].
  rewrite lookup_alter_eq, L. simpl. f_equal. apply store_positions_all, Dd.
Qed.

Lemma update_apart (w0 : World) (st : Editor * World) :
  apart w0 st -> apart w0 (field_editor.update_coordinates_display st).
Proof.
  destruct st as [self w]. intros (F & Wr & C & Old & New).
  unfold apart, field_editor.update_coordinates_display. simpl.
  repeat split; try assumption.
  intros l d L. rewrite lookup_alter_ne; [apply Old, L|].
  intros E. subst l. congruence.
Qed.

Lemma initialize_placed (size : Q * Q) (self : Editor) (w : World) :
  page_size self = size ->
  0 < size.1 -> 0 < size.2 -> representable size.1 -> representable size.2 ->
  placed size (initialize_field_coordinates (self, w)).
Proof.
  intros S PW PH RW RH.
  unfold initialize_field_coordinates, alloc, create_draggable_fields.
  cbv beta iota zeta. rewrite S.
  set (l := fresh (dom (store w))).
  set (dflt := mosabbir_default_coords size.1 size.2).
  apply (update_placed size _ _ dflt); simpl.
  - reflexivity.
  - rewrite lookup_insert_eq. simpl. rewrite dom_fmap_L. apply default_coords_dom.
  - apply lookup_insert_eq.
  - rewrite lookup_insert_eq. simpl. rewrite dom_fmap_L. reflexivity.
  - rewrite lookup_insert_eq. simpl. intros k f L. rewrite lookup_fmap in L.
    destruct (dflt !! k) as [[x0 y0]|] eqn:Dk; [|discriminate].
    simpl in L. inversion L; subst f; clear L. simpl.
    assert (B : (0 <= x0 <= round_half_even size.1)%Z
                /\ (0 <= y0 <= round_half_even size.2)%Z).
    { apply (default_items_bounds size.1 size.2 k); try assumption.
      apply list_elem_of_In. apply elem_of_list_to_map_2. exact Dk. }
    destruct (default_coords_lookup _ _ _ _ Dk) as (rx & ry & _ & E).
    inversion E; subst x0 y0; clear E.
    pose proof (ratio_to_point_representable rx size.1) as Rx.
    pose proof (ratio_to_point_representable ry size.2) as Ry.
    unfold float_of_int.
    rewrite (round_half_even_compat _ _ (rnd53_exact _ Rx)).
    rewrite (round_half_even_compat _ _ (rnd53_exact _ Ry)).
    rewrite !round_half_even_Z.
    rewrite (rnd53_exact _ Rx), (rnd53_exact _ Ry).
    destruct B as [[? ?] [? ?]].
    repeat split; try assumption; try reflexivity;
      change 0 with (inject_Z 0); rewrite <- Zle_Qle; assumption.
Qed.

Lemma initialize_apart (w0 : World) (self : Editor) (w : World) :
  fs w = fs w0 -> writable w = writable w0 -> clock w = clock w0 ->
  (forall l d, store w0 !! l = Some d -> store w !! l = Some d) ->
  apart w0 (initialize_field_coordinates (self, w)).
Proof.
  intros F Wr C Old. unfold initialize_field_coordinates, alloc.
  set (l := fresh (dom (store w))).
  assert (Fresh : store w !! l = None).
  { apply not_elem_of_dom. apply is_fresh. }
  assert (New : store w0 !! l = None).
  { destruct (store w0 !! l) eqn:E; [|reflexivity].
    apply Old in E. congruence. }
  unfold create_draggable_fields. cbv beta iota zeta. apply update_apart.
  unfold apart. simpl. repeat split; try assumption.
  intros l' d L. rewrite lookup_insert_ne; [apply Old, L|].
  intros E. subst l'. congruence.
Qed.

Lemma read_template_size_representable (p : str) (w : World) :
  representable (_read_template_size p w).1
  /\ representable (_read_template_size p w).2.
Proof.
  rewrite read_template_size_geometry.
  destruct (template_geometry p w) as [e | [page size]] eqn:G.
  - split; [apply (representable_Z 612) | apply (representable_Z 792)]; reflexivity.
  - destruct (template_geometry_box _ _ _ _ G) as (mw & mh & _ & ->).
    split; apply rnd53_representable.
Qed.

Lemma read_template_size_fs (p : str) (w1 w2 : World) :
  fs w1 = fs w2 -> _read_template_size p w1 = _read_template_size p w2.
Proof.
  intros F. rewrite !read_template_size_geometry.
  rewrite (template_geometry_fs p w1 w2 F). reflexivity.
Qed.

Lemma init_placed (p : str) (preview : option (Z * Z)) (w : World) :
  0 < (_read_template_size p w).1 -> 0 < (_read_template_size p w).2 ->
  placed (_read_template_size p w) (field_editor.__init__ p preview w).
Proof.
  intros PW PH. unfold field_editor.__init__, alloc.
  destruct (read_template_size_representable p w) as [RW RH].
  cbv beta iota zeta.
  apply initialize_placed; simpl; try assumption.
  apply read_template_size_fs. reflexivity.
Qed.

Lemma init_apart (p : str) (preview : option (Z * Z)) (w : World) :
  apart w (field_editor.__init__ p preview w).
Proof.
  unfold field_editor.__init__, alloc.
  apply initialize_apart; simpl; try reflexivity.
  intros l d L. rewrite lookup_insert_ne; [exact L|].
  intros E. subst l.
  assert (N : store w !! fresh (dom (store w)) = None)
    by (apply not_elem_of_dom, is_fresh).
  congruence.
Qed.

Lemma set_field_placed (size : Q * Q) (self : Editor) (w : World)
    (k : string) (old new : DraggableField) :
  placed size (self, w) ->
  draggable_fields self !! k = Some old ->
  page_width new = size.1 -> page_height new = size.2 ->
  0 <= x new -> 0 <= y new ->
  (round_half_even (x new) <= round_half_even size.1)%Z ->
  (round_half_even (y new) <= round_half_even size.2)%Z ->
  placed size (field_editor.update_coordinates_display (set_field k new self, w)).
Proof.
  intros (S & D & L & F) Old PW PH X Y RX RY.
  assert (Dk : dom (<[k := new]> (draggable_fields self)) = dom (draggable_fields self)).
  { apply dom_insert_lookup_L. rewrite Old. eauto. }
  apply (update_placed size _ _ (get_coordinates <$> draggable_fields self)); simpl.
  - exact S.
  - rewrite Dk. exact D.
  - exact L.
  - rewrite Dk, dom_fmap_L. reflexivity.
  - intros k' f Lk. rewrite lookup_insert in Lk.
    destruct (decide (k = k')); [|apply (F k'), Lk].
    inversion Lk; subst f. repeat split; assumption.
Qed.

Lemma handle_placed (size : Q * Q) (e : Event) (st : Editor * World) :
  0 < size.1 -> 0 < size.2 -> representable size.1 -> representable size.2 ->
  placed size st -> placed size (handle e st).
Proof.
  intros PW PH RW RH P. destruct st as [self w].
  pose proof P as (S & D & L & F).
  destruct e as [k at_ | k at_ | k | z | | |]; simpl.
  - destruct (draggable_fields self !! k) as [f|] eqn:Fk; [|exact P].
    destruct (F k f Fk) as (A1 & A2 & A3 & A4 & A5 & A6).
    unfold placed. simpl. split; [exact S|].
    assert (Dk : dom (<[k := on_press at_ f]> (draggable_fields self))
                 = dom (draggable_fields self)).
    { apply dom_insert_lookup_L. rewrite Fk. eauto. }
    split; [rewrite Dk; exact D|].
    split.
    + rewrite L. f_equal. rewrite fmap_insert.
      symmetry. apply insert_id. rewrite lookup_fmap, Fk. reflexivity.
    + intros k' f' Lk. rewrite lookup_insert in Lk.
      destruct (decide (k = k')); [|apply (F k'), Lk].
      inversion Lk; subst f'. simpl. repeat split; assumption.
  - destruct (draggable_fields self !! k) as [f|] eqn:Fk; [|exact P].
    destruct (get_scales self) as [scales|]; [|exact P]. simpl.
    destruct (F k f Fk) as (A1 & A2 & A3 & A4 & A5 & A6).
    assert (NW : 0 <= page_width f) by (rewrite A1; apply Qlt_le_weak, PW).
    assert (NH : 0 <= page_height f) by (rewrite A2; apply Qlt_le_weak, PH).
    destruct (on_drag_run scales at_ f) as (dx & dy & ->).
    destruct (clamp_to_range (fadd (x f) dx) (page_width f) NW) as [X0 X1].
    destruct (clamp_to_range (fadd (y f) dy) (page_height f) NH) as [Y0 Y1].
    rewrite A1 in X1 at 2. rewrite A2 in Y1 at 2.
    apply (set_field_placed size self w k f _ P Fk); simpl; try assumption.
    + apply round_half_even_mono, X1.
    + apply round_half_even_mono, Y1.
  - apply (update_placed size _ _ (get_coordinates <$> draggable_fields self));
      try assumption. rewrite dom_fmap_L. reflexivity.
  - unfold on_zoom_change.
    apply (update_placed size _ _ (get_coordinates <$> draggable_fields self));
      simpl; try assumption. rewrite dom_fmap_L. reflexivity.
  - apply initialize_placed; assumption.
  - exact P.
  - exact P.
Qed.

Lemma handle_apart (w0 : World) (e : Event) (st : Editor * World) :
  apart w0 st -> apart w0 (handle e st).
Proof.
  intros A. destruct st as [self w].
  destruct e as [k at_ | k at_ | k | z | | |]; unfold handle; cbv beta iota zeta.
  - destruct (draggable_fields self !! k); exact A.
  - destruct (draggable_fields self !! k); [|exact A].
    destruct (_ ≫= _); [|exact A].
    apply update_apart. exact A.
  - apply update_apart, A.
  - unfold on_zoom_change. apply update_apart. exact A.
  - destruct A as (F & Wr & C & Old & _). apply initialize_apart; assumption.
  - exact A.
  - exact A.
Qed.

Lemma save_placed (size : Q * Q) (st : Editor * World) :
  placed size st -> placed size (save_coordinates st).
Proof.
  destruct st as [self w]. intros (S & D & L & F).
  assert (P : placed size (field_editor.update_coordinates_display (self, w))).
  { apply (update_placed size _ _ (get_coordinates <$> draggable_fields self));
      try assumption. rewrite dom_fmap_L. reflexivity. }
  unfold save_coordinates.
  destruct (field_editor.update_coordinates_display (self, w)) as [self' w'].
  exact P.
Qed.

Lemma save_apart (w0 : World) (st : Editor * World) :
  apart w0 st -> apart w0 (save_coordinates st).
Proof.
  intros A. apply update_apart in A. unfold save_coordinates.
  destruct (field_editor.update_coordinates_display st) as [self' w']. exact A.
Qed.

Lemma run_session_placed (size : Q * Q) (events : list Event) (st : Editor * World) :
  0 < size.1 -> 0 < size.2 -> representable size.1 -> representable size.2 ->
  placed size st -> placed size (run_session events st).
Proof.
  intros PW PH RW RH. revert st.
  induction events as [|e rest IH]; intros st P; [exact P|].
  destruct e; simpl.
  - apply IH. apply (handle_placed size (Press fname at_)); assumption.
  - apply IH. apply (handle_placed size (Drag fname at_)); assumption.
  - apply IH. apply (handle_placed size (Release fname)); assumption.
  - apply IH. apply (handle_placed size (Zoom value)); assumption.
  - apply IH. apply (handle_placed size Reset); assumption.
  - apply save_placed, P.
  - exact P.
Qed.

Lemma run_session_apart (w0 : World) (events : list Event) (st : Editor * World) :
  apart w0 st -> apart w0 (run_session events st).
Proof.
  revert st. induction events as [|e rest IH]; intros st A; [exact A|].
  destruct e; simpl.
  - apply IH. apply (handle_apart w0 (Press fname at_)), A.
  - apply IH. apply (handle_apart w0 (Drag fname at_)), A.
  - apply IH. apply (handle_apart w0 (Release fname)), A.
  - apply IH. apply (handle_apart w0 (Zoom value)), A.
  - apply IH. apply (handle_apart w0 Reset), A.
  - apply save_apart, A.
  - exact A.
Qed.

Lemma update_self (st : Editor * World) :
  (field_editor.update_coordinates_display st).1 = st.1.
Proof. destruct st as [self w]. reflexivity. Qed.

Lemma initialize_saved (st : Editor * World) :
  saved (initialize_field_coordinates st).1 = saved st.1
  /\ page_size (initialize_field_coordinates st).1 = page_size st.1.
Proof. destruct st as [self w]. split; reflexivity. Qed.

Lemma handle_saved (e : Event) (st : Editor * World) :
  saved (handle e st).1 = saved st.1
  /\ page_size (handle e st).1 = page_size st.1.
Proof.
  destruct st as [self w].
  destruct e as [k at_ | k at_ | k | z | | |]; unfold handle; cbv beta iota zeta.
  - destruct (draggable_fields self !! k); split; reflexivity.
  - destruct (draggable_fields self !! k); [|split; reflexivity].
    destruct (_ ≫= _); split; reflexivity.
  - split; reflexivity.
  - split; reflexivity.
  - apply initialize_saved.
  - split; reflexivity.
  - split; reflexivity.
Qed.

Lemma run_session_unsaved (events : list Event) (st : Editor * World) :
  Save ∉ events -> saved (run_session events st).1 = saved st.1.
Proof.
  revert st. induction events as [|e rest IH]; intros st N; [reflexivity|].
  assert (Nr : Save ∉ rest) by (intros I; apply N; right; exact I).
  destruct e; simpl;
    try (rewrite (IH _ Nr); apply handle_saved).
  - exfalso. apply N. left.
  - reflexivity.
Qed.

Lemma new_markers_positions (W H : Q) :
  get_coordinates
    <$> ((fun '(x, y) => draggable_field.__init__ x y W H) <$> mosabbir_default_coords W H)
  = mosabbir_default_coords W H.
Proof.
  apply map_eq. intros k. rewrite !lookup_fmap.
  destruct (mosabbir_default_coords W H !! k) as [[x0 y0]|] eqn:Dk; [|reflexivity].
  destruct (default_coords_lookup _ _ _ _ Dk) as (rx & ry & _ & E).
  inversion E; subst x0 y0; clear E. simpl. unfold get_coordinates. simpl.
  rewrite !round_float_of_int by apply ratio_to_point_representable. reflexivity.
Qed.

Lemma initialize_defaults (self : Editor) (w : World) :
  let st := initialize_field_coordinates (self, w) in
  store st.2 !! field_editor.field_coordinates st.1
  = Some (mosabbir_default_coords (page_size self).1 (page_size self).2)
  /\ draggable_fields st.1
     = (fun '(x, y) => draggable_field.__init__ x y (page_size self).1 (page_size self).2)
       <$> mosabbir_default_coords (page_size self).1 (page_size self).2.
Proof.
  unfold initialize_field_coordinates, alloc, create_draggable_fields.
  cbv beta iota zeta. simpl. rewrite lookup_insert_eq. simpl.
  split; [|reflexivity].
  rewrite lookup_alter_eq, lookup_insert_eq. simpl. f_equal.
  rewrite store_positions_all by (rewrite dom_fmap_L; reflexivity).
  apply new_markers_positions.
Qed.

Lemma save_after_initialize (self : Editor) (w : World) :
  let st := save_coordinates (initialize_field_coordinates (self, w)) in
  saved st.1 = true
  /\ store st.2 !! field_editor.field_coordinates st.1
     = Some (mosabbir_default_coords (page_size self).1 (page_size self).2).
Proof.
  destruct (initialize_defaults self w) as [L F].
  destruct (initialize_field_coordinates (self, w)) as [self' w'] eqn:E.
  simpl in L, F. unfold save_coordinates, field_editor.update_coordinates_display.
  simpl. split; [reflexivity|].
  rewrite lookup_alter_eq, L. simpl. f_equal. rewrite F.
  rewrite store_positions_all by (rewrite dom_fmap_L; reflexivity).
  apply new_markers_positions.
Qed.

Lemma run_session_app (before rest : list Event) (st : Editor * World) :
  Forall (fun e => e <> Save /\ e <> Close) before ->
  exists st',
    run_session (before ++ rest) st = run_session rest st'
    /\ page_size st'.1 = page_size st.1.
Proof.
  revert st. induction before as [|e before IH]; intros st N.
  - exists st. split; reflexivity.
  - inversion N as [|? ? [NS NC] N']; subst.
    destruct (IH (handle e st) N') as (st' & R & S).
    exists st'. split.
    + destruct e; simpl; try exact R; congruence.
    + rewrite S. apply handle_saved.
Qed.

(** X11.  Whatever is done in the editor, its mapping holds the ten fields
    at the rounded positions of the markers, all within the page. *)
Theorem edit_session_positions (p : str) (preview : option (Z * Z))
    (session : list Event) (w : World) :
  let size := _read_template_size p w in
  0 < size.1 -> 0 < size.2 ->
  let '(editor, w') := run_session session (field_editor.__init__ p preview w) in
  exists d,
    store w' !! field_editor.field_coordinates editor = Some d
    /\ d = get_coordinates <$> draggable_fields editor
    /\ dom d = dom get_field_display_names
    /\ is_Some (app.update_coordinates_display d)
    /\ forall k x y, d !! k = Some (x, y) ->
         (0 <= x <= round_half_even size.1)%Z /\ (0 <= y <= round_half_even size.2)%Z.
Proof.
  intros size PW PH.
  destruct (read_template_size_representable p w) as [RW RH].
  pose proof (run_session_placed size session _ PW PH RW RH (init_placed p preview w PW PH))
    as P.
  destruct (run_session session (field_editor.__init__ p preview w)) as [editor w'].
  destruct P as (S & D & L & F).
  exists (get_coordinates <$> draggable_fields editor).
  assert (Dd : dom (get_coordinates <$> draggable_fields editor)
               = dom get_field_display_names) by (rewrite dom_fmap_L; exact D).
  split; [exact L|]. split; [reflexivity|]. split; [exact Dd|]. split.
  - unfold app.update_coordinates_display.
    rewrite bool_decide_eq_true_2 by (rewrite Dd; reflexivity). eauto.
  - intros k x0 y0 Lk. rewrite lookup_fmap in Lk.
    destruct (draggable_fields editor !! k) as [f|] eqn:Fk; [|discriminate].
    simpl in Lk. unfold get_coordinates in Lk. inversion Lk; subst x0 y0; clear Lk.
    destruct (F k f Fk) as (_ & _ & X0 & Y0 & X1 & Y1).
    apply round_half_even_mono in X0, Y0.
    change 0 with (inject_Z 0) in X0, Y0. rewrite round_half_even_Z in X0, Y0.
    repeat split; assumption.
Qed.

(** X12.  The editor changes no file and no mapping object that existed
    when it was opened; the window either keeps its mapping or adopts
    a new one. *)
Theorem edit_template_spares_the_rest (preview : option (Z * Z))
    (session : list Event) (self : App) (w : World) :
  let '(self', w') := edit_template preview session (self, w) in
  fs w' = fs w /\ writable w' = writable w /\ clock w' = clock w
  /\ (forall l d, store w !! l = Some d -> store w' !! l = Some d)
  /\ csv_path self' = csv_path self
  /\ app.template_path self' = app.template_path self
  /\ (app.field_coordinates self' = app.field_coordinates self
      \/ store w !! app.field_coordinates self' = None).
Proof.
  unfold edit_template.
  destruct (app.template_path self) as [p|] eqn:T.
  - pose proof (run_session_apart w session _ (init_apart p preview w)) as A.
    destruct (run_session session (field_editor.__init__ p preview w)) as [editor w'].
    destruct A as (F & Wr & C & Old & New).
    destruct (saved editor); simpl; repeat split; try assumption; auto.
  - rewrite T. repeat split; auto.
Qed.

(** X13.  An editor closed without saving leaves the window as it was. *)
Theorem edit_template_without_save (preview : option (Z * Z))
    (session : list Event) (self : App) (w : World) :
  Save ∉ session ->
  (edit_template preview session (self, w)).1 = self.
Proof.
  intros N. unfold edit_template.
  destruct (app.template_path self) as [p|]; [|reflexivity].
  pose proof (run_session_unsaved session (field_editor.__init__ p preview w) N) as U.
  destruct (run_session session (field_editor.__init__ p preview w)) as [editor w'].
  change (saved editor = saved (field_editor.__init__ p preview w).1) in U.
  assert (I : saved (field_editor.__init__ p preview w).1 = false).
  { unfold field_editor.__init__, alloc. cbv beta iota zeta.
    rewrite (proj1 (initialize_saved _)). reflexivity. }
  rewrite U, I. reflexivity.
Qed.

(** X14.  Saving at once gives the window the default positions for the
    page of the template: the editor does not start from the positions
    the window had. *)
Theorem open_and_save_gives_defaults (preview : option (Z * Z))
    (self : App) (w : World) (p : str) :
  app.template_path self = Some p ->
  let size := _read_template_size p w in
  let '(self', w') := edit_template preview [Save] (self, w) in
  store w' !! app.field_coordinates self'
  = Some (mosabbir_default_coords size.1 size.2).
Proof.
  intros T size. unfold edit_template. rewrite T. simpl run_session.
  unfold field_editor.__init__, alloc. cbv beta iota zeta.
  match goal with
  | |- context [initialize_field_coordinates (?s, ?w1)] =>
      pose proof (save_after_initialize s w1) as [Sv L];
      destruct (save_coordinates (initialize_field_coordinates (s, w1))) as [editor w']
  end.
  simpl in Sv, L. rewrite Sv. simpl. rewrite L.
  rewrite (read_template_size_fs p _ w) by reflexivity. reflexivity.
Qed.

(** X15.  Reset followed by Save gives the default positions, whatever was
    dragged before. *)
Theorem reset_restores_defaults (preview : option (Z * Z)) (before : list Event)
    (self : App) (w : World) (p : str) :
  app.template_path self = Some p ->
  Forall (fun e => e <> Save /\ e <> Close) before ->
  let size := _read_template_size p w in
  let '(self', w') := edit_template preview (before ++ [Reset; Save]) (self, w) in
  store w' !! app.field_coordinates self'
  = Some (mosabbir_default_coords size.1 size.2).
Proof.
  intros T N size. unfold edit_template. rewrite T.
  destruct (run_session_app before [Reset; Save] (field_editor.__init__ p preview w) N)
    as ([ed1 w1] & -> & S).
  change (run_session [Reset; Save] (ed1, w1))
    with (save_coordinates (initialize_field_coordinates (ed1, w1))).
  pose proof (save_after_initialize ed1 w1) as [Sv L].
  destruct (save_coordinates (initialize_field_coordinates (ed1, w1))) as [editor w'].
  simpl in Sv, L. rewrite Sv. simpl. rewrite L.
  change (page_size ed1 = page_size (field_editor.__init__ p preview w).1) in S.
  assert (I : page_size (field_editor.__init__ p preview w).1 = _read_template_size p w).
  { unfold field_editor.__init__, alloc. cbv beta iota zeta.
    rewrite (proj2 (initialize_saved _)). simpl.
    apply read_template_size_fs. reflexivity. }
  rewrite S, I. reflexivity.
Qed.
End editor.

Section editor_examples.
Import binary64 pystr template_coords report_generator template_editor app.
Import draggable_field field_editor example.
Local Open Scope Q_scope.

Lemma edit_session_positions_witness :
  let size := _read_template_size (lit "t.pdf") (world_of (Some (PdfFile [letter_page])) []) in
  let '(editor, w') :=
    run_session [Press "name" (100, 100)%Z; Drag "name" (5000, 120)%Z; Save]
      (field_editor.__init__ (lit "t.pdf") None
         (world_of (Some (PdfFile [letter_page])) [])) in
  exists d,
    store w' !! field_editor.field_coordinates editor = Some d
    /\ d = get_coordinates <$> draggable_fields editor
    /\ dom d = dom get_field_display_names
    /\ is_Some (app.update_coordinates_display d)
    /\ forall k x y, d !! k = Some (x, y) ->
         (0 <= x <= round_half_even size.1)%Z /\ (0 <= y <= round_half_even size.2)%Z.
Proof.
  apply (edit_session_positions (lit "t.pdf") None
           [Press "name" (100, 100)%Z; Drag "name" (5000, 120)%Z; Save]
           (world_of (Some (PdfFile [letter_page])) []));
    vm_compute; reflexivity.
Defined.

Lemma edit_template_without_save_witness :
  (edit_template None [Press "name" (100, 100)%Z; Drag "name" (300, 120)%Z; Close]
     (window, world_of (Some (PdfFile [letter_page])) [])).1 = window.
Proof.
  apply (edit_template_without_save None
           [Press "name" (100, 100)%Z; Drag "name" (300, 120)%Z; Close]
           window (world_of (Some (PdfFile [letter_page])) [])).
  rewrite !elem_of_cons, elem_of_nil.
  intros [E | [E | [E | E]]]; try discriminate E. exact E.
Defined.

Lemma open_and_save_gives_defaults_witness :
  let size := _read_template_size (lit "t.pdf") (world_of (Some (PdfFile [letter_page])) []) in
  let '(self', w') :=
    edit_template None [Save] (window, world_of (Some (PdfFile [letter_page])) []) in
  store w' !! app.field_coordinates self' = Some (mosabbir_default_coords size.1 size.2).
Proof.
  apply (open_and_save_gives_defaults None window
           (world_of (Some (PdfFile [letter_page])) []) (lit "t.pdf")).
  reflexivity.
Defined.

Lemma reset_restores_defaults_witness :
  let size := _read_template_size (lit "t.pdf") (world_of (Some (PdfFile [letter_page])) []) in
  let '(self', w') :=
    edit_template None
      ([Press "name" (100, 100)%Z; Drag "name" (300, 120)%Z] ++ [Reset; Save])
      (window, world_of (Some (PdfFile [letter_page])) []) in
  store w' !! app.field_coordinates self' = Some (mosabbir_default_coords size.1 size.2).
Proof.
  apply (reset_restores_defaults None
           [Press "name" (100, 100)%Z; Drag "name" (300, 120)%Z]
           window (world_of (Some (PdfFile [letter_page])) []) (lit "t.pdf")).
  - reflexivity.
  - repeat constructor; discriminate.
Defined.
End editor_examples.

(** ** The window and the batch driver *)

Section window_handlers.
Import binary64 pystr utils template_coords report_generator app.
Context {os : OS}.
Variable pending : nat -> list Action.

(** X16.  What [select_csv] shows tells what it did. *)
Theorem select_csv_checks_columns (path : option str) (read : Exn + DataFrame)
    (self : App) :
  let '(self', shown) := select_csv path read self in
  match shown with
  | CsvSelected n =>
      exists p df, path = Some p /\ read = inr df /\ n = length (table df)
        /\ (forall c, c ∈ required -> c ∈ columns df)
        /\ csv_path self' = Some p
        /\ app.template_path self' = app.template_path self
        /\ app.field_coordinates self' = app.field_coordinates self
  | CsvMissingColumns missing =>
      self' = self /\ missing <> []
      /\ exists df, read = inr df
           /\ missing `sublist_of` required
           /\ forall c, c ∈ missing <-> c ∈ required /\ c ∉ columns df
  | CsvReadFailed e => self' = self /\ read = inl e
  | CsvCancelled => self' = self /\ path = None
  end.
Proof.
  unfold select_csv. destruct path as [p|]; [|auto].
  destruct read as [e | df]; [auto|].
  destruct (filter (fun c => c ∉ columns df) required) as [|c0 rest] eqn:M.
  - exists p, df. repeat split; try reflexivity.
    intros c I. destruct (decide (c ∈ columns df)) as [Y | N]; [exact Y|].
    assert (c ∈ filter (fun c => c ∉ columns df) required)
      by (apply list_elem_of_filter; split; assumption).
    rewrite M in H. inversion H.
  - split; [reflexivity|]. split; [discriminate|]. exists df.
    split; [reflexivity|]. rewrite <- M. split; [apply sublist_filter|].
    intros c. rewrite list_elem_of_filter. tauto.
Qed.

Lemma read_page_size_geometry (path : str) (w : World) :
  (r ← PdfReader path; p ← first_page r; page_size p) w
  = match template_geometry path w with
    | inr (_, size) => (inr size, w)
    | inl e => (inl e, w)
    end.
Proof.
  unfold template_geometry, PdfReader, first_page, page_size,
    ask, raise, mbind, M_bind, mret, M_ret.
  destruct (fs w !! path) as [[[|page pages]| | |]|]; try reflexivity.
  destruct (mediabox page) as [[mw mh]|]; reflexivity.
Qed.

(** X17.  [select_template] always records the path; the positions are
    replaced, by a new mapping with the defaults of the page, only when
    the size of the page could be read. *)
Theorem select_template_new_mapping (path : str) (self : App) (w : World) :
  let '(self', w') := select_template path (self, w) in
  app.template_path self' = Some path /\ csv_path self' = csv_path self
  /\ fs w' = fs w /\ writable w' = writable w /\ clock w' = clock w
  /\ (forall l d, store w !! l = Some d -> store w' !! l = Some d)
  /\ match template_geometry path w with
     | inr (_, (pw, ph)) =>
         store w !! app.field_coordinates self' = None
         /\ store w' !! app.field_coordinates self' = Some (mosabbir_default_coords pw ph)
     | inl _ =>
         app.field_coordinates self' = app.field_coordinates self /\ w' = w
     end.
Proof.
  unfold select_template. rewrite read_page_size_geometry.
  destruct (template_geometry path w) as [e | [page [pw ph]]].
  - repeat split; auto.
  - unfold alloc. simpl.
    assert (N : store w !! fresh (dom (store w)) = None)
      by (apply not_elem_of_dom, is_fresh).
    repeat split; try reflexivity.
    + intros l d L. rewrite lookup_insert_ne; [exact L|]. intros E. subst l. congruence.
    + exact N.
    + apply lookup_insert_eq.
Qed.

(** *** One row of the batch, whatever happens *)

Lemma report_step_cases generator csv_dir total i row s :
  let st := root_update (pending (S i)) (gui s, world s) in
  let p := output_path_of row (lit "reports") in
  let s' := report_step pending generator csv_dir total i row s in
  gui s' = st.1 /\ writable (world s') = writable (world s)
  /\ store (world s') = store st.2
  /\ match template_geometry (report_generator.template_path generator) (world s) with
     | inl e =>
         ok s' = ok s /\ outcomes s' = outcomes s ++ [inl e]
         /\ fs (world s') = fs (world s)
     | inr (page, size) =>
         match writable (world s) p with
         | Written =>
             ok s' = S (ok s) /\ outcomes s' = outcomes s ++ [inr p]
             /\ fs (world s')
                = <[p := PdfFile [merge_page page
                                    (overlay generator st.2 row csv_dir (Z.of_nat i + 1) size)]]>
                    (fs (world s))
         | Interrupted =>
             ok s' = ok s /\ outcomes s' = outcomes s ++ [inl (WriteInterrupted p)]
             /\ fs (world s') = <[p := OtherFile]> (fs (world s))
         | Denied =>
             ok s' = ok s /\ outcomes s' = outcomes s ++ [inl (WriteError p)]
             /\ fs (world s') = fs (world s)
         end
     end.
Proof.
  intros st p s'. unfold s', report_step. fold st.
  pose proof (root_update_files (pending (S i)) (gui s, world s)) as (F & Wq & _).
  fold st in F, Wq. destruct st as [self w] eqn:E. simpl in *.
  rewrite create_patient_report_run.
  rewrite (template_geometry_fs _ _ _ F).
  destruct (template_geometry (report_generator.template_path generator) (world s))
    as [e | [page size]]; simpl.
  - repeat split; assumption.
  - fold p. rewrite Wq. destruct (writable (world s) p); simpl; rewrite ?F; repeat split;
      assumption.
Qed.

Lemma report_loop_accounting generator csv_dir total rows i s :
  let s' := report_loop pending generator csv_dir total i rows s in
  exists outs,
    outcomes s' = outcomes s ++ outs
    /\ Forall2 (fun row o => match o with
                             | inr p => p = output_path_of row (lit "reports")
                             | inl _ => True
                             end) rows outs
    /\ ok s' = (ok s + length (List.filter (fun o => match o with
                                                     | inr _ => true
                                                     | inl _ => false
                                                     end) outs))%nat.
Proof.
  revert i s. induction rows as [|row rows IH]; intros i s; simpl.
  - exists []. rewrite app_nil_r. repeat split; [constructor | simpl; lia].
  - destruct (IH (S i) (report_step pending generator csv_dir total i row s))
      as (outs & O & F & K).
    pose proof (report_step_cases generator csv_dir total i row s) as (_ & _ & _ & C).
    simpl in C.
    destruct (template_geometry _ _) as [e | [page size]].
    + destruct C as (Ok & Out & _).
      exists (inl e :: outs). rewrite O, Out, <- app_assoc. split; [reflexivity|].
      split; [constructor; [exact I | exact F]|]. rewrite K, Ok. reflexivity.
    + destruct (writable (world s) _).
      * destruct C as (Ok & Out & _).
        eexists (inl _ :: outs). rewrite O, Out, <- app_assoc. split; [reflexivity|].
        split; [constructor; [exact I | exact F]|]. rewrite K, Ok. reflexivity.
      * destruct C as (Ok & Out & _).
        eexists (inl _ :: outs). rewrite O, Out, <- app_assoc. split; [reflexivity|].
        split; [constructor; [exact I | exact F]|]. rewrite K, Ok. reflexivity.
      * destruct C as (Ok & Out & _).
        eexists (inr _ :: outs). rewrite O, Out, <- app_assoc. split; [reflexivity|].
        split; [constructor; [reflexivity | exact F]|]. rewrite K, Ok. simpl. lia.
Qed.

(** X18.  The counts that [generate_reports] shows. *)
Theorem generate_reports_accounting (self : App) (w : World) (csv tpl : str)
    (rows : list Row) :
  csv_path self = Some csv -> app.template_path self = Some tpl ->
  fs w !! csv = Some (CsvFile rows) ->
  exists n outs s shown,
    generate_reports pending self w = (Finished n (length rows) outs, s)
    /\ Forall2 (fun row o => match o with
                             | inr p => p = output_path_of row (lit "reports")
                             | inl _ => True
                             end) rows outs
    /\ n = length (List.filter (fun o => match o with
                                         | inr _ => true
                                         | inl _ => false
                                         end) outs)
    /\ (n <= length rows)%nat
    /\ trace s = shown ++ [if (n =? length rows)%nat then InfoAll n
                           else WarningPartial n (length rows);
                           StatusDone n (length rows)].
Proof.
  intros C T R. rewrite (generate_reports_run pending self w csv tpl rows C T R).
  match goal with
  | |- context [report_loop pending ?g ?d ?t 0 rows ?s0] =>
      destruct (report_loop_accounting g d t rows 0 s0) as (outs & O & F & K);
      set (s := report_loop pending g d t 0 rows s0) in *
  end.
  simpl in O, K.
  exists (ok s), (outcomes s). eexists. exists (trace s).
  split; [reflexivity|]. rewrite O. split; [exact F|]. split; [exact K|]. split.
  - rewrite K, (Forall2_length _ _ _ F). apply List.filter_length_le.
  - simpl. rewrite <- app_assoc. reflexivity.
Qed.

Lemma report_loop_footprint generator csv_dir total rows i s (w : World) :
  (forall p, inr p ∉ outcomes s -> inl (WriteInterrupted p) ∉ outcomes s ->
             fs (world s) !! p = fs w !! p) ->
  writable (world s) = writable w ->
  let s' := report_loop pending generator csv_dir total i rows s in
  (forall p, inr p ∉ outcomes s' -> inl (WriteInterrupted p) ∉ outcomes s' ->
             fs (world s') !! p = fs w !! p)
  /\ writable (world s') = writable w.
Proof.
  revert i s. induction rows as [|row rows IH]; intros i s Fp Wr; simpl; [auto|].
  apply IH.
  - pose proof (report_step_cases generator csv_dir total i row s) as (_ & _ & _ & C).
    simpl in C. intros p N M.
    assert (Old : forall o, o ∈ outcomes s ->
              forall o', outcomes (report_step pending generator csv_dir total i row s)
                         = outcomes s ++ [o'] ->
              o ∈ outcomes (report_step pending generator csv_dir total i row s)).
    { intros o I o' ->. apply elem_of_app. left. exact I. }
    destruct (template_geometry _ _) as [e | [page size]].
    + destruct C as (_ & Out & F). rewrite F.
      apply Fp; intros I; [apply N | apply M]; eapply Old; eassumption.
    + destruct (writable (world s) _); destruct C as (_ & Out & F); rewrite F.
      * apply Fp; intros I; [apply N | apply M]; eapply Old; eassumption.
      * rewrite lookup_insert_ne.
        -- apply Fp; intros I; [apply N | apply M]; eapply Old; eassumption.
        -- intros E. apply M. rewrite Out. apply elem_of_app. right. rewrite E. left.
      * rewrite lookup_insert_ne.
        -- apply Fp; intros I; [apply N | apply M]; eapply Old; eassumption.
        -- intros E. apply N. rewrite Out. apply elem_of_app. right. rewrite E. left.
  - pose proof (report_step_cases generator csv_dir total i row s) as (_ & Wq & _).
    simpl in Wq. rewrite Wq. exact Wr.
Qed.

(** X19.  A batch changes no file other than the reports it counts as
    generated and the files that an interrupted write leaves incomplete,
    which it shows as failures of their records. *)
Theorem generate_reports_footprint (self : App) (w : World) :
  let '(result, s) := generate_reports pending self w in
  writable (world s) = writable w
  /\ forall p, inr p ∉ outcomes s -> inl (WriteInterrupted p) ∉ outcomes s ->
               fs (world s) !! p = fs w !! p.
Proof.
  unfold generate_reports.
  destruct (csv_path self) as [csv|] eqn:C; [|simpl; auto].
  destruct (app.template_path self) as [tpl|] eqn:T; [|simpl; auto].
  pose proof (root_update_files (pending 0) (self, w)) as (F & Wq & _).
  destruct (root_update (pending 0) (self, w)) as [self' w'] eqn:E. simpl in F, Wq.
  destruct (read_csv (csv_path self') w') as [e | df]; simpl.
  - rewrite F. auto.
  - match goal with
    | |- context [report_loop pending ?g ?d ?t 0 df ?s0] =>
        destruct (report_loop_footprint g d t df 0 s0 w) as [Fp Wr];
        [simpl; intros; rewrite F; reflexivity | simpl; exact Wq |];
        set (s := report_loop pending g d t 0 df s0) in *
    end.
    destruct (ok s =? length df)%nat; simpl; split; assumption.
Qed.

(** X20.  Without both selections, or without a readable table, no record
    is attempted and no file changes. *)
Theorem generate_reports_needs_inputs (self : App) (w : World) :
  csv_path self = None \/ app.template_path self = None
  \/ (forall rows, read_csv (csv_path self) w <> inr rows) ->
  let '(result, s) := generate_reports pending self w in
  (forall n total outs, result <> Finished n total outs)
  /\ outcomes s = [] /\ ok s = 0%nat
  /\ fs (world s) = fs w /\ clock (world s) = clock w.
Proof.
  intros H. unfold generate_reports.
  destruct (csv_path self) as [csv|] eqn:C; [|simpl; repeat split; discriminate].
  destruct (app.template_path self) as [tpl|] eqn:T; [|simpl; repeat split; discriminate].
  destruct H as [H | [H | H]]; try discriminate.
  pose proof (root_update_files (pending 0) (self, w)) as (F & _ & Ck & Cs).
  destruct (root_update (pending 0) (self, w)) as [self' w'] eqn:E. simpl in F, Ck, Cs.
  assert (R : read_csv (csv_path self') w' = read_csv (Some csv) w).
  { rewrite Cs, C. unfold read_csv. rewrite F. reflexivity. }
  rewrite R. destruct (read_csv (Some csv) w) as [e | df] eqn:Rd.
  - simpl. repeat split; try assumption; discriminate.
  - exfalso. apply (H df). reflexivity.
Qed.

Lemma template_geometry_lookup path w1 w2 :
  fs w1 !! path = fs w2 !! path ->
  template_geometry path w1 = template_geometry path w2.
Proof. unfold template_geometry. intros ->. reflexivity. Qed.

Lemma report_loop_usable generator csv_dir total rows i s page size :
  template_geometry (report_generator.template_path generator) (world s) = inr (page, size) ->
  let out row := output_path_of row (lit "reports") in
  (forall row, row ∈ rows -> writable (world s) (out row) = Interrupted ->
               out row <> report_generator.template_path generator) ->
  let s' := report_loop pending generator csv_dir total i rows s in
  outcomes s'
  = outcomes s ++ map (fun row => match writable (world s) (out row) with
                                  | Written => inr (out row)
                                  | Interrupted => inl (WriteInterrupted (out row))
                                  | Denied => inl (WriteError (out row))
                                  end) rows
  /\ ok s' = (ok s + length (List.filter (fun row => match writable (world s) (out row) with
                                                     | Written => true
                                                     | _ => false
                                                     end) rows))%nat.
Proof.
  intros G out. revert i s page G.
  induction rows as [|row rows IH]; intros i s page G Safe; simpl.
  - rewrite app_nil_r. split; [reflexivity | lia].
  - pose proof (report_step_cases generator csv_dir total i row s) as (_ & Wq & _ & C).
    simpl in C, Wq. rewrite G in C. fold (out row) in C.
    set (s1 := report_step pending generator csv_dir total i row s) in *.
    assert (G1 : exists page', template_geometry (report_generator.template_path generator)
                                 (world s1) = inr (page', size)).
    { destruct (writable (world s) (out row)) eqn:Wr; destruct C as (_ & _ & F).
      - exists page. rewrite (template_geometry_fs _ _ _ F). exact G.
      - exists page. rewrite <- G. apply template_geometry_lookup.
        rewrite F. apply lookup_insert_ne. apply Safe; [left | exact Wr].
      - eapply (template_geometry_written _ (world s)); [exact G | exact F]. }
    destruct G1 as (page' & G1).
    destruct (IH (S i) s1 page' G1) as [O K].
    { intros r I. rewrite Wq. apply Safe. right. exact I. }
    rewrite O, K, Wq.
    destruct (writable (world s) (out row)); destruct C as (Ok & Out & _);
      rewrite Ok, Out, <- app_assoc; simpl; split; try reflexivity; lia.
Qed.

(** X21.  With a template whose first page has a readable size, a record
    fails only when its report cannot be written: when the file cannot be
    opened, or when the write is interrupted.  (An interrupted write is
    taken not to hit the template file itself.) *)
Theorem usable_template_outcomes (self : App) (w : World) (csv tpl : str)
    (rows : list Row) (page : Page) (size : Q * Q) :
  csv_path self = Some csv -> app.template_path self = Some tpl ->
  fs w !! csv = Some (CsvFile rows) ->
  template_geometry (report_generator.template_path (generator_of pending self w)) w
  = inr (page, size) ->
  let out row := output_path_of row (lit "reports") in
  (forall row, row ∈ rows -> writable w (out row) = Interrupted ->
               out row <> report_generator.template_path (generator_of pending self w)) ->
  (generate_reports pending self w).1
  = Finished (length (List.filter (fun row => match writable w (out row) with
                                              | Written => true
                                              | _ => false
                                              end) rows))
      (length rows)
      (map (fun row => match writable w (out row) with
                       | Written => inr (out row)
                       | Interrupted => inl (WriteInterrupted (out row))
                       | Denied => inl (WriteError (out row))
                       end) rows).
Proof.
  intros C T R G out Safe. rewrite (generate_reports_run pending self w csv tpl rows C T R).
  pose proof (root_update_files (pending 0) (self, w)) as (F & Wq & _).
  fold (state_at_construction pending self w) in F, Wq.
  match goal with
  | |- context [report_loop pending ?g ?d ?t 0 rows ?s0] =>
      destruct (report_loop_usable g d t rows 0 s0 page size) as [O K];
      [simpl; rewrite (template_geometry_fs _ _ _ F); exact G
      |simpl; rewrite Wq; exact Safe |];
      set (s := report_loop pending g d t 0 rows s0) in *
  end.
  simpl in O, K. rewrite Wq in O, K. simpl. rewrite O, K. reflexivity.
Qed.
End window_handlers.

Section window_examples.
Import binary64 pystr utils template_coords report_generator app example.

Lemma generate_reports_accounting_witness :
  exists n outs s shown,
    generate_reports idle window (world_of (Some (PdfFile [letter_page])) six_rows)
    = (Finished n (length six_rows) outs, s)
    /\ Forall2 (fun row o => match o with
                             | inr p => p = output_path_of row (lit "reports")
                             | inl _ => True
                             end) six_rows outs
    /\ n = length (List.filter (fun o => match o with
                                         | inr _ => true
                                         | inl _ => false
                                         end) outs)
    /\ (n <= length six_rows)%nat
    /\ trace s = shown ++ [if (n =? length six_rows)%nat then InfoAll n
                           else WarningPartial n (length six_rows);
                           StatusDone n (length six_rows)].
Proof.
  apply (generate_reports_accounting idle window
           (world_of (Some (PdfFile [letter_page])) six_rows)
           (lit "data/p.csv") (lit "t.pdf") six_rows); reflexivity.
Defined.

Lemma generate_reports_needs_inputs_witness :
  let '(result, s) :=
    generate_reports idle
      {| csv_path := None; app.template_path := Some (lit "t.pdf");
         app.field_coordinates := 1 |}
      (world_of (Some (PdfFile [letter_page])) six_rows) in
  (forall n total outs, result <> Finished n total outs)
  /\ outcomes s = [] /\ ok s = 0%nat
  /\ fs (world s) = fs (world_of (Some (PdfFile [letter_page])) six_rows)
  /\ clock (world s) = clock (world_of (Some (PdfFile [letter_page])) six_rows).
Proof.
  apply (generate_reports_needs_inputs idle
           {| csv_path := None; app.template_path := Some (lit "t.pdf");
              app.field_coordinates := 1 |}
           (world_of (Some (PdfFile [letter_page])) six_rows)).
  left. reflexivity.
Defined.

Lemma usable_template_outcomes_witness :
  (generate_reports idle window (world_of (Some (PdfFile [letter_page])) six_rows)).1
  = Finished 6 6 (map (fun row => inr (output_path_of row (lit "reports"))) six_rows).
Proof.
  apply (usable_template_outcomes idle window
           (world_of (Some (PdfFile [letter_page])) six_rows)
           (lit "data/p.csv") (lit "t.pdf") six_rows letter_page (612, 792)%Q);
    try reflexivity.
  intros row _ I. discriminate I.
Defined.
End window_examples.

(** ** The overlay *)

Section drawing.
Import binary64 pystr utils template_coords report_generator app layout.
Context {os : OS}.
Local Open Scope Q_scope.

Lemma draw_texts_drawn coords pw ph fields canvas :
  let c := foldl (fun cv '(key, txt) => draw_text coords pw ph key txt cv) canvas fields in
  font c = font canvas
  /\ drawn c = drawn canvas ++ omap (text_op coords (pw, ph) (font canvas)) fields.
Proof.
  revert canvas. induction fields as [|[key txt] fields IH]; intros canvas; simpl.
  - rewrite app_nil_r. auto.
  - destruct (IH (draw_text coords pw ph key txt canvas)) as [F D].
    destruct (draw_text_drawn coords pw ph key txt canvas) as [F1 D1].
    rewrite F, D, F1, D1, <- app_assoc. split; [reflexivity|]. f_equal.
    unfold text_op at 2. simpl. destruct (coords !! key) as [[x y]|]; reflexivity.
Qed.

Lemma text_fields_drawn self w canvas row bed_id pw ph :
  font (_draw_text_fields self w canvas row bed_id pw ph) = font canvas
  /\ drawn (_draw_text_fields self w canvas row bed_id pw ph)
     = drawn canvas
       ++ omap (text_op (coords_of self w) (pw, ph) (font canvas)) (text_fields row bed_id).
Proof.
  apply (draw_texts_drawn (coords_of self w) pw ph (text_fields row bed_id) canvas).
Qed.

(** The image step, when the mapping has the key: one operation, anchored
    at the position of the key. *)
Lemma draw_patient_image_op self w canvas row csv_dir pw ph x0 y0 :
  coords_of self w !! "image"%string = Some (x0, y0) ->
  exists op,
    drawn (_draw_patient_image self w canvas row csv_dir pw ph) = drawn canvas ++ [op]
    /\ ((exists msg, op = DrawString (Helvetica 9) (clamp_x x0 pw)
                            (to_pdf_y (float_of_int y0) ph) msg)
        \/ (exists path y nw nh, op = DrawImage path (clamp_x x0 pw) y nw nh)).
Proof.
  intros I. unfold _draw_patient_image. rewrite I.
  destruct (is_empty _); [eexists; split; [reflexivity | left; eauto]|].
  destruct (fs w !! _) as [f|] eqn:E; [|eexists; split; [reflexivity | left; eauto]].
  unfold try_draw_image. rewrite E.
  destruct f as [pages | iw ih | rows |];
    try (eexists; split; [reflexivity | left; eauto]).
  destruct (image_box iw ih) as [e | [nw nh]];
    [eexists; split; [reflexivity | left; eauto]|].
  eexists. split; [reflexivity|]. right. eauto 6.
Qed.

Lemma draw_patient_image_skip self w canvas row csv_dir pw ph :
  coords_of self w !! "image"%string = None ->
  _draw_patient_image self w canvas row csv_dir pw ph = canvas.
Proof. intros I. unfold _draw_patient_image. rewrite I. reflexivity. Qed.

Lemma overlay_drawn self w row csv_dir bed_id size :
  drawn (overlay self w row csv_dir bed_id size)
  = drawn (_draw_patient_image self w
             (_draw_text_fields self w (setFont (Helvetica 12) (new_canvas size))
                row bed_id size.1 size.2) row csv_dir size.1 size.2)
    ++ [DrawRightString (Helvetica 8) (fsub size.1 20) 15
          (lit "Generated: " ++ strftime (clock w))].
Proof. reflexivity. Qed.

(** X22.  The layout of the overlay. *)
Theorem overlay_layout self w row csv_dir bed_id size :
  exists image_part,
    drawn (overlay self w row csv_dir bed_id size)
    = omap (text_op (coords_of self w) size (Helvetica 12)) (text_fields row bed_id)
      ++ image_part
      ++ [DrawRightString (Helvetica 8) (fsub size.1 20) 15
            (lit "Generated: " ++ strftime (clock w))]
    /\ length image_part = (if coords_of self w !! "image"%string is Some _ then 1 else 0)%nat
    /\ Forall (fun op => match op with
                         | DrawString f _ _ _ => f = Helvetica 9
                         | DrawImage _ _ _ _ _ => True
                         | DrawRightString _ _ _ _ => False
                         end) image_part.
Proof.
  rewrite overlay_drawn. destruct size as [pw ph]. simpl fst. simpl snd.
  destruct (text_fields_drawn self w (setFont (Helvetica 12) (new_canvas (pw, ph)))
              row bed_id pw ph) as [_ T]. simpl in T.
  destruct (coords_of self w !! "image"%string) as [[x0 y0]|] eqn:I.
  - destruct (draw_patient_image_op self w
                (_draw_text_fields self w (setFont (Helvetica 12) (new_canvas (pw, ph)))
                   row bed_id pw ph) row csv_dir pw ph x0 y0 I) as (op & D & Shape).
    exists [op]. rewrite D, T, <- app_assoc. split; [reflexivity|]. split; [reflexivity|].
    constructor; [|constructor].
    destruct Shape as [(msg & ->) | (path & y & nw & nh & ->)]; auto.
  - rewrite (draw_patient_image_skip _ _ _ _ _ _ _ I), T.
    exists []. split; [reflexivity|]. split; [reflexivity | constructor].
Qed.

Lemma text_op_anchored coords size f field op :
  0 <= size.1 -> 0 <= size.2 ->
  text_op coords size f field = Some op -> anchored size op.
Proof.
  intros PW PH. unfold text_op.
  destruct (coords !! field.1) as [[x y]|]; [|discriminate].
  simpl. intros [= <-]. simpl. split.
  - apply clamp_range, PW.
  - apply clamp_range, PH.
Qed.

(** X23.  Whatever the positions of the mapping are, every text other than
    the time stamp is anchored on the page, and so is the left edge of
    the image. *)
Theorem overlay_anchored_on_page self w row csv_dir bed_id size :
  0 <= size.1 -> 0 <= size.2 ->
  exists body stamp,
    drawn (overlay self w row csv_dir bed_id size) = body ++ [stamp]
    /\ Forall (anchored size) body.
Proof.
  intros PW PH. rewrite overlay_drawn. eexists. eexists. split; [reflexivity|].
  destruct (text_fields_drawn self w (setFont (Helvetica 12) (new_canvas size))
              row bed_id size.1 size.2) as [_ T]. simpl in T.
  assert (FT : Forall (anchored size)
                 (omap (text_op (coords_of self w) (size.1, size.2) (Helvetica 12))
                    (text_fields row bed_id))).
  { apply Forall_forall. intros op I. apply list_elem_of_omap in I.
    destruct I as (field & _ & E).
    apply (text_op_anchored _ (size.1, size.2) _ _ _ PW PH) in E.
    destruct size. exact E. }
  destruct (coords_of self w !! "image"%string) as [[x0 y0]|] eqn:I.
  - destruct (draw_patient_image_op self w
                (_draw_text_fields self w (setFont (Helvetica 12) (new_canvas size))
                   row bed_id size.1 size.2) row csv_dir size.1 size.2 x0 y0 I)
      as (op & -> & Shape).
    rewrite T. apply Forall_app. split; [exact FT|]. constructor; [|constructor].
    destruct Shape as [(msg & ->) | (path & y & nw & nh & ->)]; simpl.
    + split; [apply clamp_range, PW | apply clamp_range, PH].
    + apply clamp_range, PW.
  - rewrite (draw_patient_image_skip _ _ _ _ _ _ _ I), T. exact FT.
Qed.

(** X24.  What the image step paints, case by case. *)
Theorem image_step_cases self w canvas row csv_dir pw ph :
  let rel := strip (cell row "image_path") in
  let path := normpath (path_join csv_dir rel) in
  drawn (_draw_patient_image self w canvas row csv_dir pw ph)
  = drawn canvas
    ++ match coords_of self w !! "image"%string with
       | None => []
       | Some (x0, y0) =>
           let x := clamp_x x0 pw in
           let y := to_pdf_y (float_of_int y0) ph in
           let note msg := [DrawString (Helvetica 9) x y msg] in
           match rel, fs w !! path with
           | [], _ => note (lit "No image path")
           | _ :: _, None => note (lit "Image not found")
           | _ :: _, Some (ImageFile iw ih) =>
               match image_box iw ih with
               | inr (nw, nh) => [DrawImage path x (fsub y nh) nw nh]
               | inl e => note (lit "Image Error: " ++ exn_text e)
               end
           | _ :: _, Some _ =>
               note (lit "Image Error: " ++ exn_text (ImageOpenError path))
           end
       end.
Proof.
  intros rel path. unfold _draw_patient_image.
  destruct (coords_of self w !! "image"%string) as [[x0 y0]|];
    [|rewrite app_nil_r; reflexivity].
  fold rel. destruct rel as [|c t] eqn:R; [reflexivity|].
  simpl is_empty. cbv iota. fold path.
  destruct (fs w !! path) as [f|] eqn:E; [|reflexivity].
  unfold try_draw_image. rewrite E.
  destruct f as [pages | iw ih | rows |]; try reflexivity.
  destruct (image_box iw ih) as [e | [nw nh]]; reflexivity.
Qed.

(** X25.  The size of an image can be scaled unless its longer side is
    zero. *)
Theorem image_box_fails_on_zero (iw ih : Z) :
  (0 < iw \/ 0 < ih -> exists box, image_box iw ih = inr box)%Z
  /\ (iw = 0 -> ih = 0 -> image_box iw ih = inl ZeroDivisionError)%Z
  /\ (forall e, image_box iw ih = inl e ->
        e = ZeroDivisionError /\ (iw <= 0)%Z /\ (ih <= 0)%Z).
Proof.
  unfold image_box, int_truediv. split; [|split].
  - intros P. destruct (iw >=? ih)%Z eqn:C.
    + apply Z.geb_le in C.
      destruct (iw =? 0)%Z eqn:Z0; [apply Z.eqb_eq in Z0; lia | eauto].
    + rewrite Z.geb_leb in C; apply Z.leb_gt in C.
      destruct (ih =? 0)%Z eqn:Z0; [apply Z.eqb_eq in Z0; lia | eauto].
  - intros -> ->. reflexivity.
  - intros e. destruct (iw >=? ih)%Z eqn:C.
    + apply Z.geb_le in C.
      destruct (iw =? 0)%Z eqn:Z0; [|discriminate].
      apply Z.eqb_eq in Z0. intros [= <-]. repeat split; lia.
    + rewrite Z.geb_leb in C; apply Z.leb_gt in C.
      destruct (ih =? 0)%Z eqn:Z0; [|discriminate].
      apply Z.eqb_eq in Z0. intros [= <-]. repeat split; lia.
Qed.

(** X26.  The overlay reads nine columns of the row and ten keys of the
    mapping, and nothing else of either. *)
Theorem overlay_reads_only_its_fields self1 self2 w1 w2 row1 row2 csv_dir bed_id size :
  fs w1 = fs w2 -> clock w1 = clock w2 ->
  (forall c, c ∈ required -> row1 !! c = row2 !! c) ->
  (forall k, is_Some (get_field_display_names !! k) ->
             coords_of self1 w1 !! k = coords_of self2 w2 !! k) ->
  overlay self1 w1 row1 csv_dir bed_id size = overlay self2 w2 row2 csv_dir bed_id size.
Proof.
  intros F C R K.
  assert (Rc : forall c, c ∈ required -> cell row1 c = cell row2 c).
  { intros c I. unfold cell. rewrite (R c I). reflexivity. }
  assert (In_req : forall c, In c required -> c ∈ required)
    by (intros c; apply list_elem_of_In).
  unfold overlay, _draw_text_fields, _draw_patient_image, try_draw_image, draw_text.
  rewrite C, F.
  rewrite !(K "bed_id"%string), !(K "name"%string), !(K "age"%string),
    !(K "gender"%string), !(K "attendees"%string), !(K "date_of_diagnosis"%string),
    !(K "cancer_type"%string), !(K "cancer_stage"%string), !(K "cancer_grade"%string),
    !(K "image"%string) by (vm_compute; eauto).
  rewrite !(Rc "name"%string), !(Rc "age"%string), !(Rc "gender"%string),
    !(Rc "attendees"%string), !(Rc "date_of_diagnosis"%string),
    !(Rc "cancer_type"%string), !(Rc "cancer_stage"%string),
    !(Rc "cancer_grade"%string), !(Rc "image_path"%string)
    by (apply In_req; simpl; tauto).
  reflexivity.
Qed.

(** X27.  A report is the first page of the template with the overlay
    painted over it, and nothing else changes.  A failed attempt changes
    no file, except that a write interrupted after the file was opened
    leaves an incomplete file at the output path. *)
Theorem report_is_one_page self row csv_dir bed_id output_dir w :
  let p := output_path_of row output_dir in
  match create_patient_report self row csv_dir bed_id output_dir w with
  | (inr p', w') =>
      p' = p
      /\ writable w p = Written
      /\ exists page pages mw mh,
           fs w !! report_generator.template_path self = Some (PdfFile (page :: pages))
           /\ mediabox page = Some (mw, mh)
           /\ fs w' = <[p := PdfFile
                               [{| mediabox := mediabox page;
                                   content := content page
                                     ++ drawn (overlay self w row csv_dir bed_id
                                                 (rnd53 mw, rnd53 mh)) |}]]> (fs w)
           /\ clock w' = S (clock w) /\ store w' = store w /\ writable w' = writable w
  | (inl e, w') =>
      store w' = store w /\ writable w' = writable w
      /\ ((template_geometry (report_generator.template_path self) w = inl e /\ w' = w)
          \/ (e = WriteError p /\ writable w p = Denied /\ fs w' = fs w)
          \/ (e = WriteInterrupted p /\ writable w p = Interrupted
              /\ fs w' = <[p := OtherFile]> (fs w)))
  end.
Proof.
  intros p. rewrite create_patient_report_run. fold p.
  destruct (template_geometry (report_generator.template_path self) w)
    as [e | [page size]] eqn:G; [auto|].
  simpl. destruct (writable w p) eqn:Wr.
  - split; [reflexivity|]. split; [reflexivity|]. right. left. auto.
  - split; [reflexivity|]. split; [reflexivity|]. right. right. auto.
  - split; [reflexivity|]. split; [reflexivity|].
    unfold template_geometry in G.
    destruct (fs w !! report_generator.template_path self) as [[[|pg pages]| | |]|];
      try discriminate.
    destruct (mediabox pg) as [[mw mh]|] eqn:B; [|discriminate].
    inversion G; subst page size.
    exists pg, pages, mw, mh. repeat split; try reflexivity. exact B.
Qed.
End drawing.

Section drawing_examples.
Import binary64 pystr utils template_coords report_generator app layout example.
Local Open Scope Q_scope.

Lemma overlay_anchored_on_page_witness :
  exists body stamp,
    drawn (overlay (report_generator.__init__ (lit "t.pdf") 1)
             (world_of (Some (PdfFile [letter_page])) six_rows)
             (patient "Ann Lee" "ann.png") (lit "data") 1 (612, 792))
    = body ++ [stamp]
    /\ Forall (anchored (612, 792)) body.
Proof.
  apply (overlay_anchored_on_page (report_generator.__init__ (lit "t.pdf") 1)
           (world_of (Some (PdfFile [letter_page])) six_rows)
           (patient "Ann Lee" "ann.png") (lit "data") 1 (612, 792)); discriminate.
Defined.

Lemma overlay_reads_only_its_fields_witness :
  overlay (report_generator.__init__ (lit "t.pdf") 1)
    (world_of (Some (PdfFile [letter_page])) six_rows)
    (patient "Ann Lee" "ann.png") (lit "data") 1 (612, 792)
  = overlay (report_generator.__init__ (lit "t.pdf") 1)
      (world_of (Some (PdfFile [letter_page])) six_rows)
      (<["ward"%string := lit "B"]> (patient "Ann Lee" "ann.png")) (lit "data") 1 (612, 792).
Proof.
  apply (overlay_reads_only_its_fields
           (report_generator.__init__ (lit "t.pdf") 1)
           (report_generator.__init__ (lit "t.pdf") 1)
           (world_of (Some (PdfFile [letter_page])) six_rows)
           (world_of (Some (PdfFile [letter_page])) six_rows)
           (patient "Ann Lee" "ann.png")
           (<["ward"%string := lit "B"]> (patient "Ann Lee" "ann.png"))).
  - reflexivity.
  - reflexivity.
  - intros c I. rewrite lookup_insert_ne; [reflexivity|].
    intros <-. apply list_elem_of_In in I. simpl in I.
    repeat (destruct I as [I | I]; [discriminate I|]). exact I.
  - reflexivity.
Defined.
End drawing_examples.
